(** * The Comfy metadata processor ([src/utils/metadata/comfy.metadata.ts])

    A shallow embedding of [comfyMetadataProcessor] (its [canParse], [parse]
    and [encode] entry points and the helpers [cleanBadJson],
    [getPromptText], [getNumberValue], [modelFileName] and
    [a1111Compatability]) together with the fragment of the JavaScript
    run time the module relies on: JSON values, property access, truthiness,
    [JSON.parse] and [JSON.stringify].

    Conventions.
    - JavaScript strings are modelled by [string] (UTF-8 bytes).
    - JavaScript numbers are modelled by exact decimal numbers ([Num]):
      a literal that a double holds as written is that number, a literal
      beyond the range of a double is an infinity or zero, and the double
      of any other literal is [Unmodelled] ([literal_value]).
    - Exceptions are modelled by the [Res] monad.  The extra outcome
      [Unmodelled] marks the few run-time behaviours the embedding does not
      cover (they are listed where they arise); no theorem identifies it
      with a JavaScript result. *)

From Stdlib Require Import ZArith QArith Qabs Lia Bool.
From Stdlib Require Import Ascii DecimalString DecimalN DecimalFacts.
From Stdlib Require String.
From stdpp Require Import base strings list gmap.

Local Open Scope Z_scope.

(* [simpl] may unfold string concatenation on a constructor. *)
#[local] Arguments String.append !s1 s2 : simpl nomatch.

(** ** Outcomes of a computation *)

Inductive Error : Type :=
| SyntaxError            (* JSON.parse on malformed text *)
| TypeError (msg : string)
| RangeError             (* call stack exhausted by unbounded recursion *)
| Unmodelled.            (* behaviour not covered by the embedding *)

Inductive Res (A : Type) : Type :=
| Ok (a : A)
| Err (e : Error).
Arguments Ok {A} a.
Arguments Err {A} e.

Definition bind {A B : Type} (m : Res A) (k : A -> Res B) : Res B :=
  match m with
  | Ok a => k a
  | Err e => Err e
  end.

Notation "'let*' x ':=' m 'in' k" := (bind m (fun x => k))
  (at level 10, x name, m at level 100, k at level 200).
Notation "'let*' ' p ':=' m 'in' k" := (bind m (fun x => match x with p => k end))
  (at level 10, p pattern, m at level 100, k at level 200).

Definition throws {A : Type} (r : Res A) : Prop :=
  match r with
  | Ok _ => False
  | Err e => e <> Unmodelled
  end.

(** ** Strings *)

Module Str.

(** [starts_with p s]: the literal [p] occurs at the start of [s]. *)
Fixpoint starts_with (p s : string) : bool :=
  match p, s with
  | "", _ => true
  | String a p', String b s' => if Ascii.eqb a b then starts_with p' s' else false
  | String _ _, "" => false
  end.

(** The text that follows the literal [p] at the start of [s]. *)
Fixpoint strip_prefix (p s : string) : option string :=
  match p, s with
  | "", _ => Some s
  | String a p', String b s' => if Ascii.eqb a b then strip_prefix p' s' else None
  | String _ _, "" => None
  end.

(** [occurs p s]: the literal [p] occurs somewhere in [s]. *)
Definition occurs (p s : string) : Prop := exists a b, s = a +:+ p +:+ b.

(** The engine behind [String.prototype.replace] with a global regular
    expression whose matches are never empty.  [m s] is the length of the
    match of the expression at the start of [s], if there is one; matches
    are found from left to right and do not overlap.  [skip] counts the
    characters of the current match that are still to be consumed. *)
Fixpoint replace_from (m : string -> option nat) (rep : string) (skip : nat)
    (s : string) : string :=
  match s with
  | "" => ""
  | String c s' =>
      match skip with
      | S k => replace_from m rep k s'
      | O =>
          match m s with
          | Some len => rep +:+ replace_from m rep (Nat.pred len) s'
          | None => String c (replace_from m rep O s')
          end
      end
  end.

Definition replace_global (m : string -> option nat) (rep s : string) : string :=
  replace_from m rep O s.

(** A literal pattern such as [/\[NaN\]/]. *)
Definition literal (p s : string) : option nat :=
  if starts_with p s then Some (String.length p) else None.

(** [split_on sep s] is [s.split(sep)] for a one-character separator: it
    always has at least one element. *)
Fixpoint split_on (sep : ascii) (s : string) : list string :=
  match s with
  | "" => [""]
  | String c s' =>
      if Ascii.eqb c sep then "" :: split_on sep s'
      else match split_on sep s' with
           | [] => [String c ""]
           | seg :: segs => String c seg :: segs
           end
  end.

Fixpoint all_chars (p : ascii -> bool) (s : string) : bool :=
  match s with
  | "" => true
  | String c s' => p c && all_chars p s'
  end.

End Str.

(** ** [cleanBadJson] *)

Definition cleanBadJson (str : string) : string :=
  Str.replace_global (Str.literal "[Infinity]") "[]"
    (Str.replace_global (Str.literal "[NaN]") "[]" str).

(** ** [modelFileName] *)

Definition backslash : ascii := "092"%char.

(** Number of leading pairs of backslashes: the group [(\\\\)*]. *)
Fixpoint backslash_pairs (s : string) : nat :=
  match s with
  | String a (String b r) =>
      if Ascii.eqb a backslash && Ascii.eqb b backslash
      then S (backslash_pairs r) else O
  | _ => O
  end.

(** [sep_expr = /\\(\\\\)*/g]: one backslash, then as many pairs of
    backslashes as there are. *)
Definition sep_expr (s : string) : option nat :=
  match s with
  | String c r =>
      if Ascii.eqb c backslash then Some (S (2 * backslash_pairs r)) else None
  | "" => None
  end.

Definition not_slash_or_dot (c : ascii) : bool :=
  negb (Ascii.eqb c "/") && negb (Ascii.eqb c ".").

(** Does [/\.[^/.]+$/] match at the start of [s]?  A match runs to the end
    of the string. *)
Definition ext_expr (s : string) : bool :=
  match s with
  | String c r =>
      Ascii.eqb c "." && negb (String.eqb r "") && Str.all_chars not_slash_or_dot r
  | "" => false
  end.

(** [s.replace(/\.[^/.]+$/, '')]: the leftmost match is removed. *)
Fixpoint strip_ext (s : string) : string :=
  match s with
  | "" => ""
  | String c r => if ext_expr s then "" else String c (strip_ext r)
  end.

Definition modelFileName (name : string) : string :=
  let name := Str.replace_global sep_expr "/" name in
  let parts := Str.split_on "/" name in
  strip_ext (List.last parts "").

(** ** Numbers

    A number is [± 0.d1 d2 ... dk × 10^point].  [JSON.parse] produces
    numbers in canonical form ([canon]): no leading or trailing zero digit,
    and zero is [zero].  The sign of [-0] is not kept: no operation of the
    module tells [-0] from [0] (truthiness, [<], [>], [===], [String] and
    [JSON.stringify], which writes [0] for both). *)

Inductive digit : Type := d0 | d1 | d2 | d3 | d4 | d5 | d6 | d7 | d8 | d9.

Record Num : Type := mkNum {
  num_neg : bool;
  num_digits : list digit;
  num_point : Z
}.

#[global] Instance digit_eq_dec : EqDecision digit.
Proof. solve_decision. Defined.

#[global] Instance Num_eq_dec : EqDecision Num.
Proof. solve_decision. Defined.

(** A number of the run time: a finite number, or the infinity that a
    literal beyond the range of a double denotes.  A [Num] stands for the
    finite number it is. *)
Inductive Number : Type :=
| Finite (x : Num)
| Infinite (neg : bool).

Coercion Finite : Num >-> Number.

#[global] Instance Number_eq_dec : EqDecision Number.
Proof. solve_decision. Defined.

Module Dec.

Definition to_ascii (d : digit) : ascii :=
  match d with
  | d0 => "0" | d1 => "1" | d2 => "2" | d3 => "3" | d4 => "4"
  | d5 => "5" | d6 => "6" | d7 => "7" | d8 => "8" | d9 => "9"
  end%char.

Definition of_ascii (c : ascii) : option digit :=
  if Ascii.eqb c "0" then Some d0 else if Ascii.eqb c "1" then Some d1
  else if Ascii.eqb c "2" then Some d2 else if Ascii.eqb c "3" then Some d3
  else if Ascii.eqb c "4" then Some d4 else if Ascii.eqb c "5" then Some d5
  else if Ascii.eqb c "6" then Some d6 else if Ascii.eqb c "7" then Some d7
  else if Ascii.eqb c "8" then Some d8 else if Ascii.eqb c "9" then Some d9
  else None.

Definition is_zero (d : digit) : bool :=
  match d with d0 => true | _ => false end.

Fixpoint chars (ds : list digit) : string :=
  match ds with
  | [] => ""
  | d :: ds' => String (to_ascii d) (chars ds')
  end.

Fixpoint zeros (n : nat) : list digit :=
  match n with
  | O => []
  | S n' => d0 :: zeros n'
  end.

(** The longest run of decimal digits at the start of [s]. *)
Fixpoint span (s : string) : list digit * string :=
  match s with
  | "" => ([], "")
  | String c r =>
      match of_ascii c with
      | Some d => let '(ds, rest) := span r in (d :: ds, rest)
      | None => ([], s)
      end
  end.

Fixpoint to_uint (ds : list digit) : Decimal.uint :=
  match ds with
  | [] => Decimal.Nil
  | d :: r =>
      match d with
      | d0 => Decimal.D0 | d1 => Decimal.D1 | d2 => Decimal.D2
      | d3 => Decimal.D3 | d4 => Decimal.D4 | d5 => Decimal.D5
      | d6 => Decimal.D6 | d7 => Decimal.D7 | d8 => Decimal.D8
      | d9 => Decimal.D9
      end (to_uint r)
  end.

Fixpoint of_uint (u : Decimal.uint) : list digit :=
  match u with
  | Decimal.Nil => []
  | Decimal.D0 r => d0 :: of_uint r | Decimal.D1 r => d1 :: of_uint r
  | Decimal.D2 r => d2 :: of_uint r | Decimal.D3 r => d3 :: of_uint r
  | Decimal.D4 r => d4 :: of_uint r | Decimal.D5 r => d5 :: of_uint r
  | Decimal.D6 r => d6 :: of_uint r | Decimal.D7 r => d7 :: of_uint r
  | Decimal.D8 r => d8 :: of_uint r | Decimal.D9 r => d9 :: of_uint r
  end.

(** The natural number written by a digit sequence, and the decimal
    digits of a natural number (no leading zero; [0] is written "0"). *)
Definition to_N (ds : list digit) : N := N.of_uint (to_uint ds).
Definition of_N (n : N) : list digit := of_uint (N.to_uint n).

Fixpoint strip_leading (ds : list digit) : list digit :=
  match ds with
  | d0 :: r => strip_leading r
  | _ => ds
  end.

Fixpoint leading_zeros (ds : list digit) : nat :=
  match ds with
  | d0 :: r => S (leading_zeros r)
  | _ => O
  end.

Fixpoint strip_trailing (ds : list digit) : list digit :=
  match ds with
  | [] => []
  | d :: r =>
      match strip_trailing r with
      | [] => if is_zero d then [] else [d]
      | r' => d :: r'
      end
  end.

End Dec.

Definition zero : Num := mkNum false [] 0.

Definition canon (x : Num) : Num :=
  let z := Dec.leading_zeros (num_digits x) in
  match Dec.strip_trailing (Dec.strip_leading (num_digits x)) with
  | [] => zero
  | sig => mkNum (num_neg x) sig (num_point x - Z.of_nat z)
  end.

(** The rational number denoted by [x]. *)
Definition Num_to_Q (x : Num) : Q :=
  let m := Z.of_N (Dec.to_N (num_digits x)) in
  let e := num_point x - Z.of_nat (length (num_digits x)) in
  (if num_neg x then - (m # 1) else (m # 1)) * Qpower (10 # 1) e.

Definition Num_is_zero (x : Num) : bool :=
  match num_digits (canon x) with
  | [] => true
  | _ => false
  end.

(** [Number::toString] (radix 10), also used by [JSON.stringify]. *)
Definition number_to_string (x : Num) : string :=
  let x := canon x in
  match num_digits x with
  | [] => "0"
  | d :: ds =>
      let k := Z.of_nat (length (d :: ds)) in
      let n := num_point x in
      (if num_neg x then "-" else "") +:+
      (if (k <=? n) && (n <=? 21) then
         Dec.chars (d :: ds ++ Dec.zeros (Z.to_nat (n - k)))
       else if (0 <? n) && (n <=? 21) then
         Dec.chars (take (Z.to_nat n) (d :: ds)) +:+ "." +:+
         Dec.chars (drop (Z.to_nat n) (d :: ds))
       else if (-6 <? n) && (n <=? 0) then
         "0." +:+ Dec.chars (Dec.zeros (Z.to_nat (- n)) ++ d :: ds)
       else
         let e := n - 1 in
         Dec.chars [d] +:+
         (match ds with [] => "" | _ => "." +:+ Dec.chars ds end) +:+
         "e" +:+ (if e <? 0 then "-" else "+") +:+
         Dec.chars (Dec.of_N (Z.abs_N e)))
  end.

(** The optional fraction of a number literal: a dot and at least one
    digit. *)
Definition parse_frac (s : string) : Res (list digit * string) :=
  match s with
  | String "." r =>
      let '(f, r') := Dec.span r in
      match f with
      | [] => Err SyntaxError
      | _ => Ok (f, r')
      end
  | _ => Ok ([], s)
  end.

(** The optional exponent of a number literal: [e] or [E], an optional
    sign and at least one digit. *)
Definition parse_exp (s : string) : Res (Z * string) :=
  match s with
  | String c r =>
      if Ascii.eqb c "e" || Ascii.eqb c "E" then
        let '(eneg, r1) :=
          match r with
          | String "-" r' => (true, r')
          | String "+" r' => (false, r')
          | _ => (false, r)
          end in
        let '(ds, r2) := Dec.span r1 in
        match ds with
        | [] => Err SyntaxError
        | _ =>
            let a := Z.of_N (Dec.to_N ds) in
            Ok (if eneg then - a else a, r2)
        end
      else Ok (0, s)
  | "" => Ok (0, s)
  end.

(** The number literal without its sign: an integer part without
    superfluous leading zero, a fraction, an exponent. *)
Definition parse_unsigned (neg : bool) (s : string) : Res (Num * string) :=
  let '(int, s2) := Dec.span s in
  match int with
  | [] => Err SyntaxError
  | d0 :: _ :: _ => Err SyntaxError
  | _ =>
      let* '(frac, s3) := parse_frac s2 in
      let* '(e, s4) := parse_exp s3 in
      Ok (canon (mkNum neg (int ++ frac) (Z.of_nat (length int) + e)), s4)
  end.

(** A JSON number literal at the start of [s]. *)
Definition parse_number (s : string) : Res (Num * string) :=
  match s with
  | String "-" r => parse_unsigned true r
  | _ => parse_unsigned false s
  end.

(** ** The double of a number literal

    [JSON.parse] rounds a number literal to the nearest double.  A literal
    of magnitude [2^1024 - 2^970] or more rounds to an infinity, and one
    of magnitude [2^-1075] or less to zero.  A literal of at most 15
    significant digits within the normal range of a double, or an integer
    of magnitude at most [2^53], is held as written: two such literals
    have the same double only when they are the same number, so that
    comparison, [===] and [Number::toString] see the literal itself.  The
    double of any other literal is [Unmodelled].  The literal [x] is in canonical form: its
    magnitude is at least [10^(point-1)] and below [10^point]. *)

(** The magnitude of [x] compared with [a * 2^b]. *)
Definition magnitude_compare (x : Num) (a b : Z) : comparison :=
  let m := Z.of_N (Dec.to_N (num_digits x)) in
  let e := num_point x - Z.of_nat (length (num_digits x)) in
  (m * 10 ^ Z.max e 0 * 2 ^ Z.max (- b) 0
   ?= a * 2 ^ Z.max b 0 * 10 ^ Z.max (- e) 0)%Z.

(** At most 15 significant digits and a magnitude from [1e-307] to below
    [1e308], or an integer of magnitude at most [2^53]. *)
Definition exactly_held (x : Num) : bool :=
  match num_digits x with
  | [] => true
  | ds =>
      let k := Z.of_nat (length ds) in
      let n := num_point x in
      (k <=? 15) && (-306 <=? n) && (n <=? 308)
      || (k <=? n) && (n <=? 16)
         && match magnitude_compare x (2 ^ 53) 0 with
            | Gt => false
            | _ => true
            end
  end.

(** A magnitude of [2^1024 - 2^970] (about [1.8e308]) or more. *)
Definition overflows (x : Num) : bool :=
  match num_digits x with
  | [] => false
  | _ =>
      if 309 <? num_point x then true
      else if num_point x <? 309 then false
      else match magnitude_compare x (2 ^ 54 - 1) 970 with
           | Lt => false
           | _ => true
           end
  end.

(** A magnitude of [2^-1075] (about [2.5e-324]) or less, and not zero. *)
Definition underflows (x : Num) : bool :=
  match num_digits x with
  | [] => false
  | _ =>
      if num_point x <? -323 then true
      else if -323 <? num_point x then false
      else match magnitude_compare x 1 (-1075) with
           | Gt => false
           | _ => true
           end
  end.

(** The number a literal denotes. *)
Definition literal_value (x : Num) : Res Number :=
  if exactly_held x then Ok (Finite x)
  else if overflows x then Ok (Infinite (num_neg x))
  else if underflows x then Ok (Finite zero)
  else Err Unmodelled.

(** ** Ordinary objects

    The own properties of an object, in the order [Object.keys],
    [Object.values], [Object.entries], the spread operator and
    [JSON.stringify] enumerate them: array indices first, in increasing
    numeric order, then the other keys in the order of their creation. *)

Module Obj.
Section Props.
Context {A : Type}.

(** [k] is an array index: the canonical decimal form of an integer
    between [0] and [2^32 - 2]. *)
Definition array_index (k : string) : option N :=
  match Dec.span k with
  | (d :: ds, EmptyString) =>
      let n := Dec.to_N (d :: ds) in
      if String.eqb (Dec.chars (Dec.of_N n)) k && (n <? 4294967295)%N
      then Some n else None
  | _ => None
  end.

Fixpoint get (k : string) (ps : list (string * A)) : option A :=
  match ps with
  | [] => None
  | (k', v) :: r => if String.eqb k' k then Some v else get k r
  end.

(** Assignment to an existing property keeps its place. *)
Fixpoint replace (k : string) (v : A) (ps : list (string * A)) : list (string * A) :=
  match ps with
  | [] => []
  | (k', v') :: r =>
      if String.eqb k' k then (k, v) :: r else (k', v') :: replace k v r
  end.

Fixpoint insert_index (n : N) (k : string) (v : A) (ps : list (string * A))
    : list (string * A) :=
  match ps with
  | [] => [(k, v)]
  | (k', v') :: r =>
      match array_index k' with
      | Some n' =>
          if (n' <? n)%N then (k', v') :: insert_index n k v r
          else (k, v) :: ps
      | None => (k, v) :: ps
      end
  end.

(** [o[k] = v] on an ordinary object. *)
Definition set (k : string) (v : A) (ps : list (string * A)) : list (string * A) :=
  match get k ps with
  | Some _ => replace k v ps
  | None =>
      match array_index k with
      | Some n => insert_index n k v ps
      | None => ps ++ [(k, v)]
      end
  end.

End Props.
End Obj.

(** ** JSON documents *)

#[local] Unset Elimination Schemes.
Inductive Json : Type :=
| JNull
| JBool (b : bool)
| JNum (x : Number)
| JStr (s : string)
| JArr (xs : list Json)
| JObj (ps : list (string * Json)).
#[local] Set Elimination Schemes.

Definition dquote : ascii := "034"%char.

Module JSON.

Definition hex_char (n : N) : ascii :=
  match n with
  | 0 => "0" | 1 => "1" | 2 => "2" | 3 => "3" | 4 => "4" | 5 => "5"
  | 6 => "6" | 7 => "7" | 8 => "8" | 9 => "9" | 10 => "a" | 11 => "b"
  | 12 => "c" | 13 => "d" | 14 => "e" | _ => "f"
  end%N%char.

Definition hex_value (c : ascii) : option N :=
  let n := N_of_ascii c in
  if (48 <=? n)%N && (n <=? 57)%N then Some (n - 48)%N
  else if (65 <=? n)%N && (n <=? 70)%N then Some (n - 55)%N
  else if (97 <=? n)%N && (n <=? 102)%N then Some (n - 87)%N
  else None.

Definition hex4 (a b c d : ascii) : option N :=
  match hex_value a, hex_value b, hex_value c, hex_value d with
  | Some x, Some y, Some z, Some w => Some (((x * 16 + y) * 16 + z) * 16 + w)%N
  | _, _, _, _ => None
  end.

(** UTF-8 encoding of a code point. *)
Definition utf8 (cp : N) : string :=
  let b (n : N) := ascii_of_N n in
  (if cp <? 128 then String (b cp) ""
   else if cp <? 2048 then
     String (b (192 + cp / 64)) (String (b (128 + cp mod 64)) "")
   else if cp <? 65536 then
     String (b (224 + cp / 4096))
       (String (b (128 + (cp / 64) mod 64)) (String (b (128 + cp mod 64)) ""))
   else
     String (b (240 + cp / 262144))
       (String (b (128 + (cp / 4096) mod 64))
          (String (b (128 + (cp / 64) mod 64))
             (String (b (128 + cp mod 64)) ""))))%N.

Definition is_high_surrogate (u : N) : bool := (55296 <=? u)%N && (u <? 56320)%N.
Definition is_low_surrogate (u : N) : bool := (56320 <=? u)%N && (u <? 57344)%N.

(** The character denoted by a one-letter escape. *)
Definition simple_escape (e : ascii) : option ascii :=
  if Ascii.eqb e dquote then Some dquote
  else if Ascii.eqb e backslash then Some backslash
  else if Ascii.eqb e "/" then Some "/"%char
  else if Ascii.eqb e "b" then Some "008"%char
  else if Ascii.eqb e "f" then Some "012"%char
  else if Ascii.eqb e "n" then Some "010"%char
  else if Ascii.eqb e "r" then Some "013"%char
  else if Ascii.eqb e "t" then Some "009"%char
  else None.

(** The characters of a string literal, after its opening quote, and the
    text that follows its closing quote.  A [\u] escape of a surrogate
    that is not part of a pair denotes a code unit that has no UTF-8
    form: [Unmodelled]. *)
Fixpoint parse_string_body (s : string) : Res (string * string) :=
  match s with
  | "" => Err SyntaxError
  | String c r =>
      if Ascii.eqb c dquote then Ok ("", r)
      else if Ascii.eqb c backslash then
        match r with
        | "" => Err SyntaxError
        | String e r1 =>
            match simple_escape e with
            | Some ch =>
                let* '(t, rest) := parse_string_body r1 in
                Ok (String ch t, rest)
            | None =>
                if Ascii.eqb e "u" then
                  match r1 with
                  | String h1 (String h2 (String h3 (String h4 r2))) =>
                      match hex4 h1 h2 h3 h4 with
                      | None => Err SyntaxError
                      | Some u =>
                          if is_high_surrogate u then
                            match r2 with
                            | String b1 (String b2 (String l1 (String l2
                                (String l3 (String l4 r3))))) =>
                                match hex4 l1 l2 l3 l4 with
                                | Some lo =>
                                    if Ascii.eqb b1 backslash && Ascii.eqb b2 "u"
                                       && is_low_surrogate lo
                                    then
                                      let* '(t, rest) := parse_string_body r3 in
                                      Ok (utf8 (65536 + (u - 55296) * 1024
                                                 + (lo - 56320))%N +:+ t, rest)
                                    else Err Unmodelled
                                | None => Err Unmodelled
                                end
                            | _ => Err Unmodelled
                            end
                          else if is_low_surrogate u then Err Unmodelled
                          else
                            let* '(t, rest) := parse_string_body r2 in
                            Ok (utf8 u +:+ t, rest)
                      end
                  | _ => Err SyntaxError
                  end
                else Err SyntaxError
            end
        end
      else if (N_of_ascii c <? 32)%N then Err SyntaxError
      else
        let* '(t, rest) := parse_string_body r in
        Ok (String c t, rest)
  end.

Definition is_ws (c : ascii) : bool :=
  Ascii.eqb c " " || Ascii.eqb c "009" || Ascii.eqb c "010" || Ascii.eqb c "013".

Fixpoint skip_ws (s : string) : string :=
  match s with
  | String c r => if is_ws c then skip_ws r else s
  | "" => ""
  end.

(** The elements of an array, after its opening bracket; the array is not
    empty.  [p] parses one value. *)
Fixpoint parse_elements (p : string -> Res (Json * string)) (fuel : nat)
    (s : string) : Res (list Json * string) :=
  match fuel with
  | O => Err Unmodelled
  | S fuel' =>
      let* '(x, r) := p s in
      match skip_ws r with
      | String c r' =>
          if Ascii.eqb c "," then
            let* '(xs, rest) := parse_elements p fuel' r' in
            Ok (x :: xs, rest)
          else if Ascii.eqb c "]" then Ok ([x], r')
          else Err SyntaxError
      | "" => Err SyntaxError
      end
  end.

(** The members of an object, after its opening brace; the object is not
    empty.  Each member is assigned to the object built so far. *)
Fixpoint parse_members (p : string -> Res (Json * string)) (fuel : nat)
    (s : string) (acc : list (string * Json)) : Res (list (string * Json) * string) :=
  match fuel with
  | O => Err Unmodelled
  | S fuel' =>
      match skip_ws s with
      | String q r =>
          if Ascii.eqb q dquote then
            let* '(k, r1) := parse_string_body r in
            match skip_ws r1 with
            | String c r2 =>
                if Ascii.eqb c ":" then
                  let* '(v, r3) := p r2 in
                  let acc' := Obj.set k v acc in
                  match skip_ws r3 with
                  | String c' r4 =>
                      if Ascii.eqb c' "," then parse_members p fuel' r4 acc'
                      else if Ascii.eqb c' "}" then Ok (acc', r4)
                      else Err SyntaxError
                  | "" => Err SyntaxError
                  end
                else Err SyntaxError
            | "" => Err SyntaxError
            end
          else Err SyntaxError
      | "" => Err SyntaxError
      end
  end.

(** One JSON value at the start of [s], after optional white space.
    [fuel] bounds the nesting depth and the number of elements of an array
    or object; running out of it is [Unmodelled]. *)
Fixpoint parse_value (fuel : nat) (s : string) : Res (Json * string) :=
  match fuel with
  | O => Err Unmodelled
  | S fuel' =>
      match skip_ws s with
      | "" => Err SyntaxError
      | String c r =>
          if Ascii.eqb c "n" then
            match Str.strip_prefix "ull" r with
            | Some rest => Ok (JNull, rest)
            | None => Err SyntaxError
            end
          else if Ascii.eqb c "t" then
            match Str.strip_prefix "rue" r with
            | Some rest => Ok (JBool true, rest)
            | None => Err SyntaxError
            end
          else if Ascii.eqb c "f" then
            match Str.strip_prefix "alse" r with
            | Some rest => Ok (JBool false, rest)
            | None => Err SyntaxError
            end
          else if Ascii.eqb c dquote then
            let* '(str, rest) := parse_string_body r in
            Ok (JStr str, rest)
          else if Ascii.eqb c "[" then
            match skip_ws r with
            | String c' r' =>
                if Ascii.eqb c' "]" then Ok (JArr [], r')
                else
                  let* '(xs, rest) :=
                    parse_elements (parse_value fuel') fuel' (String c' r') in
                  Ok (JArr xs, rest)
            | "" => Err SyntaxError
            end
          else if Ascii.eqb c "{" then
            match skip_ws r with
            | String c' r' =>
                if Ascii.eqb c' "}" then Ok (JObj [], r')
                else
                  let* '(ps, rest) :=
                    parse_members (parse_value fuel') fuel' (String c' r') [] in
                  Ok (JObj ps, rest)
            | "" => Err SyntaxError
            end
          else
            let* '(x, rest) := parse_number (String c r) in
            let* n := literal_value x in
            Ok (JNum n, rest)
      end
  end.

(** [JSON.parse(s)] *)
Definition parse (s : string) : Res Json :=
  let* '(v, rest) := parse_value (S (String.length s)) s in
  match skip_ws rest with
  | "" => Ok v
  | _ => Err SyntaxError
  end.

(** [QuoteJSONString] *)
Definition quote_char (c : ascii) : string :=
  if Ascii.eqb c dquote then String backslash (String dquote "")
  else if Ascii.eqb c backslash then String backslash (String backslash "")
  else if Ascii.eqb c "008" then String backslash "b"
  else if Ascii.eqb c "009" then String backslash "t"
  else if Ascii.eqb c "010" then String backslash "n"
  else if Ascii.eqb c "012" then String backslash "f"
  else if Ascii.eqb c "013" then String backslash "r"
  else if (N_of_ascii c <? 32)%N then
    String backslash
      (String "u" (String "0" (String "0"
         (String (hex_char (N_of_ascii c / 16))
            (String (hex_char (N_of_ascii c mod 16)) "")))))
  else String c "".

Fixpoint quote_body (s : string) : string :=
  match s with
  | "" => ""
  | String c r => quote_char c +:+ quote_body r
  end.

Definition quote (s : string) : string :=
  String dquote (quote_body s +:+ String dquote "").

Fixpoint commas (parts : list string) : string :=
  match parts with
  | [] => ""
  | [p] => p
  | p :: rest => p +:+ "," +:+ commas rest
  end.

(** [JSON.stringify(j)] for a JSON document [j]. *)
Fixpoint stringify (j : Json) : string :=
  match j with
  | JNull => "null"
  | JBool b => if b then "true" else "false"
  | JNum (Finite x) => number_to_string x
  | JNum (Infinite _) => "null"
  | JStr s => quote s
  | JArr xs => "[" +:+ commas (List.map stringify xs) +:+ "]"
  | JObj ps =>
      "{" +:+
      commas (List.map (fun kv => quote (fst kv) +:+ ":" +:+ stringify (snd kv)) ps)
      +:+ "}"
  end.

End JSON.

(** ** Run-time values

    [JSON.parse] builds a tree of fresh objects.  [parse] then rewrites
    the inputs of the nodes of the prompt graph in place, so that they
    refer to other nodes of the graph: [VRef id] is a reference to the
    node object [prompt[id]].  The graph itself is the [Heap]: the
    properties of [prompt], in the order of [Object.values(prompt)]. *)

#[local] Unset Elimination Schemes.
Inductive Value : Type :=
| VUndef
| VNull
| VBool (b : bool)
| VNum (x : Number)
| VStr (s : string)
| VArr (xs : list Value)
| VObj (ps : list (string * Value))
| VRef (id : string).
#[local] Set Elimination Schemes.

Definition Heap : Type := list (string * Value).

Fixpoint inject (j : Json) : Value :=
  match j with
  | JNull => VNull
  | JBool b => VBool b
  | JNum x => VNum x
  | JStr s => VStr s
  | JArr xs => VArr (List.map inject xs)
  | JObj ps => VObj (List.map (fun kv => (fst kv, inject (snd kv))) ps)
  end.

Module JS.

(** The object a reference denotes. *)
Definition deref (h : Heap) (v : Value) : Value :=
  match v with
  | VRef id => default VUndef (Obj.get id h)
  | _ => v
  end.

(** [ToBoolean] *)
Definition to_boolean (v : Value) : bool :=
  match v with
  | VUndef | VNull => false
  | VBool b => b
  | VNum (Finite x) => negb (Num_is_zero x)
  | VNum (Infinite _) => true
  | VStr s => negb (String.eqb s "")
  | VArr _ | VObj _ | VRef _ => true
  end.

Definition is_undefined (v : Value) : bool :=
  match v with VUndef => true | _ => false end.

Definition is_string (v : Value) : bool :=
  match v with VStr _ => true | _ => false end.

Definition is_array (h : Heap) (v : Value) : bool :=
  match deref h v with VArr _ => true | _ => false end.

(** [v.name] for a property [name] that no prototype defines (every
    property name the module spells out is of this kind). *)
Definition get_prop (h : Heap) (v : Value) (name : string) : Res Value :=
  match deref h v with
  | VUndef =>
      Err (TypeError ("Cannot read properties of undefined (reading '" +:+ name +:+ "')"))
  | VNull =>
      Err (TypeError ("Cannot read properties of null (reading '" +:+ name +:+ "')"))
  | VObj ps => Ok (default VUndef (Obj.get name ps))
  | _ => Ok VUndef
  end.

(** [v?.name] *)
Definition get_prop_opt (h : Heap) (v : Value) (name : string) : Res Value :=
  match v with
  | VUndef | VNull => Ok VUndef
  | _ => get_prop h v name
  end.

Definition join_with (sep : string) (parts : list string) : string :=
  match parts with
  | [] => ""
  | p :: rest => fold_left (fun acc q => acc +:+ sep +:+ q) rest p
  end.

Fixpoint sequence {A : Type} (rs : list (Res A)) : Res (list A) :=
  match rs with
  | [] => Ok []
  | r :: rest =>
      let* a := r in
      let* l := sequence rest in
      Ok (a :: l)
  end.

(** [ToString].  A reference to an array of the graph is [Unmodelled]
    (the graph maps node ids to objects; the sweep throws when it visits
    an array). *)
Fixpoint to_string (h : Heap) (v : Value) : Res string :=
  match v with
  | VUndef => Ok "undefined"
  | VNull => Ok "null"
  | VBool b => Ok (if b then "true" else "false")
  | VNum (Finite x) => Ok (number_to_string x)
  | VNum (Infinite neg) => Ok (if neg then "-Infinity" else "Infinity")
  | VStr s => Ok s
  | VArr xs =>
      let* parts :=
        sequence (List.map (fun x =>
          match x with
          | VUndef | VNull => Ok ""
          | _ => to_string h x
          end) xs) in
      Ok (join_with "," parts)
  | VObj _ => Ok "[object Object]"
  | VRef id =>
      match Obj.get id h with
      | Some (VArr _) => Err Unmodelled
      | _ => Ok "[object Object]"
      end
  end.

(** [v == c] for a string [c] that is not numeric text. *)
Definition loose_eq_string (h : Heap) (v : Value) (c : string) : Res bool :=
  match v with
  | VStr s => Ok (String.eqb s c)
  | VArr _ | VObj _ | VRef _ =>
      let* s := to_string h v in
      Ok (String.eqb s c)
  | VUndef | VNull | VBool _ | VNum _ => Ok false
  end.

Definition Num_eqb (x y : Number) : bool :=
  match x, y with
  | Finite x, Finite y => bool_decide (canon x = canon y)
  | Infinite a, Infinite b => Bool.eqb a b
  | _, _ => false
  end.

(** [a === b].  Two objects written at different places of a document are
    different objects. *)
Definition strict_eq (a b : Value) : bool :=
  match a, b with
  | VUndef, VUndef | VNull, VNull => true
  | VBool x, VBool y => Bool.eqb x y
  | VNum x, VNum y => Num_eqb x y
  | VStr x, VStr y => String.eqb x y
  | VRef x, VRef y => String.eqb x y
  | _, _ => false
  end.

(** [ToNumber]; [None] is [NaN].  The numeric value of a string (or of an
    array, which is converted to a string first) is [Unmodelled]. *)
Definition to_number (h : Heap) (v : Value) : Res (option Number) :=
  match v with
  | VUndef => Ok None
  | VNull => Ok (Some (Finite zero))
  | VBool b => Ok (Some (Finite (if b then mkNum false [d1] 1 else zero)))
  | VNum x => Ok (Some x)
  | VStr _ | VArr _ => Err Unmodelled
  | VObj _ => Ok None
  | VRef id =>
      match Obj.get id h with
      | Some (VArr _) => Err Unmodelled
      | _ => Ok None
      end
  end.

Definition Qltb (a b : Q) : bool := negb (Qle_bool b a).

(** [v < q] and [v > q] for a numeric constant [q]. *)
Definition lt_const (h : Heap) (v : Value) (q : Q) : Res bool :=
  let* n := to_number h v in
  Ok (match n with
      | Some (Finite x) => Qltb (Num_to_Q x) q
      | Some (Infinite neg) => neg
      | None => false
      end).

Definition gt_const (h : Heap) (v : Value) (q : Q) : Res bool :=
  let* n := to_number h v in
  Ok (match n with
      | Some (Finite x) => Qltb q (Num_to_Q x)
      | Some (Infinite neg) => negb neg
      | None => false
      end).

(** The members of [Object.prototype]: [prompt[k]] finds them when [k] is
    not a node id. *)
Definition object_prototype_keys : list string :=
  [ "constructor"; "__defineGetter__"; "__defineSetter__"; "hasOwnProperty";
    "__lookupGetter__"; "__lookupSetter__"; "isPrototypeOf";
    "propertyIsEnumerable"; "toString"; "valueOf"; "__proto__";
    "toLocaleString" ].

(** The code points of a string (a UTF-8 continuation byte belongs to the
    code point before it). *)
Definition is_continuation (c : ascii) : bool :=
  let n := N_of_ascii c in (128 <=? n)%N && (n <? 192)%N.

Fixpoint code_points (s : string) : list string :=
  match s with
  | "" => []
  | String c r =>
      match code_points r with
      | p :: ps =>
          match p with
          | String c' _ =>
              if is_continuation c' then String c p :: ps
              else String c "" :: p :: ps
          | "" => String c "" :: ps
          end
      | [] => [String c ""]
      end
  end.

Fixpoint indexed_from {A : Type} (i : N) (xs : list A) : list (string * A) :=
  match xs with
  | [] => []
  | x :: r => (Dec.chars (Dec.of_N i), x) :: indexed_from (N.succ i) r
  end.

(** The own enumerable properties of a value that is not [null] or
    [undefined]: [Object.entries(v)], [{...v}]. *)
Definition own_entries (v : Value) : list (string * Value) :=
  match v with
  | VObj ps => ps
  | VArr xs => indexed_from 0 xs
  | VStr s => indexed_from 0 (List.map VStr (code_points s))
  | _ => []
  end.

End JS.

(** ** [JSON.stringify] on the prompt graph

    A reference is serialized as the node it denotes; a node that contains
    itself makes [JSON.stringify] throw.  Properties whose value is
    [undefined] are left out, [undefined] elements of an array become
    [null].  [to_json h fuel stack v] is the document that is written for
    [v] ([None] when [v] is [undefined]); [stack] holds the nodes of the
    graph that are being serialized. *)

Fixpoint to_json (h : Heap) (fuel : nat) (stack : list string) (v : Value)
    : Res (option Json) :=
  match fuel with
  | O => Err Unmodelled
  | S fuel' =>
      match v with
      | VUndef => Ok None
      | VNull => Ok (Some JNull)
      | VBool b => Ok (Some (JBool b))
      | VNum x => Ok (Some (JNum x))
      | VStr s => Ok (Some (JStr s))
      | VArr xs =>
          let* js := JS.sequence (List.map (to_json h fuel' stack) xs) in
          Ok (Some (JArr (List.map (default JNull) js)))
      | VObj ps =>
          let* js :=
            JS.sequence (List.map (fun kv =>
              let* j := to_json h fuel' stack (snd kv) in
              Ok (fst kv, j)) ps) in
          Ok (Some (JObj (omap (fun kj =>
                 match snd kj with
                 | Some j => Some (fst kj, j)
                 | None => None
                 end) js)))
      | VRef id =>
          if bool_decide (id ∈ stack) then
            Err (TypeError "Converting circular structure to JSON")
          else to_json h fuel' (id :: stack) (JS.deref h (VRef id))
      end
  end.

Fixpoint value_size (v : Value) : nat :=
  match v with
  | VArr xs => S (list_sum (List.map value_size xs))
  | VObj ps => S (list_sum (List.map (fun kv => value_size (snd kv)) ps))
  | _ => 1%nat
  end.

(** A bound on the length of a chain of nested values that visits no
    node of the graph twice. *)
Definition heap_size (h : Heap) : nat :=
  list_sum (List.map (fun kv => value_size (snd kv)) h).

(** ** The metadata record *)

Module SDResource.
Record t : Type := mk {
  name : string;
  type : string;
  weight : Value;
  weightClip : Value;
  hash : Value
}.
End SDResource.

(** [meta.comfy]: the serialized payload, or the payload already decoded
    (a decoded payload that is a string is a text as well). *)
Inductive ComfyField : Type :=
| ComfyText (s : string)
| ComfyDecoded (j : Json)
| ComfyAbsent.

(** The result of [parseInt]; [None] is [NaN]. *)
Definition JsInt : Type := option Z.

Module Meta.
Record ImageMetaProps : Type := mk {
  prompt : Value;
  negativePrompt : Value;
  cfgScale : Value;
  steps : Value;
  seed : Value;
  sampler : Value;
  scheduler : Value;
  denoise : Value;
  width : Value;
  height : Value;
  hashes : gmap string Value;
  models : list string;
  upscalers : list Value;
  vaes : list Value;
  additionalResources : list SDResource.t;
  controlNets : list Value;
  versionIds : list JsInt;
  modelIds : list JsInt;
  comfy : ComfyField;
  Model : Value;
  Model_hash : Value
}.
End Meta.
Abbreviation ImageMetaProps := Meta.ImageMetaProps.

(** The input of the processor: the two fields of [exif] it reads. *)
Module Exif.
Record t : Type := mk {
  prompt : Value;
  workflow : Value
}.
End Exif.

(** ** [canParse] *)

(** [exif.prompt && exif.workflow] *)
Definition canParse (exif : Exif.t) : Value :=
  if JS.to_boolean (Exif.prompt exif) then Exif.workflow exif
  else Exif.prompt exif.

(** ** [getNumberValue] *)

Definition getNumberValue (h : Heap) (input : Value) : Res Value :=
  match input with
  | VNum _ => Ok input
  | _ =>
      let* inputs := JS.get_prop h input "inputs" in
      JS.get_prop h inputs "Value"
  end.

(** ** [getPromptText]

    [fuel] is the depth of the call stack that is left; the recursion
    follows the [text] inputs and does not end on a graph where they form
    a cycle. *)

Fixpoint getPromptText (fuel : nat) (h : Heap) (node : Value) : Res Value :=
  match fuel with
  | O => Err RangeError
  | S fuel' =>
      let* inputs := JS.get_prop h node "inputs" in
      let* text := JS.get_prop_opt h inputs "text" in
      let* found :=
        if JS.to_boolean text then
          if JS.is_string text then Ok (Some text)
          else
            let* class_type := JS.get_prop h text "class_type" in
            if negb (JS.is_undefined class_type) then
              let* r := getPromptText fuel' h text in
              Ok (Some r)
            else Ok None
        else Ok None in
      match found with
      | Some r => Ok r
      | None =>
          let* text_g := JS.get_prop_opt h inputs "text_g" in
          if JS.to_boolean text_g then
            let* text_l := JS.get_prop_opt h inputs "text_l" in
            if negb (JS.to_boolean text_l) || JS.strict_eq text_l text_g
            then Ok text_g
            else
              let* g := JS.to_string h text_g in
              let* l := JS.to_string h text_l in
              Ok (VStr (g +:+ ", " +:+ l))
          else Ok (VStr "")
      end
  end.

(** ** [parse]: the sweep over the nodes of the graph *)

(** The local variables of [parse] that the loop over
    [Object.values(prompt)] updates. *)
Module Acc.
Record t : Type := mk {
  prompt : Heap;
  samplerNodes : list Value;
  models : list string;
  upscalers : list Value;
  vaes : list Value;
  controlNets : list Value;
  additionalResources : list SDResource.t;
  hashes : gmap string Value
}.

Definition init (h : Heap) : t := mk h [] [] [] [] [] [] ∅.

Definition set_prompt (h : Heap) (a : t) : t :=
  mk h (samplerNodes a) (models a) (upscalers a) (vaes a) (controlNets a)
    (additionalResources a) (hashes a).
Definition push_sampler (x : Value) (a : t) : t :=
  mk (prompt a) (samplerNodes a ++ [x]) (models a) (upscalers a) (vaes a)
    (controlNets a) (additionalResources a) (hashes a).
Definition push_model (x : string) (a : t) : t :=
  mk (prompt a) (samplerNodes a) (models a ++ [x]) (upscalers a) (vaes a)
    (controlNets a) (additionalResources a) (hashes a).
Definition push_upscaler (x : Value) (a : t) : t :=
  mk (prompt a) (samplerNodes a) (models a) (upscalers a ++ [x]) (vaes a)
    (controlNets a) (additionalResources a) (hashes a).
Definition push_vae (x : Value) (a : t) : t :=
  mk (prompt a) (samplerNodes a) (models a) (upscalers a) (vaes a ++ [x])
    (controlNets a) (additionalResources a) (hashes a).
Definition push_controlNet (x : Value) (a : t) : t :=
  mk (prompt a) (samplerNodes a) (models a) (upscalers a) (vaes a)
    (controlNets a ++ [x]) (additionalResources a) (hashes a).
Definition push_resource (x : SDResource.t) (a : t) : t :=
  mk (prompt a) (samplerNodes a) (models a) (upscalers a) (vaes a)
    (controlNets a) (additionalResources a ++ [x]) (hashes a).
Definition set_hash (k : string) (v : Value) (a : t) : t :=
  mk (prompt a) (samplerNodes a) (models a) (upscalers a) (vaes a)
    (controlNets a) (additionalResources a) (<[k:=v]> (hashes a)).
End Acc.

(** The value of [prompt[id]] for a node [v] stored under [id]: objects
    are handed out by reference. *)
Definition alias (id : string) (v : Value) : Value :=
  match v with
  | VObj _ | VArr _ => VRef id
  | _ => v
  end.

(** [prompt[key]].  A key that is not a node id but names a member of
    [Object.prototype] is [Unmodelled]. *)
Definition prompt_get (h : Heap) (key : string) : Res Value :=
  match Obj.get key h with
  | Some v => Ok (alias key v)
  | None =>
      if bool_decide (key ∈ JS.object_prototype_keys) then Err Unmodelled
      else Ok VUndef
  end.

(** [if (Array.isArray(value)) node.inputs[key] = prompt[value[0]]]: the
    new value of the input. *)
Definition resolve_edge (h : Heap) (value : Value) : Res Value :=
  match value with
  | VArr xs =>
      let* key := JS.to_string h (hd VUndef xs) in
      prompt_get h key
  | _ => Ok value
  end.

(** The loop over [Object.entries(node.inputs)]: the inputs of the node
    after it. *)
Definition resolve_inputs (h : Heap) (inputs : Value) : Res Value :=
  match inputs with
  | VUndef | VNull =>
      Err (TypeError "Cannot convert undefined or null to object")
  | VObj ps =>
      let* ps' :=
        JS.sequence (List.map (fun kv =>
          let* v := resolve_edge h (snd kv) in Ok (fst kv, v)) ps) in
      Ok (VObj ps')
  | VArr xs =>
      let* xs' := JS.sequence (List.map (resolve_edge h) xs) in
      Ok (VArr xs')
  | _ => Ok inputs
  end.

(** [modelFileName(v as string)] *)
Definition modelFileName_of (v : Value) : Res string :=
  match v with
  | VStr s => Ok (modelFileName s)
  | VUndef | VNull =>
      Err (TypeError "Cannot read properties of undefined (reading 'replace')")
  | _ => Err (TypeError "name.replace is not a function")
  end.

(** [(v as string) || undefined] *)
Definition or_undefined (v : Value) : Value :=
  if JS.to_boolean v then v else VUndef.

(** The body of [if (node.class_type == 'KSamplerAdvanced')]. *)
Definition visit_KSamplerAdvanced (h : Heap) (inputs : Value) (a : Acc.t)
    : Res Acc.t :=
  let simplifiedNode := JS.own_entries inputs in
  let* steps :=
    getNumberValue h (default VUndef (Obj.get "steps" simplifiedNode)) in
  let simplifiedNode := Obj.set "steps" steps simplifiedNode in
  let* cfg :=
    getNumberValue h (default VUndef (Obj.get "cfg" simplifiedNode)) in
  let simplifiedNode := Obj.set "cfg" cfg simplifiedNode in
  Ok (Acc.push_sampler (VObj simplifiedNode) a).

(** The body of [if (node.class_type == 'LoraLoader')]; [None] is
    [continue]. *)
Definition visit_LoraLoader (h : Heap) (node inputs : Value) (a : Acc.t)
    : Res (option Acc.t) :=
  let* strength := JS.get_prop h inputs "strength_model" in
  let* below := JS.lt_const h strength (1 # 1000) in
  let* above := JS.gt_const h strength (- (1 # 1000)) in
  if below && above then Ok None
  else
    let* lora_hash := JS.get_prop h node "lora_hash" in
    let hash_value := or_undefined lora_hash in
    let* lora_name_input := JS.get_prop h inputs "lora_name" in
    let* lora_name := modelFileName_of lora_name_input in
    let a :=
      if JS.to_boolean hash_value
      then Acc.set_hash ("lora:" +:+ lora_name) hash_value a
      else a in
    let* strength_clip := JS.get_prop h inputs "strength_clip" in
    Ok (Some (Acc.push_resource
                (SDResource.mk lora_name "lora" strength strength_clip hash_value)
                a)).

(** The body of [if (node.class_type == 'CheckpointLoaderSimple')]. *)
Definition visit_CheckpointLoaderSimple (h : Heap) (node inputs : Value)
    (a : Acc.t) : Res Acc.t :=
  let* ckpt_name := JS.get_prop h inputs "ckpt_name" in
  let* model_name := modelFileName_of ckpt_name in
  let a := Acc.push_model model_name a in
  let* ckpt_hash := JS.get_prop h node "ckpt_hash" in
  let hash_value := or_undefined ckpt_hash in
  let a :=
    if negb (JS.to_boolean (default VUndef (Acc.hashes a !! "model")))
       && JS.to_boolean hash_value
    then Acc.set_hash "model" hash_value a
    else a in
  Ok (Acc.push_resource
        (SDResource.mk model_name "model" VUndef VUndef hash_value) a).

(** The classification of a node, once its inputs are resolved: the rest
    of the body of the loop. *)
Definition visit_node (h : Heap) (node inputs : Value) (a : Acc.t) : Res Acc.t :=
  let* class_type := JS.get_prop h node "class_type" in
  let* is_advanced := JS.loose_eq_string h class_type "KSamplerAdvanced" in
  let* a := if is_advanced then visit_KSamplerAdvanced h inputs a else Ok a in
  let* is_sampler := JS.loose_eq_string h class_type "KSampler" in
  let a := if is_sampler then Acc.push_sampler inputs a else a in
  let* is_lora := JS.loose_eq_string h class_type "LoraLoader" in
  let* lora := if is_lora then visit_LoraLoader h node inputs a else Ok (Some a) in
  match lora with
  | None => Ok a
  | Some a =>
      let* is_checkpoint :=
        JS.loose_eq_string h class_type "CheckpointLoaderSimple" in
      let* a :=
        if is_checkpoint then visit_CheckpointLoaderSimple h node inputs a
        else Ok a in
      let* is_upscaler := JS.loose_eq_string h class_type "UpscaleModelLoader" in
      let* a :=
        if is_upscaler then
          let* model_name := JS.get_prop h inputs "model_name" in
          Ok (Acc.push_upscaler model_name a)
        else Ok a in
      let* is_vae := JS.loose_eq_string h class_type "VAELoader" in
      let* a :=
        if is_vae then
          let* vae_name := JS.get_prop h inputs "vae_name" in
          Ok (Acc.push_vae vae_name a)
        else Ok a in
      let* is_controlnet := JS.loose_eq_string h class_type "ControlNetLoader" in
      if is_controlnet then
        let* control_net_name := JS.get_prop h inputs "control_net_name" in
        Ok (Acc.push_controlNet control_net_name a)
      else Ok a
  end.

(** One iteration of [for (const node of Object.values(prompt))], for the
    node stored under [id].  The values of [prompt] are the documents
    [JSON.parse] built: a node that is not an object has no [inputs], and
    [Object.entries] throws. *)
Definition visit (a : Acc.t) (id : string) : Res Acc.t :=
  let h := Acc.prompt a in
  match Obj.get id h with
  | Some (VObj ps) =>
      let* inputs := resolve_inputs h (default VUndef (Obj.get "inputs" ps)) in
      let node := VObj (Obj.replace "inputs" inputs ps) in
      let h := Obj.replace id node h in
      visit_node h node inputs (Acc.set_prompt h a)
  | Some VNull =>
      Err (TypeError "Cannot read properties of null (reading 'inputs')")
  | _ => Err (TypeError "Cannot convert undefined or null to object")
  end.

Fixpoint sweep (a : Acc.t) (ids : list string) : Res Acc.t :=
  match ids with
  | [] => Ok a
  | id :: rest =>
      let* a' := visit a id in
      sweep a' rest
  end.

(** ** [parse]: the canonical sampler *)

(** [x.latent_image.class_type == 'EmptyLatentImage'] *)
Definition has_empty_latent (h : Heap) (x : Value) : Res bool :=
  let* latent_image := JS.get_prop h x "latent_image" in
  let* class_type := JS.get_prop h latent_image "class_type" in
  JS.loose_eq_string h class_type "EmptyLatentImage".

(** [samplerNodes.find((x) => ...)] *)
Fixpoint find_sampler (h : Heap) (samplerNodes : list Value) : Res (option Value) :=
  match samplerNodes with
  | [] => Ok None
  | x :: rest =>
      let* found := has_empty_latent h x in
      if found then Ok (Some x) else find_sampler h rest
  end.

(** [samplerNodes.find(...) ?? samplerNodes[0]] *)
Definition initialSamplerNode (h : Heap) (samplerNodes : list Value) : Res Value :=
  let* found := find_sampler h samplerNodes in
  Ok (match found with
      | Some x => x
      | None => hd VUndef samplerNodes
      end).

(** ** [parse]: the extras of the workflow *)

Definition AIR_KEYS : list string := ["ckpt_airs"; "lora_airs"; "embedding_airs"].

(** White space that [parseInt] skips, in UTF-8. *)
Definition white_space : list string :=
  let b := String.string_of_list_ascii in
  let c (n : N) := ascii_of_N n in
  [ b [c 9]; b [c 10]; b [c 11]; b [c 12]; b [c 13]; b [c 32];
    b [c 194; c 160]; b [c 225; c 154; c 128];
    b [c 226; c 128; c 128]; b [c 226; c 128; c 129]; b [c 226; c 128; c 130];
    b [c 226; c 128; c 131]; b [c 226; c 128; c 132]; b [c 226; c 128; c 133];
    b [c 226; c 128; c 134]; b [c 226; c 128; c 135]; b [c 226; c 128; c 136];
    b [c 226; c 128; c 137]; b [c 226; c 128; c 138]; b [c 226; c 128; c 168];
    b [c 226; c 128; c 169]; b [c 226; c 128; c 175]; b [c 226; c 129; c 159];
    b [c 227; c 128; c 128]; b [c 239; c 187; c 191] ]%N.

Fixpoint first_prefix (ps : list string) (s : string) : option string :=
  match ps with
  | [] => None
  | p :: rest =>
      match Str.strip_prefix p s with
      | Some r => Some r
      | None => first_prefix rest s
      end
  end.

Fixpoint trim_start (fuel : nat) (s : string) : string :=
  match fuel with
  | O => s
  | S fuel' =>
      match first_prefix white_space s with
      | Some r => trim_start fuel' r
      | None => s
      end
  end.

(** The value of the longest run of digits of the radix at the start of
    [s]; [None] when there is no digit. *)
Fixpoint digits_value (radix : Z) (acc : option Z) (s : string) : option Z :=
  match s with
  | "" => acc
  | String c r =>
      match JSON.hex_value c with
      | Some d =>
          if (Z.of_N d <? radix)%Z
          then digits_value radix (Some (default 0 acc * radix + Z.of_N d)) r
          else acc
      | None => acc
      end
  end.

(** [parseInt(s)], without a radix.  The code has the double that is
    nearest to the integer the digits denote: the result for digits that
    denote more than [2^53] is [Unmodelled]. *)
Definition parseInt (s : string) : Res JsInt :=
  let s := trim_start (String.length s) s in
  let '(neg, s) :=
    match s with
    | String "-" r => (true, r)
    | String "+" r => (false, r)
    | _ => (false, s)
    end in
  let '(radix, s) :=
    match s with
    | String "0" (String x r) =>
        if Ascii.eqb x "x" || Ascii.eqb x "X" then (16, r) else (10, s)
    | _ => (10, s)
    end in
  match digits_value radix None s with
  | Some n =>
      if n <=? 2 ^ 53 then Ok (Some (if neg then - n else n))
      else Err Unmodelled
  | None => Ok None
  end.

(** One iteration of [for (const air of airs)]. *)
Definition scan_air (ids : list JsInt * list JsInt) (air : Json)
    : Res (list JsInt * list JsInt) :=
  match air with
  | JStr s =>
      let parts := Str.split_on "@" s in
      let modelId := hd "" parts in
      let versionId := hd "" (tl parts) in
      if negb (String.eqb versionId "")
      then let* id := parseInt versionId in Ok (fst ids ++ [id], snd ids)
      else if negb (String.eqb modelId "")
      then let* id := parseInt modelId in Ok (fst ids, snd ids ++ [id])
      else Ok ids
  | JNull =>
      Err (TypeError "Cannot read properties of null (reading 'split')")
  | _ => Err (TypeError "air.split is not a function")
  end.

Fixpoint scan_airs (ids : list JsInt * list JsInt) (airs : list Json)
    : Res (list JsInt * list JsInt) :=
  match airs with
  | [] => Ok ids
  | air :: rest =>
      let* ids' := scan_air ids air in
      scan_airs ids' rest
  end.

(** [o.name] on a JSON document [o] that is not [null]. *)
Definition json_prop (o : Json) (name : string) : option Json :=
  match o with
  | JObj ps => Obj.get name ps
  | _ => None
  end.

Definition json_truthy (j : Json) : bool := JS.to_boolean (inject j).

(** One iteration of [for (const key of AIR_KEYS)]. *)
Definition scan_key (extra : Json) (ids : list JsInt * list JsInt) (key : string)
    : Res (list JsInt * list JsInt) :=
  match json_prop extra key with
  | None => Ok ids
  | Some airs =>
      if negb (json_truthy airs) then Ok ids
      else
        match airs with
        | JArr xs => scan_airs ids xs
        | JStr s => scan_airs ids (List.map JStr (JS.code_points s))
        | _ => Err (TypeError "airs is not iterable")
        end
  end.

Fixpoint scan_keys (extra : Json) (ids : list JsInt * list JsInt)
    (keys : list string) : Res (list JsInt * list JsInt) :=
  match keys with
  | [] => Ok ids
  | key :: rest =>
      let* ids' := scan_key extra ids key in
      scan_keys extra ids' rest
  end.

(** [if (workflow?.extra) { ... }]: the lists [versionIds] and [modelIds]. *)
Definition scan_extras (workflow : Json) : Res (list JsInt * list JsInt) :=
  match json_prop workflow "extra" with
  | Some extra =>
      if json_truthy extra then scan_keys extra ([], []) AIR_KEYS
      else Ok ([], [])
  | None => Ok ([], [])
  end.

(** ** [parse], [encode] *)

(** [JSON.stringify(v)] for a value [v] of the graph [h]. *)
Definition stringify_fuel (h : Heap) (v : Value) : nat :=
  (2 * heap_size h + value_size v + 2)%nat.

Definition JSON_stringify (h : Heap) (v : Value) : Res (option string) :=
  let* j := to_json h (stringify_fuel h v) [] v in
  Ok (JSON.stringify <$> j).


(** Modelled from the spec: [findKeyForValue] of [~/utils/map-helpers],
    which is not part of the sources at hand: a reverse lookup, the first
    key of the table, in iteration order, whose value equals the probe. *)
Definition findKeyForValue (m : list (string * string)) (value : Value)
    : option string :=
  match value with
  | VStr s => fst <$> List.find (fun kv => String.eqb (snd kv) s) m
  | _ => None
  end.

(** The nodes of the decoded prompt, as [Object.values(prompt)] finds
    them.  A prompt that is a string of one character or more has
    one-character strings as nodes, on which the first iteration throws;
    a prompt that is a non-empty array is [Unmodelled]. *)
Definition graph_of (doc : Json) : Res Heap :=
  match doc with
  | JObj ps => Ok (List.map (fun kv => (fst kv, inject (snd kv))) ps)
  | JNull => Err (TypeError "Cannot convert undefined or null to object")
  | JBool _ | JNum _ => Ok []
  | JStr s =>
      if String.eqb s "" then Ok []
      else Err (TypeError "Cannot convert undefined or null to object")
  | JArr [] => Ok []
  | JArr _ => Err Unmodelled
  end.

(** The variable [prompt] after the sweep. *)
Definition prompt_value (doc : Json) (h : Heap) : Value :=
  match doc with
  | JObj _ => VObj (List.map (fun kv => (fst kv, alias (fst kv) (snd kv))) h)
  | _ => inject doc
  end.

Definition js_truthy_string (o : option string) : bool :=
  match o with
  | Some s => negb (String.eqb s "")
  | None => false
  end.

Section Processor.

(** [samplerMap] of [~/server/common/constants]: the entries of the
    translation table, in iteration order. *)
Variable samplerMap : list (string * string).

Definition a1111Compatability (h : Heap) (metadata : ImageMetaProps)
    : Res ImageMetaProps :=
  let samplerName := Meta.sampler metadata in
  let* is_karras := JS.loose_eq_string h (Meta.scheduler metadata) "karras" in
  let* a1111sampler :=
    if is_karras then
      let* name := JS.to_string h samplerName in
      Ok (findKeyForValue samplerMap (VStr (name +:+ "_karras")))
    else Ok None in
  let a1111sampler :=
    if negb (js_truthy_string a1111sampler)
    then findKeyForValue samplerMap samplerName
    else a1111sampler in
  let sampler :=
    match a1111sampler with
    | Some s => if negb (String.eqb s "") then VStr s else samplerName
    | None => samplerName
    end in
  let models := Meta.models metadata in
  let Model :=
    match models with
    | m :: _ => VStr (strip_ext m)
    | [] => Meta.Model metadata
    end in
  Ok (Meta.mk (Meta.prompt metadata) (Meta.negativePrompt metadata)
        (Meta.cfgScale metadata) (Meta.steps metadata) (Meta.seed metadata)
        sampler (Meta.scheduler metadata) (Meta.denoise metadata)
        (Meta.width metadata) (Meta.height metadata) (Meta.hashes metadata)
        models (Meta.upscalers metadata) (Meta.vaes metadata)
        (Meta.additionalResources metadata) (Meta.controlNets metadata)
        (Meta.versionIds metadata) (Meta.modelIds metadata)
        (Meta.comfy metadata) Model (Meta.Model_hash metadata)).

(** The end of [parse]: from [const metadata = ...] on. *)
Definition build (doc : Json) (a : Acc.t) (initialSamplerNode : Value)
    (workflow : Json) (ids : list JsInt * list JsInt) : Res ImageMetaProps :=
  let h := Acc.prompt a in
  let depth := S (heap_size h) in
  let* positive := JS.get_prop h initialSamplerNode "positive" in
  let* prompt := getPromptText depth h positive in
  let* negative := JS.get_prop h initialSamplerNode "negative" in
  let* negativePrompt := getPromptText depth h negative in
  let* cfg := JS.get_prop h initialSamplerNode "cfg" in
  let* steps := JS.get_prop h initialSamplerNode "steps" in
  let* seed := JS.get_prop h initialSamplerNode "seed" in
  let* sampler_name := JS.get_prop h initialSamplerNode "sampler_name" in
  let* scheduler := JS.get_prop h initialSamplerNode "scheduler" in
  let* denoise := JS.get_prop h initialSamplerNode "denoise" in
  let* latent_image := JS.get_prop h initialSamplerNode "latent_image" in
  let* latent_inputs := JS.get_prop h latent_image "inputs" in
  let* width := JS.get_prop h latent_inputs "width" in
  let* latent_image' := JS.get_prop h initialSamplerNode "latent_image" in
  let* latent_inputs' := JS.get_prop h latent_image' "inputs" in
  let* height := JS.get_prop h latent_inputs' "height" in
  let* comfy :=
    JSON_stringify h
      (VObj [("prompt", prompt_value doc h); ("workflow", inject workflow)]) in
  let comfy :=
    match comfy with
    | Some s => ComfyText s
    | None => ComfyAbsent
    end in
  let model_resource :=
    List.find (fun r => String.eqb (SDResource.type r) "model")
      (Acc.additionalResources a) in
  let Model :=
    match model_resource with
    | Some r => VStr (SDResource.name r)
    | None => VUndef
    end in
  let Model_hash :=
    match model_resource with
    | Some r => SDResource.hash r
    | None => VUndef
    end in
  let* positive_class := JS.get_prop h positive "class_type" in
  let* prompt :=
    if JS.strict_eq positive_class (VStr "ControlNetApply") then
      let* positive_inputs := JS.get_prop h positive "inputs" in
      let* conditioningNode := JS.get_prop h positive_inputs "conditioning" in
      let* conditioning_inputs := JS.get_prop h conditioningNode "inputs" in
      JS.get_prop h conditioning_inputs "text"
    else Ok prompt in
  a1111Compatability h
    (Meta.mk prompt negativePrompt cfg steps seed sampler_name scheduler
       denoise width height (Acc.hashes a) (Acc.models a) (Acc.upscalers a)
       (Acc.vaes a) (Acc.additionalResources a) (Acc.controlNets a)
       (fst ids) (snd ids) comfy Model Model_hash).

(** [cleanBadJson(exif.prompt as string)] *)
Definition cleanBadJson_of (v : Value) : Res string :=
  match v with
  | VStr s => Ok (cleanBadJson s)
  | VUndef | VNull =>
      Err (TypeError "Cannot read properties of undefined (reading 'replace')")
  | _ => Err (TypeError "str.replace is not a function")
  end.

(** The state of [parse] when the loop over the nodes has ended. *)
Definition classify (exif : Exif.t) : Res (Json * Acc.t) :=
  let* text := cleanBadJson_of (Exif.prompt exif) in
  let* doc := JSON.parse text in
  let* h := graph_of doc in
  let* a := sweep (Acc.init h) (List.map fst h) in
  Ok (doc, a).

(** [JSON.parse(exif.workflow as string)] *)
Definition decode_workflow (exif : Exif.t) : Res Json :=
  let* text := JS.to_string [] (Exif.workflow exif) in
  JSON.parse text.

Definition parse (exif : Exif.t) : Res ImageMetaProps :=
  let* '(doc, a) := classify exif in
  let* sampler := initialSamplerNode (Acc.prompt a) (Acc.samplerNodes a) in
  let* workflow := decode_workflow exif in
  let* ids := scan_extras workflow in
  build doc a sampler workflow ids.


End Processor.

(** * Sample inputs *)

Module Sample.

(** A text written with an apostrophe for each double quote. *)
Fixpoint text (s : string) : string :=
  match s with
  | "" => ""
  | String c r => String (if Ascii.eqb c "'" then dquote else c) (text r)
  end.

(** An [exif] with two non-empty fields. *)
Definition exif_braces : Exif.t := Exif.mk (VStr "{}") (VStr "{}").

(** A conditioning node with an empty [text] and a [text_g]. *)
Definition node_empty_text : Value :=
  VObj [("inputs", VObj [("text", VStr ""); ("text_g", VStr "a cat")]);
        ("class_type", VStr "CLIPTextEncode")].

(** A conditioning node of the dual-encoder kind. *)
Definition node_dual (text_l : string) : Value :=
  VObj [("inputs", VObj [("text_g", VStr "a cat"); ("text_l", VStr text_l)]);
        ("class_type", VStr "CLIPTextEncodeSDXL")].

(** A graph with two latent-image nodes, and two samplers of which only
    the second starts from an empty latent image. *)
Definition latent_heap : Heap :=
  [("5", VObj [("inputs", VObj [("width", VNum (mkNum false [d5; d1; d2] 3));
                                 ("height", VNum (mkNum false [d7; d6; d8] 3))]);
               ("class_type", VStr "EmptyLatentImage")]);
   ("6", VObj [("inputs", VObj [("pixels", VRef "9")]);
               ("class_type", VStr "VAEEncode")])].

Definition sampler_encoded : Value := VObj [("latent_image", VRef "6")].
Definition sampler_empty : Value := VObj [("latent_image", VRef "5")].

(** The result of a computation that ends well. *)
Definition result {A : Type} (d : A) (r : Res A) : A :=
  match r with
  | Ok a => a
  | Err _ => d
  end.

(** A graph with two checkpoint loaders that both carry a hash, and the
    states of the sweep after the first and after the second. *)
Definition two_loaders : Heap :=
  [("1", VObj [("inputs", VObj [("ckpt_name", VStr "first.safetensors")]);
               ("class_type", VStr "CheckpointLoaderSimple");
               ("ckpt_hash", VStr "aaa")]);
   ("2", VObj [("inputs", VObj [("ckpt_name", VStr "second.safetensors")]);
               ("class_type", VStr "CheckpointLoaderSimple");
               ("ckpt_hash", VStr "bbb")])].

Definition after_first : Acc.t :=
  result (Acc.init []) (visit (Acc.init two_loaders) "1").
Definition after_second : Acc.t :=
  result (Acc.init []) (sweep after_first ["2"]).

(** A graph with two LoRA loaders, of strength 0.5 and 0.0005, and the
    states of the sweep after the first and after the second. *)
Definition lora_graph : Heap :=
  [("10", VObj [("inputs", VObj [("lora_name", VStr "style/ink.safetensors");
                                  ("strength_model", VNum (mkNum false [d5] 0));
                                  ("strength_clip", VNum (mkNum false [d1] 1))]);
                ("class_type", VStr "LoraLoader");
                ("lora_hash", VStr "ff")]);
   ("11", VObj [("inputs", VObj [("lora_name", VStr "faint.safetensors");
                                  ("strength_model", VNum (mkNum false [d5] (-3)));
                                  ("strength_clip", VNum (mkNum false [d1] 1))]);
                ("class_type", VStr "LoraLoader");
                ("lora_hash", VStr "ee")])].

Definition after_strong : Acc.t :=
  result (Acc.init []) (visit (Acc.init lora_graph) "10").
Definition after_faint : Acc.t :=
  result (Acc.init []) (visit after_strong "11").

(** An [exif] with a sampler, its latent image and a prompt. *)
Definition exif_small : Exif.t :=
  Exif.mk
    (VStr (text
      "{'3': {'inputs': {'seed': 42, 'steps': 20, 'cfg': 7,
                         'sampler_name': 'euler', 'scheduler': 'normal',
                         'denoise': 1, 'positive': ['6', 0],
                         'negative': ['7', 0], 'latent_image': ['5', 0]},
              'class_type': 'KSampler'},
        '5': {'inputs': {'width': 512, 'height': 768, 'batch_size': 1},
              'class_type': 'EmptyLatentImage'},
        '6': {'inputs': {'text': 'a cat'}, 'class_type': 'CLIPTextEncode'},
        '7': {'inputs': {'text': ''}, 'class_type': 'CLIPTextEncode'}}"))
    (VStr (text "{'extra': {'ckpt_airs': ['123@456']}, 'nodes': [1, 2]}")).

(** An [exif] with the same prompt and the workflow document [0]. *)
Definition exif_zero : Exif.t :=
  Exif.mk (Exif.prompt exif_small) (VStr "0").

Definition no_record : ImageMetaProps :=
  Meta.mk VUndef VUndef VUndef VUndef VUndef VUndef VUndef VUndef VUndef
    VUndef ∅ [] [] [] [] [] [] [] ComfyAbsent VUndef VUndef.

(** An [exif] whose prompt has no node at all. *)
Definition exif_no_node : Exif.t := Exif.mk (VStr "{}") (VStr "{}").

(** An [exif] whose prompt has no node at all and whose workflow is not a
    JSON text. *)
Definition exif_no_workflow : Exif.t := Exif.mk (VStr "{}") (VStr "workflow").

(** A sampler-name table. *)
Definition samplerMap : list (string * string) :=
  [("Euler a", "euler_ancestral"); ("Euler", "euler");
   ("DPM++ 2M Karras", "dpmpp_2m_karras")].

Definition record_small : ImageMetaProps :=
  result no_record (parse samplerMap exif_small).
Definition record_zero : ImageMetaProps :=
  result no_record (parse samplerMap exif_zero).



(** An [exif] with a VAE loader, a checkpoint loader that carries a hash,
    a sampler and a second checkpoint loader that carries another hash. *)
Definition exif_two_loaders : Exif.t :=
  Exif.mk
    (VStr (text
      "{'1': {'inputs': {'vae_name': 'ft-mse.safetensors'},
              'class_type': 'VAELoader'},
        '2': {'inputs': {'ckpt_name': 'first.safetensors'},
              'class_type': 'CheckpointLoaderSimple', 'ckpt_hash': 'aaa'},
        '3': {'inputs': {'seed': 42, 'steps': 20, 'cfg': 7,
                         'sampler_name': 'euler', 'scheduler': 'normal',
                         'denoise': 1, 'positive': ['6', 0],
                         'negative': ['7', 0], 'latent_image': ['5', 0]},
              'class_type': 'KSampler'},
        '4': {'inputs': {'ckpt_name': 'second.safetensors'},
              'class_type': 'CheckpointLoaderSimple', 'ckpt_hash': 'bbb'},
        '5': {'inputs': {'width': 512, 'height': 768, 'batch_size': 1},
              'class_type': 'EmptyLatentImage'},
        '6': {'inputs': {'text': 'a cat'}, 'class_type': 'CLIPTextEncode'},
        '7': {'inputs': {'text': ''}, 'class_type': 'CLIPTextEncode'}}"))
    (VStr "{}").

Definition record_two_loaders : ImageMetaProps :=
  result no_record (parse samplerMap exif_two_loaders).

(** An [exif] whose latent image has its width wired to the node [12],
    a node that holds [value]. *)
Definition exif_wired (value : string) : Exif.t :=
  Exif.mk
    (VStr (text
      ("{'3': {'inputs': {'seed': 42, 'steps': 20, 'cfg': 7,
                         'sampler_name': 'euler', 'scheduler': 'normal',
                         'denoise': 1, 'positive': ['6', 0],
                         'negative': ['7', 0], 'latent_image': ['5', 0]},
              'class_type': 'KSampler'},
        '5': {'inputs': {'width': ['12', 0], 'height': 768, 'batch_size': 1},
              'class_type': 'EmptyLatentImage'},
        '6': {'inputs': {'text': 'a cat'}, 'class_type': 'CLIPTextEncode'},
        '7': {'inputs': {'text': ''}, 'class_type': 'CLIPTextEncode'},
        '12': {'inputs': {'Value': " +:+ value +:+ "},
               'class_type': 'PrimitiveNode'}}")))
    (VStr "{}").

Definition record_wired (value : string) : ImageMetaProps :=
  result no_record (parse samplerMap (exif_wired value)).

(** The graph of [exif_wired value] as it is written, and as it stands
    after the sweep. *)
Definition written_wired (value : string) : Heap :=
  result []
    (let* text := cleanBadJson_of (Exif.prompt (exif_wired value)) in
     let* doc := JSON.parse text in
     graph_of doc).

Definition graph_wired (value : string) : Heap :=
  Acc.prompt (snd (result (JNull, Acc.init []) (classify (exif_wired value)))).

End Sample.

(** * The vocabulary of the statements

    The predicates and the auxiliary functions in which the properties of
    the processor are stated and proved. *)

(** ** Texts *)

(** The expression [m] matches at no position of [s]. *)
Fixpoint no_match (m : string -> option nat) (s : string) : Prop :=
  match s with
  | "" => True
  | String c r => m s = None /\ no_match m r
  end.

(** What the sanitization is to do, read from left to right: each token
    [[NaN]] or [[Infinity]] becomes [[]], every other character is kept. *)
Inductive Sanitized : string -> string -> Prop :=
| San_end : Sanitized "" ""
| San_NaN (r r' : string) :
    Sanitized r r' -> Sanitized ("[NaN]" +:+ r) ("[]" +:+ r')
| San_Infinity (r r' : string) :
    Sanitized r r' -> Sanitized ("[Infinity]" +:+ r) ("[]" +:+ r')
| San_keep (c : ascii) (r r' : string) :
    Str.starts_with "[NaN]" (String c r) = false ->
    Str.starts_with "[Infinity]" (String c r) = false ->
    Sanitized r r' -> Sanitized (String c r) (String c r').

(** The two passes of [cleanBadJson]. *)
Definition pass_NaN : string -> string :=
  Str.replace_global (Str.literal "[NaN]") "[]".

Definition pass_Infinity : string -> string :=
  Str.replace_global (Str.literal "[Infinity]") "[]".

(** The path separators. *)
Definition is_backslash (c : ascii) : bool := Ascii.eqb c backslash.

Definition is_slash (c : ascii) : bool := Ascii.eqb c "/".

(** No path separator in [s]. *)
Definition plain (s : string) : bool :=
  Str.all_chars (fun c => negb (is_backslash c) && negb (is_slash c)) s.

(** [s] can be an extension: not empty, without dot or path separator. *)
Definition extension (s : string) : bool :=
  negb (String.eqb s "")
  && Str.all_chars (fun c => negb (is_backslash c) && not_slash_or_dot c) s.

(** [name.replace(sep_expr, '/')] *)
Definition normalize_separators : string -> string :=
  Str.replace_global sep_expr "/".

(** No backslash in [s]. *)
Definition no_backslash (s : string) : bool :=
  Str.all_chars (fun c => negb (is_backslash c)) s.

(** ** The fields of [exif] and the inputs of a node *)

(** A field of [exif] that holds a string of at least one character. *)
Definition non_empty (v : Value) : Prop :=
  exists s, v = VStr s /\ s <> "".

(** A field of [exif] that holds a string, or is absent. *)
Definition string_or_absent (v : Value) : Prop :=
  v = VUndef \/ exists s, v = VStr s.

(** [text] is neither a non-empty string nor a node with a type tag. *)
Definition no_text (h : Heap) (text : Value) : Prop :=
  JS.to_boolean text = false \/
  (JS.is_string text = false /\ JS.get_prop h text "class_type" = Ok VUndef).

(** ** The samplers *)

(** The test of [find] on the sampler [x] completes, and says no. *)
Definition other_latent (h : Heap) (x : Value) : Prop :=
  has_empty_latent h x = Ok false.

(** The test of [find] on the sampler [x] completes, and says yes. *)
Definition empty_latent (h : Heap) (x : Value) : Prop :=
  has_empty_latent h x = Ok true.

(** ** The hashes *)

(** The node is a checkpoint loader that carries the hash [hv]. *)
Definition checkpoint_with_hash (h : Heap) (node hv : Value) : Prop :=
  exists class_type,
    JS.get_prop h node "class_type" = Ok class_type /\
    JS.loose_eq_string h class_type "CheckpointLoaderSimple" = Ok true /\
    JS.get_prop h node "ckpt_hash" = Ok hv /\
    JS.to_boolean hv = true.

(** The entry [model] of the hashes. *)
Definition model_entry (a : Acc.t) : option Value := Acc.hashes a !! "model".

(** [y] has the graph and the entry [model] of [x]. *)
Definition same_entry (x y : Acc.t) : Prop :=
  Acc.prompt y = Acc.prompt x /\ model_entry y = model_entry x.

(** The entry [model], when it is set, holds a truthy value. *)
Definition entry_truthy (a : Acc.t) : Prop :=
  forall v, model_entry a = Some v -> JS.to_boolean v = true.

(** ** Number literals *)



(** The end of a number in a serialized document: the end of the text,
    a comma, or a closing bracket or brace. *)
Definition delimited (s : string) : Prop :=
  match s with
  | "" => True
  | String c _ => c = ","%char \/ c = "]"%char \/ c = "}"%char
  end.






(** ** Documents *)








(** ** The documents [JSON.parse] builds *)





(** Finite numbers are in canonical form and held as written, and the
    members of an object are in the order of enumeration. *)
#[local] Unset Elimination Schemes.
#[local] Set Elimination Schemes.

(** ** The numbers of the graph *)



(** ** The node types of the sweep *)

(** The type tags the loop of [parse] tests for. *)
Definition known_classes : list string :=
  [ "KSamplerAdvanced"; "KSampler"; "LoraLoader"; "CheckpointLoaderSimple";
    "UpscaleModelLoader"; "VAELoader"; "ControlNetLoader" ].

(** The three loaders of which [parse] keeps the name as it is written. *)
Inductive Loader : Type := Upscaler | Vae | ControlNet.

Definition loader_class (l : Loader) : string :=
  match l with
  | Upscaler => "UpscaleModelLoader"
  | Vae => "VAELoader"
  | ControlNet => "ControlNetLoader"
  end.

Definition loader_input (l : Loader) : string :=
  match l with
  | Upscaler => "model_name"
  | Vae => "vae_name"
  | ControlNet => "control_net_name"
  end.

Definition loader_push (l : Loader) : Value -> Acc.t -> Acc.t :=
  match l with
  | Upscaler => Acc.push_upscaler
  | Vae => Acc.push_vae
  | ControlNet => Acc.push_controlNet
  end.

(** The inputs without which the classification of a node throws. *)
Definition mandatory_inputs : list (string * string) :=
  [ ("KSamplerAdvanced", "steps"); ("KSamplerAdvanced", "cfg");
    ("CheckpointLoaderSimple", "ckpt_name") ].

(** [resource.type === 'model'] *)
Definition is_model_resource (r : SDResource.t) : bool :=
  String.eqb (SDResource.type r) "model".

(** ** Graphs to run the sweep on *)

Module Fixture.

(** A VAE loader, an upscaler, a note, a checkpoint loader in a
    directory, a sampler wired to the loader, an advanced sampler whose
    steps come from a primitive node, a checkpoint loader without name, an
    advanced sampler without steps and a LoRA loader without strength. *)
Definition loaders : Heap :=
  [("1", VObj [("inputs", VObj [("vae_name", VStr "vae/ft-mse.safetensors")]);
               ("class_type", VStr "VAELoader")]);
   ("2", VObj [("inputs", VObj [("model_name", VStr "4x-UltraSharp.pth")]);
               ("class_type", VStr "UpscaleModelLoader")]);
   ("3", VObj [("inputs", VObj [("text", VStr "draft")]);
               ("class_type", VStr "Note")]);
   ("4", VObj [("inputs", VObj [("ckpt_name", VStr "sdxl\base.v1.safetensors")]);
               ("class_type", VStr "CheckpointLoaderSimple");
               ("ckpt_hash", VStr "31e35c80fc")]);
   ("5", VObj [("inputs", VObj [("seed", VNum (mkNum false [d7] 1));
                                 ("model", VArr [VStr "4"; VNum zero])]);
               ("class_type", VStr "KSampler")]);
   ("6", VObj [("inputs", VObj [("steps", VArr [VStr "7"; VNum zero]);
                                 ("cfg", VNum (mkNum false [d8] 1))]);
               ("class_type", VStr "KSamplerAdvanced")]);
   ("7", VObj [("inputs", VObj [("Value", VNum (mkNum false [d3] 2))]);
               ("class_type", VStr "PrimitiveNode")]);
   ("8", VObj [("inputs", VObj []);
               ("class_type", VStr "CheckpointLoaderSimple")]);
   ("9", VObj [("inputs", VObj [("cfg", VNum (mkNum false [d8] 1))]);
               ("class_type", VStr "KSamplerAdvanced")]);
   ("12", VObj [("inputs", VObj [("lora_name", VStr "loras/ink.safetensors")]);
                ("class_type", VStr "LoraLoader");
                ("lora_hash", VStr "ff")])].

Definition visited (id : string) : Acc.t :=
  Sample.result (Acc.init []) (visit (Acc.init loaders) id).

(** An [exif] with a checkpoint loader, a LoRA loader, a sampler whose
    positive conditioning goes through a ControlNet, and a workflow that
    lists resources. *)
Definition exif_full : Exif.t :=
  Exif.mk
    (VStr (Sample.text
      "{'3': {'inputs': {'seed': 42, 'steps': 20, 'cfg': 7,
                         'sampler_name': 'euler', 'scheduler': 'normal',
                         'denoise': 1, 'model': ['10', 0],
                         'positive': ['8', 0], 'negative': ['7', 0],
                         'latent_image': ['5', 0]},
              'class_type': 'KSampler'},
        '4': {'inputs': {'ckpt_name': 'sdxl/base.v1.safetensors'},
              'class_type': 'CheckpointLoaderSimple',
              'ckpt_hash': '31e35c80fc'},
        '5': {'inputs': {'width': 512, 'height': 768, 'batch_size': 1},
              'class_type': 'EmptyLatentImage'},
        '6': {'inputs': {'text': 'a cat'}, 'class_type': 'CLIPTextEncode'},
        '7': {'inputs': {'text': 'blurry'}, 'class_type': 'CLIPTextEncode'},
        '8': {'inputs': {'conditioning': ['6', 0], 'strength': 1},
              'class_type': 'ControlNetApply'},
        '10': {'inputs': {'lora_name': 'ink.safetensors',
                          'strength_model': 0.5, 'strength_clip': 1,
                          'model': ['4', 0]},
               'class_type': 'LoraLoader', 'lora_hash': 'ff'}}"))
    (VStr (Sample.text
      "{'extra': {'ckpt_airs': ['101@202'], 'lora_airs': ['303']}}")).

Definition record_full : ImageMetaProps :=
  Sample.result Sample.no_record (parse Sample.samplerMap exif_full).

End Fixture.

(** ** The lists and the hashes of a sweep *)

(** The models are the names of the resource references of type [model],
    in their order, and every resource reference is of type [model] or
    [lora]. *)
Definition resources_sound (models : list string)
    (resources : list SDResource.t) : Prop :=
  models = List.map SDResource.name (List.filter is_model_resource resources) /\
  Forall (fun r => SDResource.type r = "model" \/ SDResource.type r = "lora")
    resources.

(** The hashes hold truthy values, under the key [model] or under a key
    that begins with [lora:]. *)
Definition hashes_sound (hashes : gmap string Value) : Prop :=
  forall k v,
    hashes !! k = Some v ->
    (k = "model" \/ Str.starts_with "lora:" k = true) /\
    JS.to_boolean v = true.

Definition acc_sound (a : Acc.t) : Prop :=
  resources_sound (Acc.models a) (Acc.additionalResources a) /\
  hashes_sound (Acc.hashes a).

(** ** Identifiers *)

(** The decimal text of a natural number. *)
Definition decimal (n : N) : string := Dec.chars (Dec.of_N n).

(** ** The order of the lists *)

(** Each list of [a'] begins with the list of [a]. *)
Definition acc_grows (a a' : Acc.t) : Prop :=
  Acc.samplerNodes a `prefix_of` Acc.samplerNodes a' /\
  Acc.models a `prefix_of` Acc.models a' /\
  Acc.upscalers a `prefix_of` Acc.upscalers a' /\
  Acc.vaes a `prefix_of` Acc.vaes a' /\
  Acc.controlNets a `prefix_of` Acc.controlNets a' /\
  Acc.additionalResources a `prefix_of` Acc.additionalResources a'.

(** ** The nodes of the graph during the sweep *)

(** The graph [h'] has the nodes of [h]: a node of [h] that is an object
    is an object of [h'] with the same entries, [inputs] apart, and any
    other node is as it is. *)
Definition same_nodes (h h' : Heap) : Prop :=
  forall id,
    match Obj.get id h with
    | Some (VObj ps) =>
        exists ps', Obj.get id h' = Some (VObj ps') /\
                    forall k, k <> "inputs" -> Obj.get k ps' = Obj.get k ps
    | o => Obj.get id h' = o
    end.

(** The value [v'] that the record has for an input of a node of the
    graph [h], given what is written for that input: a value that is not
    an array is taken as written, and an edge to a node of the graph that
    is an object is that node. *)
Definition input_source (h : Heap) (written : option Value) (v' : Value) : Prop :=
  (forall v, written = Some v -> (forall xs, v <> VArr xs) -> v' = v) /\
  (forall id rest node,
     written = Some (VArr (VStr id :: rest)) ->
     Obj.get id h = Some (VObj node) -> v' = VRef id).

(** The node [lid] of the graph [h] is an object whose inputs have the
    value [v] under the name [k]. *)
Definition has_input (h : Heap) (lid k : string) (v : Value) : Prop :=
  exists node ins,
    Obj.get lid h = Some (VObj node) /\
    Obj.get "inputs" node = Some (VObj ins) /\
    Obj.get k ins = Some v.

(** * Properties *)

(** ** Strings and the replacement engine *)

Module StrFacts.
Import Str.

Lemma append_assoc (a b c : string) : (a +:+ b) +:+ c = a +:+ (b +:+ c).
Proof. induction a as [|x a IH]; simpl; [reflexivity | now rewrite IH]. Qed.


Lemma length_append (a b : string) :
  String.length (a +:+ b) = (String.length a + String.length b)%nat.
Proof. induction a as [|x a IH]; simpl; [reflexivity | now rewrite IH]. Qed.

Lemma starts_with_spec (p s : string) :
  starts_with p s = true <-> exists r, s = p +:+ r.
Proof.
  revert s; induction p as [|a p IH]; intros s; simpl.
  - split; [intros _; now exists s | reflexivity].
  - destruct s as [|b s].
    + split; [discriminate | intros [r Hr]; discriminate].
    + destruct (Ascii.eqb_spec a b) as [->|Hne].
      * rewrite IH. split; intros [r Hr]; exists r; [now rewrite Hr | now inversion Hr].
      * split; [discriminate | intros [r Hr]; simpl in Hr; congruence].
Qed.

Lemma occurs_cons (p : string) (c : ascii) (s : string) :
  occurs p s -> occurs p (String c s).
Proof. intros (a & b & ->). now exists (String c a), b. Qed.

Lemma occurs_prefix (p s : string) : starts_with p s = true -> occurs p s.
Proof. intros H. apply starts_with_spec in H as [r ->]. now exists "", r. Qed.

Lemma literal_no_match (p s : string) : ~ occurs p s -> no_match (literal p) s.
Proof.
  induction s as [|c r IH]; intros Hno; simpl; [exact I|].
  split.
  - unfold literal. destruct (starts_with p (String c r)) eqn:E; [|reflexivity].
    exfalso. apply Hno. now apply occurs_prefix.
  - apply IH. intros Hocc. apply Hno. now apply occurs_cons.
Qed.

Lemma replace_global_no_match (m : string -> option nat) (rep s : string) :
  no_match m s -> replace_global m rep s = s.
Proof.
  unfold replace_global.
  induction s as [|c r IH]; intros Hno; [reflexivity|].
  destruct Hno as [Hm Hr]. cbn [replace_from]. rewrite Hm.
  now rewrite IH.
Qed.

Lemma replace_from_skip_all (m : string -> option nat) (rep : string) (k : nat)
    (s : string) :
  (String.length s <= k)%nat -> replace_from m rep k s = "".
Proof.
  revert k; induction s as [|c r IH]; intros k Hk; [reflexivity|].
  simpl in Hk. destruct k as [|k]; [lia|]. simpl. apply IH. lia.
Qed.

End StrFacts.

(** ** [cleanBadJson] *)

Module Sanitize.
Import Str StrFacts.

Lemma pass_NaN_token (r : string) : pass_NaN ("[NaN]" +:+ r) = "[]" +:+ pass_NaN r.
Proof. reflexivity. Qed.

Lemma pass_Infinity_token (r : string) :
  pass_Infinity ("[Infinity]" +:+ r) = "[]" +:+ pass_Infinity r.
Proof. reflexivity. Qed.

Lemma pass_NaN_keep (c : ascii) (r : string) :
  starts_with "[NaN]" (String c r) = false ->
  pass_NaN (String c r) = String c (pass_NaN r).
Proof.
  intros H. unfold pass_NaN, replace_global. cbn [replace_from].
  unfold literal. now rewrite H.
Qed.

Lemma pass_Infinity_keep (c : ascii) (r : string) :
  starts_with "[Infinity]" (String c r) = false ->
  pass_Infinity (String c r) = String c (pass_Infinity r).
Proof.
  intros H. unfold pass_Infinity, replace_global. cbn [replace_from].
  unfold literal. now rewrite H.
Qed.

Lemma pass_Infinity_brackets (t : string) :
  pass_Infinity ("[]" +:+ t) = "[]" +:+ pass_Infinity t.
Proof. reflexivity. Qed.

Lemma pass_NaN_Infinity_token (r : string) :
  pass_NaN ("[Infinity]" +:+ r) = "[Infinity]" +:+ pass_NaN r.
Proof. reflexivity. Qed.

(** A character other than the opening bracket at the head of the output
    of the first pass was copied from the input. *)
Lemma pass_NaN_head (c : ascii) (r t : string) :
  c <> "["%char -> pass_NaN r = String c t ->
  exists r1, r = String c r1 /\ pass_NaN r1 = t.
Proof.
  intros Hc H. destruct r as [|x r1]; [discriminate|].
  destruct (starts_with "[NaN]" (String x r1)) eqn:E.
  - apply starts_with_spec in E as [r2 E]. rewrite E, pass_NaN_token in H.
    simpl in H. congruence.
  - rewrite pass_NaN_keep in H by exact E. inversion H; subst. eauto.
Qed.

Lemma pass_NaN_keeps_Infinity (c : ascii) (r : string) :
  starts_with "[Infinity]" (String c (pass_NaN r)) = true ->
  starts_with "[Infinity]" (String c r) = true.
Proof.
  intros H. apply starts_with_spec in H as [t H].
  simpl in H. injection H as -> H.
  do 9 (apply pass_NaN_head in H as (? & -> & H); [|discriminate]).
  apply starts_with_spec. eauto.
Qed.

Lemma cleanBadJson_unfold (s : string) : cleanBadJson s = pass_Infinity (pass_NaN s).
Proof. reflexivity. Qed.

Lemma sanitized_cleanBadJson_aux (n : nat) (s : string) :
  (String.length s <= n)%nat -> Sanitized s (cleanBadJson s).
Proof.
  revert s; induction n as [|n IH]; intros s Hn.
  - destruct s; [constructor | simpl in Hn; lia].
  - destruct s as [|c r]; [constructor|].
    rewrite cleanBadJson_unfold.
    destruct (starts_with "[NaN]" (String c r)) eqn:EN.
    { apply starts_with_spec in EN as [r1 E]. rewrite E.
      rewrite pass_NaN_token, pass_Infinity_brackets.
      apply San_NaN. rewrite <- cleanBadJson_unfold. apply IH.
      rewrite E, length_append in Hn. simpl in Hn. lia. }
    destruct (starts_with "[Infinity]" (String c r)) eqn:EI.
    { apply starts_with_spec in EI as [r1 E]. rewrite E.
      rewrite pass_NaN_Infinity_token, pass_Infinity_token.
      apply San_Infinity. rewrite <- cleanBadJson_unfold. apply IH.
      rewrite E, length_append in Hn. simpl in Hn. lia. }
    rewrite pass_NaN_keep by exact EN.
    rewrite pass_Infinity_keep.
    + apply San_keep; [exact EN | exact EI |].
      rewrite <- cleanBadJson_unfold. apply IH. simpl in Hn. lia.
    + destruct (starts_with "[Infinity]" (String c (pass_NaN r))) eqn:E;
        [|reflexivity].
      apply pass_NaN_keeps_Infinity in E. congruence.
Qed.

Lemma cleanBadJson_token_free (s : string) :
  ~ occurs "[NaN]" s -> ~ occurs "[Infinity]" s -> cleanBadJson s = s.
Proof.
  intros HN HI. rewrite cleanBadJson_unfold. unfold pass_NaN, pass_Infinity.
  rewrite (replace_global_no_match _ _ s) by now apply literal_no_match.
  apply replace_global_no_match. now apply literal_no_match.
Qed.

(** The relation determines the result. *)
Lemma Sanitized_functional (s a b : string) :
  Sanitized s a -> Sanitized s b -> a = b.
Proof.
  intros Ha; revert b; induction Ha; intros b Hb; inversion Hb; subst;
    simpl in *; try discriminate; try reflexivity; repeat f_equal; auto.
Qed.

End Sanitize.

(** C9. The sanitization is conservative: read from left to right,
    [cleanBadJson] turns each token [[NaN]] and [[Infinity]] of the text
    into [[]] and copies every other character ([Sanitized]); the text it
    returns is the only one of this kind; and a text in which neither
    token occurs is returned as it is. *)
Theorem cleanBadJson_conservative (s : string) :
  Sanitized s (cleanBadJson s) /\
  (forall t, Sanitized s t -> t = cleanBadJson s) /\
  (~ Str.occurs "[NaN]" s -> ~ Str.occurs "[Infinity]" s -> cleanBadJson s = s).
Proof.
  split; [|split].
  - now apply (Sanitize.sanitized_cleanBadJson_aux (String.length s)).
  - intros t Ht. eapply Sanitize.Sanitized_functional; [exact Ht|].
    now apply (Sanitize.sanitized_cleanBadJson_aux (String.length s)).
  - apply Sanitize.cleanBadJson_token_free.
Qed.

Lemma not_occurs_nil (p : string) : p <> "" -> ~ Str.occurs p "".
Proof.
  intros Hp (a & b & H). destruct a; [|discriminate].
  destruct p; [congruence | discriminate].
Qed.

Lemma not_occurs_cons (p : string) (c : ascii) (s : string) :
  Str.starts_with p (String c s) = false -> ~ Str.occurs p s ->
  ~ Str.occurs p (String c s).
Proof.
  intros Hp Hs (a & b & H). destruct a as [|x a].
  - simpl in H.
    assert (Str.starts_with p (String c s) = true) as E
      by (apply StrFacts.starts_with_spec; eauto).
    congruence.
  - simpl in H. injection H as -> ->. apply Hs. now exists a, b.
Qed.

Lemma cleanBadJson_conservative_witness :
  cleanBadJson "[NaN, Infinity]" = "[NaN, Infinity]".
Proof.
  apply (proj2 (proj2 (cleanBadJson_conservative "[NaN, Infinity]")));
    repeat (apply not_occurs_cons; [reflexivity|]);
    now apply not_occurs_nil.
Defined.

(** ** [modelFileName] *)

Module FileName.
Import Str StrFacts.

Lemma all_chars_app (p : ascii -> bool) (a b : string) :
  all_chars p (a +:+ b) = all_chars p a && all_chars p b.
Proof.
  induction a as [|c a IH]; simpl; [reflexivity|].
  rewrite IH. now rewrite andb_assoc.
Qed.

Lemma all_chars_impl (p q : ascii -> bool) (s : string) :
  (forall c, p c = true -> q c = true) ->
  all_chars p s = true -> all_chars q s = true.
Proof.
  intros Hpq. induction s as [|c s IH]; simpl; [reflexivity|].
  intros [Hc Hs]%andb_prop. rewrite (Hpq _ Hc). now apply IH.
Qed.

Lemma no_backslash_no_match (s : string) :
  no_backslash s = true -> no_match sep_expr s.
Proof.
  induction s as [|c r IH]; simpl; [intros _; exact I|].
  intros [Hc Hr]%andb_prop. split; [|now apply IH].
  unfold is_backslash in Hc. now destruct (Ascii.eqb c backslash).
Qed.

(** The pairs of backslashes at the head of a text stop where a text
    without backslash begins. *)
Lemma backslash_pairs_app (n : nat) (a y : string) :
  (String.length a <= n)%nat -> no_backslash y = true ->
  backslash_pairs (a +:+ y) = backslash_pairs a /\
  (2 * backslash_pairs a <= String.length a)%nat.
Proof.
  revert a; induction n as [|n IH]; intros a Hn Hy.
  - destruct a; [|simpl in Hn; lia]. cbn [String.append String.length].
    split; [|simpl; lia].
    destruct y as [|b1 [|b2 y]]; try reflexivity.
    cbn [no_backslash all_chars] in Hy. apply andb_prop in Hy as [Hb _].
    apply negb_true_iff in Hb. unfold is_backslash in Hb.
    cbn [backslash_pairs]. now rewrite Hb.
  - destruct a as [|a1 [|a2 a]].
    + apply IH; [simpl; lia | exact Hy].
    + cbn [String.append String.length backslash_pairs]. split; [|lia].
      destruct y as [|b y]; [reflexivity|].
      cbn [no_backslash all_chars] in Hy. apply andb_prop in Hy as [Hb _].
      apply negb_true_iff in Hb. unfold is_backslash in Hb.
      now rewrite Hb, andb_false_r.
    + cbn [String.length] in Hn. destruct (IH a ltac:(lia) Hy) as [E B].
      cbn [String.append String.length backslash_pairs].
      destruct (Ascii.eqb a1 backslash && Ascii.eqb a2 backslash).
      * rewrite E. split; [reflexivity | lia].
      * split; [reflexivity | lia].
Qed.

(** A match of [sep_expr] does not run into a text without backslash. *)
Lemma normalize_split (x y : string) (k : nat) :
  no_backslash y = true -> (k <= String.length x)%nat ->
  replace_from sep_expr "/" k (x +:+ y) = replace_from sep_expr "/" k x +:+ y.
Proof.
  intros Hy. revert k; induction x as [|c x IH]; intros k Hk.
  - simpl in Hk. assert (k = O) as -> by lia. simpl.
    now apply (replace_global_no_match sep_expr "/" y), no_backslash_no_match.
  - destruct k as [|k].
    + cbn [String.append replace_from sep_expr].
      destruct (backslash_pairs_app (String.length x) x y (le_n _) Hy) as [E B].
      destruct (Ascii.eqb c backslash).
      * rewrite E. cbn [Nat.pred]. rewrite IH by lia. reflexivity.
      * rewrite IH by lia. reflexivity.
    + cbn [String.append replace_from]. apply IH. simpl in Hk. lia.
Qed.

(** After a text that ends with a backslash, the output ends with a
    slash. *)
Lemma normalize_ends (x : string) (k : nat) :
  (k <= String.length x)%nat ->
  exists z, replace_from sep_expr "/" k (x +:+ String backslash "")
            = z +:+ "/".
Proof.
  revert k; induction x as [|c x IH]; intros k Hk.
  - simpl in Hk. assert (k = O) as -> by lia. now exists "".
  - destruct k as [|k].
    + cbn [String.append replace_from sep_expr].
      destruct (Ascii.eqb c backslash).
      * cbn [Nat.pred].
        destruct (backslash_pairs_app (String.length (x +:+ String backslash ""))
                    (x +:+ String backslash "") "" (le_n _) eq_refl) as [_ B].
        rewrite length_append in B. simpl in B.
        destruct (Nat.le_gt_cases (2 * backslash_pairs (x +:+ String backslash ""))
                    (String.length x)) as [Hle|Hgt].
        -- destruct (IH _ Hle) as [z ->]. now exists ("/" +:+ z).
        -- rewrite replace_from_skip_all
             by (rewrite length_append; simpl; lia).
           now exists "".
      * destruct (IH O) as [z Hz]; [lia|]. rewrite Hz. now exists (String c z).
    + cbn [String.append replace_from]. apply IH. simpl in Hk. lia.
Qed.

Lemma split_on_not_nil (sep : ascii) (s : string) : split_on sep s <> [].
Proof.
  induction s as [|c s IH]; simpl; [discriminate|].
  destruct (Ascii.eqb c sep); [discriminate|].
  now destruct (split_on sep s).
Qed.

Lemma last_cons_not_nil {A : Type} (x d : A) (l : list A) :
  l <> [] -> List.last (x :: l) d = List.last l d.
Proof. destruct l; [congruence | reflexivity]. Qed.

Lemma split_on_plain (s : string) :
  all_chars (fun c => negb (is_slash c)) s = true -> split_on "/" s = [s].
Proof.
  induction s as [|c s IH]; simpl; [reflexivity|].
  intros [Hc Hs]%andb_prop. unfold is_slash in Hc.
  destruct (Ascii.eqb c "/"); [discriminate|]. now rewrite IH.
Qed.

Lemma split_on_two (a b : string) :
  exists x y l, split_on "/" (a +:+ String "/" b) = x :: y :: l.
Proof.
  induction a as [|c a IH]; simpl.
  - destruct (split_on "/" b) as [|y l] eqn:E; [now apply split_on_not_nil in E|].
    eauto.
  - destruct IH as (x & y & l & ->).
    destruct (Ascii.eqb c "/"); eauto.
Qed.

Lemma last_split (a b : string) :
  List.last (split_on "/" (a +:+ String "/" b)) ""
  = List.last (split_on "/" b) "".
Proof.
  induction a as [|c a IH].
  - simpl. apply last_cons_not_nil, split_on_not_nil.
  - cbn [String.append split_on].
    destruct (split_on_two a b) as (x & y & l & E).
    rewrite E in *.
    destruct (Ascii.eqb c "/"); rewrite <- IH; reflexivity.
Qed.

Lemma strip_ext_last (stem ext : string) :
  negb (String.eqb ext "") && all_chars not_slash_or_dot ext = true ->
  strip_ext (stem +:+ String "." ext) = stem.
Proof.
  intros [Hne Hext]%andb_prop.
  induction stem as [|c stem IH].
  - simpl. now rewrite Hne, Hext.
  - cbn [String.append strip_ext ext_expr]. rewrite IH.
    destruct (Ascii.eqb_spec c ".") as [->|Hc]; [|reflexivity].
    rewrite all_chars_app. simpl.
    now rewrite andb_false_r, !andb_false_r.
Qed.

Lemma strip_ext_no_dot (s : string) :
  all_chars (fun c => negb (Ascii.eqb c ".")) s = true -> strip_ext s = s.
Proof.
  induction s as [|c s IH]; simpl; [reflexivity|].
  intros [Hc Hs]%andb_prop. destruct (Ascii.eqb c "."); [discriminate|].
  simpl. now rewrite IH.
Qed.

(** Whatever the directory part, a path that ends with a separator and a
    plain file name is normalized to a text that ends with a slash and
    that file name. *)
Lemma normalize_tail (dir : string) (sep : ascii) (file : string) :
  is_backslash sep || is_slash sep = true -> plain file = true ->
  exists z, normalize_separators (dir +:+ String sep file) = z +:+ String "/" file.
Proof.
  intros Hsep Hfile. unfold normalize_separators, replace_global.
  assert (Hnb : no_backslash file = true).
  { revert Hfile. apply all_chars_impl. intros c. now destruct (is_backslash c). }
  destruct (is_backslash sep) eqn:Eb.
  - apply Ascii.eqb_eq in Eb as ->.
    change (dir +:+ String backslash file)
      with (dir +:+ (String backslash "" +:+ file)).
    rewrite <- append_assoc, normalize_split by (exact Hnb || lia).
    destruct (normalize_ends dir O) as [z ->]; [lia|].
    exists z. now rewrite append_assoc.
  - simpl in Hsep. apply Ascii.eqb_eq in Hsep as ->.
    rewrite normalize_split by (exact Hnb || lia || reflexivity).
    eauto.
Qed.

Lemma modelFileName_path (dir : string) (sep : ascii) (file : string) :
  is_backslash sep || is_slash sep = true -> plain file = true ->
  modelFileName (dir +:+ String sep file) = strip_ext file.
Proof.
  intros Hsep Hfile. unfold modelFileName.
  destruct (normalize_tail dir sep file Hsep Hfile) as [z E].
  unfold normalize_separators in E. rewrite E, last_split, split_on_plain.
  - reflexivity.
  - revert Hfile. apply all_chars_impl. intros c.
    now destruct (is_backslash c), (is_slash c).
Qed.

(** A name without separator is the file name. *)
Lemma modelFileName_bare (file : string) :
  plain file = true -> modelFileName file = strip_ext file.
Proof.
  intros Hfile. unfold modelFileName.
  assert (Hnb : no_backslash file = true).
  { revert Hfile. apply all_chars_impl. intros c. now destruct (is_backslash c). }
  rewrite (replace_global_no_match sep_expr "/" file)
    by now apply no_backslash_no_match.
  rewrite split_on_plain; [reflexivity|].
  revert Hfile. apply all_chars_impl. intros c.
  now destruct (is_backslash c), (is_slash c).
Qed.

End FileName.

(** C6. File name normalization: on the three inputs of the spec
    [modelFileName] returns [model], [name.v2] and [plain]; in general,
    for a path that ends with a separator (slash or backslash) and a file
    name without separator, whatever precedes the separator is dropped,
    and of a file name [stem.ext], with or without a path before it, only
    the last extension [ext] is removed ([stem] may contain dots); a file
    name without dot is kept as it is. *)
Theorem modelFileName_normalization :
  modelFileName "A\B\model.safetensors" = "model" /\
  modelFileName "dir/name.v2.ckpt" = "name.v2" /\
  modelFileName "plain" = "plain" /\
  (forall (dir : string) (sep : ascii) (stem ext : string),
     is_backslash sep || is_slash sep = true ->
     plain stem = true -> extension ext = true ->
     modelFileName (dir +:+ String sep (stem +:+ String "." ext)) = stem) /\
  (forall (dir : string) (sep : ascii) (file : string),
     is_backslash sep || is_slash sep = true ->
     plain file = true ->
     Str.all_chars (fun c => negb (Ascii.eqb c ".")) file = true ->
     modelFileName (dir +:+ String sep file) = file) /\
  (forall (stem ext : string),
     plain stem = true -> extension ext = true ->
     modelFileName (stem +:+ String "." ext) = stem) /\
  (forall (file : string),
     plain file = true ->
     Str.all_chars (fun c => negb (Ascii.eqb c ".")) file = true ->
     modelFileName file = file) /\
  (forall (dir : string) (sep : ascii) (file : string),
     is_backslash sep || is_slash sep = true ->
     plain file = true ->
     modelFileName (dir +:+ String sep file) = modelFileName file).
Proof.
  assert (Hext : forall stem ext,
            plain stem = true -> extension ext = true ->
            plain (stem +:+ String "." ext) = true
            /\ strip_ext (stem +:+ String "." ext) = stem).
  { intros stem ext Hstem [Hne Hext]%andb_prop. split.
    - unfold plain. rewrite FileName.all_chars_app. simpl.
      fold (plain stem). rewrite Hstem. simpl.
      revert Hext. apply FileName.all_chars_impl.
      intros c [Hb Hc]%andb_prop. rewrite Hb. simpl.
      unfold not_slash_or_dot in Hc. apply andb_prop in Hc as [Hc _].
      exact Hc.
    - apply FileName.strip_ext_last. rewrite Hne. simpl.
      revert Hext. apply FileName.all_chars_impl.
      intros c [_ Hc]%andb_prop. exact Hc. }
  split; [reflexivity|]. split; [reflexivity|]. split; [reflexivity|].
  split; [|split; [|split; [|split]]].
  - intros dir sep stem ext Hsep Hstem Hx.
    destruct (Hext stem ext Hstem Hx) as [Hp Hs].
    now rewrite FileName.modelFileName_path.
  - intros dir sep file Hsep Hfile Hdot.
    rewrite FileName.modelFileName_path by assumption.
    now apply FileName.strip_ext_no_dot.
  - intros stem ext Hstem Hx.
    destruct (Hext stem ext Hstem Hx) as [Hp Hs].
    now rewrite FileName.modelFileName_bare.
  - intros file Hfile Hdot.
    rewrite FileName.modelFileName_bare by assumption.
    now apply FileName.strip_ext_no_dot.
  - intros dir sep file Hsep Hfile.
    now rewrite FileName.modelFileName_path, FileName.modelFileName_bare.
Qed.

Lemma modelFileName_normalization_witness :
  modelFileName ("C:\models\sub" +:+ String backslash ("name.v2" +:+ String "." "ckpt"))
  = "name.v2" /\
  modelFileName ("sd" +:+ String "." "safetensors") = "sd" /\
  modelFileName "sd_xl" = "sd_xl".
Proof.
  split; [|split].
  - apply (proj1 (proj2 (proj2 (proj2 modelFileName_normalization))));
      reflexivity.
  - apply (proj1 (proj2 (proj2 (proj2 (proj2 (proj2
             modelFileName_normalization))))));
      reflexivity.
  - apply (proj1 (proj2 (proj2 (proj2 (proj2 (proj2 (proj2
             modelFileName_normalization)))))));
      reflexivity.
Defined.

(** ** [canParse] *)

Lemma to_boolean_non_empty (v : Value) :
  string_or_absent v -> JS.to_boolean v = true <-> non_empty v.
Proof.
  intros [->|[s ->]]; simpl.
  - split; [discriminate | intros (s & Hs & _); discriminate].
  - destruct (String.eqb_spec s "") as [->|Hne]; simpl.
    + split; [discriminate | intros (s & [= <-] & Hs); congruence].
    + split; [intros _; now exists s | reflexivity].
Qed.

(** C8, as the code has it: [canParse] returns one of the two fields, not
    a boolean.  What it returns is truthy exactly when both fields are
    non-empty strings, and it is then the [workflow] field. *)
Theorem canParse_truthy (exif : Exif.t) :
  string_or_absent (Exif.prompt exif) ->
  string_or_absent (Exif.workflow exif) ->
  (JS.to_boolean (canParse exif) = true <->
   non_empty (Exif.prompt exif) /\ non_empty (Exif.workflow exif)) /\
  (JS.to_boolean (canParse exif) = true -> canParse exif = Exif.workflow exif).
Proof.
  intros Hp Hw. unfold canParse.
  pose proof (to_boolean_non_empty _ Hp) as Ep.
  pose proof (to_boolean_non_empty _ Hw) as Ew.
  destruct (JS.to_boolean (Exif.prompt exif)) eqn:E.
  - split; [|reflexivity]. rewrite Ew. split; [|tauto].
    intros H. split; [now apply Ep | exact H].
  - split; [|rewrite E; discriminate]. rewrite E. split; [discriminate|].
    intros [H _]. apply Ep in H. discriminate.
Qed.

Lemma canParse_truthy_witness :
  JS.to_boolean (canParse Sample.exif_braces) = true /\
  canParse Sample.exif_braces = VStr "{}".
Proof.
  destruct (canParse_truthy Sample.exif_braces) as [H1 H2].
  - right. now exists "{}".
  - right. now exists "{}".
  - split; [reflexivity | apply H2; reflexivity].
Defined.

(** C8, as it is stated, fails: both fields of [Sample.exif_braces] are
    non-empty, and [canParse] returns its [workflow] field, which is not
    [true]. *)
Lemma canParse_not_true :
  ~ (canParse Sample.exif_braces = VBool true <->
     non_empty (Exif.prompt Sample.exif_braces) /\
     non_empty (Exif.workflow Sample.exif_braces)).
Proof.
  intros [_ H]. assert (E : canParse Sample.exif_braces = VBool true).
  { apply H. split; now exists "{}". }
  discriminate E.
Qed.

(** ** [getPromptText] *)

Lemma bind_ret {A : Type} (m : Res A) : (let* r := m in Ok r) = m.
Proof. now destruct m. Qed.

Section PromptText.

Variable h : Heap.
Variables node inputs text text_g text_l : Value.

(** The inputs the function reads. *)
Hypothesis node_inputs : JS.get_prop h node "inputs" = Ok inputs.
Hypothesis inputs_text : JS.get_prop_opt h inputs "text" = Ok text.
Hypothesis inputs_text_g : JS.get_prop_opt h inputs "text_g" = Ok text_g.
Hypothesis inputs_text_l : JS.get_prop_opt h inputs "text_l" = Ok text_l.

Lemma getPromptText_no_text (n : nat) :
  no_text h text ->
  getPromptText (S n) h node =
    if JS.to_boolean text_g then
      if negb (JS.to_boolean text_l) || JS.strict_eq text_l text_g
      then Ok text_g
      else
        let* g := JS.to_string h text_g in
        let* l := JS.to_string h text_l in
        Ok (VStr (g +:+ ", " +:+ l))
    else Ok (VStr "").
Proof.
  intros Hno. cbn [getPromptText]. rewrite node_inputs. cbn [bind].
  rewrite inputs_text. cbn [bind].
  destruct Hno as [->|[Hs Hc]].
  - cbn [bind]. rewrite inputs_text_g. cbn [bind].
    destruct (JS.to_boolean text_g); [|reflexivity].
    rewrite inputs_text_l. reflexivity.
  - destruct (JS.to_boolean text).
    + rewrite Hs, Hc. cbn [bind JS.is_undefined negb].
      rewrite inputs_text_g. cbn [bind].
      destruct (JS.to_boolean text_g); [|reflexivity].
      rewrite inputs_text_l. reflexivity.
    + cbn [bind]. rewrite inputs_text_g. cbn [bind].
      destruct (JS.to_boolean text_g); [|reflexivity].
      rewrite inputs_text_l. reflexivity.
Qed.

(** C7, as the code has it.  With [text], [text_g] and [text_l] the
    inputs of the node: a [text] that is a non-empty string is returned;
    a truthy [text] that is a node with a type tag is recursed into;
    otherwise a truthy [text_g] is returned alone when [text_l] is falsy
    (absent or empty) or identical to it, and as ["{text_g}, {text_l}"]
    when not; otherwise the result is the empty string. *)
Theorem getPromptText_cases (n : nat) :
  (forall s, text = VStr s -> s <> "" ->
     getPromptText (S n) h node = Ok (VStr s)) /\
  (forall class_type,
     JS.to_boolean text = true -> JS.is_string text = false ->
     JS.get_prop h text "class_type" = Ok class_type ->
     class_type <> VUndef ->
     getPromptText (S n) h node = getPromptText n h text) /\
  (no_text h text -> JS.to_boolean text_g = true ->
     JS.to_boolean text_l = false \/ JS.strict_eq text_l text_g = true ->
     getPromptText (S n) h node = Ok text_g) /\
  (forall g l,
     no_text h text -> JS.to_boolean text_g = true ->
     JS.to_boolean text_l = true -> JS.strict_eq text_l text_g = false ->
     JS.to_string h text_g = Ok g -> JS.to_string h text_l = Ok l ->
     getPromptText (S n) h node = Ok (VStr (g +:+ ", " +:+ l))) /\
  (no_text h text -> JS.to_boolean text_g = false ->
     getPromptText (S n) h node = Ok (VStr "")).
Proof.
  repeat split.
  - intros s -> Hs. cbn [getPromptText]. rewrite node_inputs. cbn [bind].
    rewrite inputs_text. cbn [bind JS.to_boolean JS.is_string].
    destruct (String.eqb_spec s "") as [->|_]; [congruence | reflexivity].
  - intros ct Ht Hs Hc Hne. cbn [getPromptText]. rewrite node_inputs.
    cbn [bind]. rewrite inputs_text. cbn [bind]. rewrite Ht, Hs, Hc.
    cbn [bind]. destruct ct; try congruence; cbn [JS.is_undefined negb];
      now destruct (getPromptText n h text).
  - intros Hno Hg Hl. rewrite getPromptText_no_text by exact Hno.
    rewrite Hg. destruct Hl as [->| ->]; [reflexivity|].
    now rewrite orb_true_r.
  - intros g l Hno Hg Hl Hne Eg El.
    rewrite getPromptText_no_text by exact Hno.
    rewrite Hg, Hl, Hne, Eg, El. reflexivity.
  - intros Hno Hg. rewrite getPromptText_no_text by exact Hno.
    now rewrite Hg.
Qed.

End PromptText.

Lemma getPromptText_cases_witness :
  getPromptText 1 [] (Sample.node_dual "a cat") = Ok (VStr "a cat") /\
  getPromptText 1 [] (Sample.node_dual "wide shot") = Ok (VStr "a cat, wide shot").
Proof.
  split.
  - apply (proj1 (proj2 (proj2
      (getPromptText_cases [] (Sample.node_dual "a cat")
         (VObj [("text_g", VStr "a cat"); ("text_l", VStr "a cat")])
         VUndef (VStr "a cat") (VStr "a cat")
         eq_refl eq_refl eq_refl eq_refl O))));
      [left; reflexivity | reflexivity | right; reflexivity].
  - apply (proj1 (proj2 (proj2 (proj2
      (getPromptText_cases [] (Sample.node_dual "wide shot")
         (VObj [("text_g", VStr "a cat"); ("text_l", VStr "wide shot")])
         VUndef (VStr "a cat") (VStr "wide shot")
         eq_refl eq_refl eq_refl eq_refl O)))) "a cat" "wide shot");
      [left; reflexivity | reflexivity..].
Defined.

(** C7, as it is stated, fails: the [text] input of
    [Sample.node_empty_text] is a plain string, the empty one, and the
    function returns the [text_g] input instead. *)
Lemma getPromptText_empty_text :
  JS.get_prop [] Sample.node_empty_text "inputs"
    = Ok (VObj [("text", VStr ""); ("text_g", VStr "a cat")]) /\
  getPromptText 1 [] Sample.node_empty_text = Ok (VStr "a cat") /\
  getPromptText 1 [] Sample.node_empty_text <> Ok (VStr "").
Proof. repeat split; discriminate. Qed.

(** ** The canonical sampler *)

Section Selection.

Variable h : Heap.

Lemma has_empty_latent_tag (x latent_image : Value) (tag : string) :
  JS.get_prop h x "latent_image" = Ok latent_image ->
  JS.get_prop h latent_image "class_type" = Ok (VStr tag) ->
  has_empty_latent h x = Ok (String.eqb tag "EmptyLatentImage").
Proof.
  intros H1 H2. unfold has_empty_latent. rewrite H1. cbn [bind].
  rewrite H2. reflexivity.
Qed.

Lemma find_sampler_first (pre post : list Value) (x : Value) :
  Forall (other_latent h) pre -> empty_latent h x ->
  find_sampler h (pre ++ x :: post) = Ok (Some x).
Proof.
  intros Hpre Hx. induction Hpre as [|y pre Hy _ IH]; simpl.
  - now rewrite Hx.
  - rewrite Hy. exact IH.
Qed.

Lemma find_sampler_none (samplers : list Value) :
  Forall (other_latent h) samplers -> find_sampler h samplers = Ok None.
Proof.
  intros H. induction H as [|y l Hy _ IH]; simpl; [reflexivity|].
  rewrite Hy. exact IH.
Qed.

Lemma find_sampler_inv (samplers : list Value) (r : option Value) :
  find_sampler h samplers = Ok r ->
  match r with
  | Some x =>
      exists pre post, samplers = pre ++ x :: post /\
        Forall (other_latent h) pre /\ empty_latent h x
  | None => Forall (other_latent h) samplers
  end.
Proof.
  revert r; induction samplers as [|y l IH]; intros r; simpl.
  - intros [= <-]. constructor.
  - destruct (has_empty_latent h y) as [[|]|e] eqn:E; simpl; try discriminate.
    + intros [= <-]. exists [], l. repeat split; [constructor | exact E].
    + intros H. specialize (IH r H). destruct r as [x|].
      * destruct IH as (pre & post & -> & Hpre & Hx).
        exists (y :: pre), post. repeat split; [now constructor | exact Hx].
      * now constructor.
Qed.

(** C2. Canonical sampler selection.  When the tests on the samplers
    before [x] say no and the test on [x] says yes, [x] is selected; when
    the tests on all samplers say no, the first sampler is selected; of
    two samplers of which only the second has a [latent_image] of type
    [EmptyLatentImage], the second is selected; and whatever is selected
    is selected for one of the first two reasons. *)
Theorem canonical_sampler_selection (samplers : list Value) :
  (forall pre x post,
     samplers = pre ++ x :: post ->
     Forall (other_latent h) pre -> empty_latent h x ->
     initialSamplerNode h samplers = Ok x) /\
  (Forall (other_latent h) samplers ->
   initialSamplerNode h samplers = Ok (hd VUndef samplers)) /\
  (forall first second,
     samplers = [first; second] ->
     other_latent h first -> empty_latent h second ->
     initialSamplerNode h samplers = Ok second) /\
  (forall x,
     initialSamplerNode h samplers = Ok x ->
     (exists pre post, samplers = pre ++ x :: post /\
        Forall (other_latent h) pre /\ empty_latent h x) \/
     (Forall (other_latent h) samplers /\ x = hd VUndef samplers)).
Proof.
  assert (Hfirst : forall pre x post,
     samplers = pre ++ x :: post ->
     Forall (other_latent h) pre -> empty_latent h x ->
     initialSamplerNode h samplers = Ok x).
  { intros pre x post -> Hpre Hx. unfold initialSamplerNode.
    now rewrite find_sampler_first. }
  split; [exact Hfirst|]. split; [|split].
  - intros Hall. unfold initialSamplerNode. now rewrite find_sampler_none.
  - intros a b -> Ha Hb. apply (Hfirst [a] b []); [reflexivity | | exact Hb].
    now repeat constructor.
  - intros x. unfold initialSamplerNode.
    destruct (find_sampler h samplers) as [r|e] eqn:E; [|discriminate].
    apply find_sampler_inv in E. simpl. intros [= <-].
    destruct r as [y|]; [left; exact E | right; now split].
Qed.

End Selection.

Lemma canonical_sampler_selection_witness :
  initialSamplerNode Sample.latent_heap [Sample.sampler_encoded; Sample.sampler_empty]
  = Ok Sample.sampler_empty.
Proof.
  apply (proj1 (proj2 (proj2
    (canonical_sampler_selection Sample.latent_heap
       [Sample.sampler_encoded; Sample.sampler_empty])))
    Sample.sampler_encoded Sample.sampler_empty);
    reflexivity.
Defined.

(** ** Failure without a sampler *)

Section NoSampler.

Variable samplerMap : list (string * string).

(** C3 (amended). When the sweep over the graph ends with an empty list
    of samplers, [parse] returns no record: it fails.  No error of its
    own is raised for the missing sampler: an error of decoding the
    workflow or of scanning its extras is the error of [parse], and
    otherwise the error is the [TypeError] of reading [positive] from the
    canonical sampler, which is [undefined]. *)
Theorem parse_without_sampler (exif : Exif.t) (doc : Json) (a : Acc.t) :
  classify exif = Ok (doc, a) ->
  Acc.samplerNodes a = [] ->
  (exists e, parse samplerMap exif = Err e) /\
  (forall e, decode_workflow exif = Err e -> parse samplerMap exif = Err e) /\
  (forall workflow e,
     decode_workflow exif = Ok workflow -> scan_extras workflow = Err e ->
     parse samplerMap exif = Err e) /\
  (forall workflow ids,
     decode_workflow exif = Ok workflow -> scan_extras workflow = Ok ids ->
     parse samplerMap exif
     = Err (TypeError "Cannot read properties of undefined (reading 'positive')")).
Proof.
  intros Hc Hs.
  assert (E : parse samplerMap exif =
    let* workflow := decode_workflow exif in
    let* ids := scan_extras workflow in
    Err (TypeError "Cannot read properties of undefined (reading 'positive')")).
  { unfold parse. rewrite Hc. cbn [bind]. rewrite Hs.
    cbn [initialSamplerNode find_sampler bind hd].
    destruct (decode_workflow exif) as [w|e]; [|reflexivity]. cbn [bind].
    destruct (scan_extras w); reflexivity. }
  split; [|split; [|split]].
  - rewrite E. destruct (decode_workflow exif) as [w|e]; [|now exists e].
    cbn [bind]. destruct (scan_extras w) as [i|e]; [|now exists e].
    cbn [bind]. eauto.
  - intros e Hw. now rewrite E, Hw.
  - intros w e Hw Hi. rewrite E, Hw. cbn [bind]. now rewrite Hi.
  - intros w ids Hw Hi. rewrite E, Hw. cbn [bind]. now rewrite Hi.
Qed.

End NoSampler.

Lemma parse_without_sampler_witness :
  parse Sample.samplerMap Sample.exif_no_node
  = Err (TypeError "Cannot read properties of undefined (reading 'positive')").
Proof.
  apply (proj2 (proj2 (proj2
           (parse_without_sampler Sample.samplerMap Sample.exif_no_node
              (JObj []) (Acc.init []) eq_refl eq_refl)))
           (JObj []) ([], []));
    reflexivity.
Defined.

(** C3 as stated fails: the error of [parse] on a graph without sampler
    is not an error that reports the missing sampler.  On a prompt
    without nodes it is the [TypeError] of a property read on
    [undefined]; when the workflow is not a JSON text it is the
    [SyntaxError] of [JSON.parse]. *)
Lemma parse_without_sampler_error :
  (classify Sample.exif_no_node = Ok (JObj [], Acc.init []) /\
   Acc.samplerNodes (Acc.init []) = [] /\
   parse Sample.samplerMap Sample.exif_no_node
   = Err (TypeError "Cannot read properties of undefined (reading 'positive')")) /\
  (classify Sample.exif_no_workflow = Ok (JObj [], Acc.init []) /\
   parse Sample.samplerMap Sample.exif_no_workflow = Err SyntaxError).
Proof. vm_compute. repeat split. Qed.

(** ** The sweep: one iteration *)

Module ObjFacts.
Section Props.
Context {A : Type}.
Implicit Types (ps : list (string * A)) (k : string) (v : A).

Lemma get_replace_ne k k' v ps :
  k <> k' -> Obj.get k' (Obj.replace k v ps) = Obj.get k' ps.
Proof.
  intros Hne. induction ps as [|[k0 v0] ps IH]; simpl; [reflexivity|].
  destruct (String.eqb_spec k0 k) as [->|Hk]; simpl.
  - destruct (String.eqb_spec k k') as [->|_]; [congruence | reflexivity].
  - now rewrite IH.
Qed.

Lemma get_replace_eq k v ps :
  Obj.get k (Obj.replace k v ps) = (fun _ => v) <$> Obj.get k ps.
Proof.
  induction ps as [|[k0 v0] ps IH]; simpl; [reflexivity|].
  destruct (String.eqb_spec k0 k) as [->|Hk]; simpl.
  - now rewrite String.eqb_refl.
  - destruct (String.eqb_spec k0 k) as [->|_]; [congruence | exact IH].
Qed.

End Props.
End ObjFacts.

Lemma bind_inv {A B : Type} (m : Res A) (k : A -> Res B) (b : B) :
  bind m k = Ok b -> exists a, m = Ok a /\ k a = Ok b.
Proof. destruct m as [a|e]; [eauto | discriminate]. Qed.

(** Inversion of a computation that ends well. *)
Ltac inv_ok H :=
  repeat
    (cbn [bind] in H;
     match type of H with
     | bind ?m _ = Ok _ =>
         let E := fresh "E" in
         destruct m eqn:E; [|discriminate H]
     | (if ?b then _ else _) = Ok _ =>
         let E := fresh "E" in destruct b eqn:E
     | match ?x with Some _ => _ | None => _ end = Ok _ =>
         let E := fresh "E" in destruct x eqn:E
     | Ok _ = Ok _ => injection H as H
     | Err _ = Ok _ => discriminate H
     end).

Lemma visit_KSamplerAdvanced_fields (h : Heap) (inputs : Value) (a a' : Acc.t) :
  visit_KSamplerAdvanced h inputs a = Ok a' ->
  exists x, a' = Acc.push_sampler x a.
Proof. unfold visit_KSamplerAdvanced. intros H. inv_ok H. subst. eauto. Qed.

Lemma visit_LoraLoader_fields (h : Heap) (node inputs : Value) (a : Acc.t)
    (r : option Acc.t) :
  visit_LoraLoader h node inputs a = Ok r ->
  match r with
  | None => True
  | Some a' =>
      exists strength strength_clip lora_hash name,
        JS.get_prop h node "lora_hash" = Ok lora_hash /\
        a' = Acc.push_resource
               (SDResource.mk name "lora" strength strength_clip
                  (or_undefined lora_hash))
               (if JS.to_boolean (or_undefined lora_hash)
                then Acc.set_hash ("lora:" +:+ name) (or_undefined lora_hash) a
                else a)
  end.
Proof.
  unfold visit_LoraLoader. intros H. inv_ok H; subst; [exact I|].
  eauto 10.
Qed.

Lemma visit_CheckpointLoaderSimple_fields (h : Heap) (node inputs : Value)
    (a a' : Acc.t) :
  visit_CheckpointLoaderSimple h node inputs a = Ok a' ->
  exists name ckpt_hash,
    JS.get_prop h node "ckpt_hash" = Ok ckpt_hash /\
    a' = Acc.push_resource
           (SDResource.mk name "model" VUndef VUndef (or_undefined ckpt_hash))
           (if negb (JS.to_boolean (default VUndef (Acc.hashes a !! "model")))
               && JS.to_boolean (or_undefined ckpt_hash)
            then Acc.set_hash "model" (or_undefined ckpt_hash)
                   (Acc.push_model name a)
            else Acc.push_model name a).
Proof.
  unfold visit_CheckpointLoaderSimple. intros H. inv_ok H; subst.
  eauto 10.
Qed.

Lemma or_undefined_truthy (v : Value) :
  JS.to_boolean (or_undefined v) = true -> or_undefined v = v /\ JS.to_boolean v = true.
Proof. unfold or_undefined. destruct (JS.to_boolean v) eqn:E; [auto | discriminate]. Qed.

Lemma lora_key_not_model (name : string) : "lora:" +:+ name <> "model".
Proof. discriminate. Qed.

Lemma stage_KSamplerAdvanced (b : bool) (h : Heap) (inputs : Value) (x y : Acc.t) :
  (if b then visit_KSamplerAdvanced h inputs x else Ok x) = Ok y ->
  same_entry x y.
Proof.
  destruct b; [|intros [= <-]; now split].
  intros H. apply visit_KSamplerAdvanced_fields in H as [s ->]. now split.
Qed.

Lemma stage_LoraLoader (b : bool) (h : Heap) (node inputs : Value) (x y : Acc.t) :
  (if b then visit_LoraLoader h node inputs x else Ok (Some x)) = Ok (Some y) ->
  same_entry x y.
Proof.
  destruct b; [|intros [= <-]; now split].
  intros H. apply visit_LoraLoader_fields in H
    as (strength & clip & lora_hash & name & _ & ->).
  split; [now destruct (JS.to_boolean (or_undefined lora_hash))|].
  unfold model_entry. destruct (JS.to_boolean (or_undefined lora_hash)); [|reflexivity].
  cbn [Acc.push_resource Acc.set_hash Acc.hashes].
  apply lookup_insert_ne, lora_key_not_model.
Qed.

Lemma stage_get_prop (b : bool) (h : Heap) (v : Value) (name : string)
    (push : Value -> Acc.t -> Acc.t) (x y : Acc.t) :
  (forall w, same_entry x (push w x)) ->
  (if b then let* w := JS.get_prop h v name in Ok (push w x) else Ok x) = Ok y ->
  same_entry x y.
Proof.
  intros Hpush. destruct b; [|intros [= <-]; now split].
  intros H. inv_ok H. subst. apply Hpush.
Qed.

Lemma same_entry_trans (x y z : Acc.t) :
  same_entry x y -> same_entry y z -> same_entry x z.
Proof. intros [P1 M1] [P2 M2]. split; congruence. Qed.

Lemma stage_CheckpointLoaderSimple (b : bool) (h : Heap) (node inputs : Value)
    (x y : Acc.t) :
  (if b then visit_CheckpointLoaderSimple h node inputs x else Ok x) = Ok y ->
  Acc.prompt y = Acc.prompt x /\
  (model_entry y = model_entry x \/
   exists ckpt_hash,
     b = true /\ JS.get_prop h node "ckpt_hash" = Ok ckpt_hash /\
     JS.to_boolean ckpt_hash = true /\
     JS.to_boolean (default VUndef (model_entry x)) = false /\
     model_entry y = Some ckpt_hash).
Proof.
  destruct b; [|intros [= <-]; now split; [|left]].
  intros H. apply visit_CheckpointLoaderSimple_fields in H
    as (name & ckpt_hash & Hh & ->).
  unfold model_entry.
  destruct (negb (JS.to_boolean (default VUndef (Acc.hashes x !! "model")))
            && JS.to_boolean (or_undefined ckpt_hash)) eqn:E.
  - split; [reflexivity|]. right. exists ckpt_hash.
    apply andb_prop in E as [E1 E2]. apply negb_true_iff in E1.
    apply or_undefined_truthy in E2 as [E2 E3].
    repeat split; try assumption.
    cbn [Acc.push_resource Acc.set_hash Acc.hashes]. rewrite E2.
    apply lookup_insert_eq.
  - split; [reflexivity | now left].
Qed.

Lemma same_entry_refl (x : Acc.t) : same_entry x x.
Proof. now split. Qed.

Lemma stage_sampler (b : bool) (inputs : Value) (x : Acc.t) :
  same_entry x (if b then Acc.push_sampler inputs x else x).
Proof. now destruct b. Qed.

Lemma stage_controlnet (b : bool) (h : Heap) (inputs : Value) (x y : Acc.t) :
  (if b then
     let* control_net_name := JS.get_prop h inputs "control_net_name" in
     Ok (Acc.push_controlNet control_net_name x)
   else Ok x) = Ok y ->
  same_entry x y.
Proof. apply stage_get_prop. intros w. now split. Qed.

(** What the classification of a node does to the entry [model] of the
    hashes: nothing, or, when the entry is not set and the node is a
    checkpoint loader that carries a hash, it sets the entry to that
    hash. *)
Lemma visit_node_model_entry (h : Heap) (node inputs : Value) (a a' : Acc.t) :
  visit_node h node inputs a = Ok a' ->
  Acc.prompt a' = Acc.prompt a /\
  (model_entry a' = model_entry a \/
   exists hv,
     checkpoint_with_hash h node hv /\
     JS.to_boolean (default VUndef (model_entry a)) = false /\
     model_entry a' = Some hv).
Proof.
  unfold visit_node. intros H.
  apply bind_inv in H as (class_type & Hct & H).
  apply bind_inv in H as (is_advanced & _ & H).
  apply bind_inv in H as (x1 & S1 & H). apply stage_KSamplerAdvanced in S1.
  apply bind_inv in H as (is_sampler & _ & H).
  pose proof (stage_sampler is_sampler inputs x1) as S2.
  apply bind_inv in H as (is_lora & _ & H).
  apply bind_inv in H as (lora & S3 & H).
  pose proof (same_entry_trans _ _ _ S1 S2) as S12.
  destruct lora as [x3|]; [|injection H as <-; destruct S12; split; auto].
  apply stage_LoraLoader in S3.
  pose proof (same_entry_trans _ _ _ S12 S3) as [P3 M3].
  apply bind_inv in H as (is_checkpoint & Hck & H).
  apply bind_inv in H as (x4 & S4 & H).
  apply stage_CheckpointLoaderSimple in S4 as [P4 M4].
  apply bind_inv in H as (is_upscaler & _ & H).
  apply bind_inv in H as (x5 & S5 & H).
  apply stage_get_prop in S5; [|intros w; now split].
  apply bind_inv in H as (is_vae & _ & H).
  apply bind_inv in H as (x6 & S6 & H).
  apply stage_get_prop in S6; [|intros w; now split].
  apply bind_inv in H as (is_controlnet & _ & H).
  apply stage_controlnet in H.
  pose proof (same_entry_trans _ _ _ S5 (same_entry_trans _ _ _ S6 H)) as [P M].
  split; [congruence|].
  destruct M4 as [M4|(hv & -> & Hh & Ht & Hf & M4)]; [left; congruence|].
  right. exists hv. rewrite <- M3. repeat split; try congruence.
  exists class_type. repeat split; assumption.
Qed.

Lemma loose_eq_string_unique (h : Heap) (v : Value) (c1 c2 : string) :
  JS.loose_eq_string h v c1 = Ok true -> JS.loose_eq_string h v c2 = Ok true ->
  c1 = c2.
Proof.
  unfold JS.loose_eq_string. intros H1 H2.
  destruct v; try discriminate.
  - injection H1 as H1. injection H2 as H2.
    apply String.eqb_eq in H1, H2. congruence.
  - destruct (JS.to_string h (VArr xs)); [|discriminate].
    injection H1 as H1. injection H2 as H2.
    apply String.eqb_eq in H1, H2. congruence.
  - destruct (JS.to_string h (VObj ps)); [|discriminate].
    injection H1 as H1. injection H2 as H2.
    apply String.eqb_eq in H1, H2. congruence.
  - destruct (JS.to_string h (VRef id)); [|discriminate].
    injection H1 as H1. injection H2 as H2.
    apply String.eqb_eq in H1, H2. congruence.
Qed.

(** A checkpoint loader that carries a hash sets the entry when it is not
    set. *)
Lemma visit_node_populates (h : Heap) (node inputs : Value) (a a' : Acc.t)
    (hv : Value) :
  visit_node h node inputs a = Ok a' ->
  checkpoint_with_hash h node hv ->
  JS.to_boolean (default VUndef (model_entry a)) = false ->
  model_entry a' = Some hv.
Proof.
  unfold visit_node. intros H (ct & Hct' & Hck' & Hhv & Htrue) Hfalse.
  apply bind_inv in H as (class_type & Hct & H).
  assert (class_type = ct) as -> by congruence.
  apply bind_inv in H as (is_advanced & _ & H).
  apply bind_inv in H as (x1 & S1 & H). apply stage_KSamplerAdvanced in S1.
  apply bind_inv in H as (is_sampler & _ & H).
  pose proof (stage_sampler is_sampler inputs x1) as S2.
  apply bind_inv in H as (is_lora & Hlora & H).
  assert (is_lora = false) as ->.
  { destruct is_lora; [|reflexivity].
    discriminate (loose_eq_string_unique _ _ _ _ Hlora Hck'). }
  apply bind_inv in H as (lora & [= <-] & H).
  pose proof (same_entry_trans _ _ _ S1 S2) as [P2 M2].
  apply bind_inv in H as (is_checkpoint & Hck & H).
  assert (is_checkpoint = true) as -> by congruence.
  apply bind_inv in H as (x4 & S4 & H).
  apply visit_CheckpointLoaderSimple_fields in S4 as (name & ckpt_hash & Hh & ->).
  assert (ckpt_hash = hv) as -> by congruence.
  apply bind_inv in H as (is_upscaler & _ & H).
  apply bind_inv in H as (x5 & S5 & H).
  apply stage_get_prop in S5; [|intros w; now split].
  apply bind_inv in H as (is_vae & _ & H).
  apply bind_inv in H as (x6 & S6 & H).
  apply stage_get_prop in S6; [|intros w; now split].
  apply bind_inv in H as (is_controlnet & _ & H).
  apply stage_controlnet in H.
  pose proof (same_entry_trans _ _ _ S5 (same_entry_trans _ _ _ S6 H)) as [_ M].
  rewrite M. unfold model_entry in *.
  rewrite M2, Hfalse. unfold or_undefined. rewrite Htrue.
  cbn [negb andb]. rewrite Htrue.
  cbn [Acc.push_resource Acc.set_hash Acc.hashes].
  apply lookup_insert_eq.
Qed.

Lemma get_prop_ref (h : Heap) (id : string) (ps : list (string * Value))
    (name : string) :
  Obj.get id h = Some (VObj ps) ->
  JS.get_prop h (VRef id) name = JS.get_prop h (VObj ps) name.
Proof. intros H. unfold JS.get_prop, JS.deref. now rewrite H. Qed.

Lemma checkpoint_with_hash_ref (h : Heap) (id : string)
    (ps : list (string * Value)) (hv : Value) :
  Obj.get id h = Some (VObj ps) ->
  checkpoint_with_hash h (VRef id) hv <-> checkpoint_with_hash h (VObj ps) hv.
Proof.
  intros H. unfold checkpoint_with_hash.
  setoid_rewrite (get_prop_ref h id ps _ H). reflexivity.
Qed.

(** The visit of the node stored under [id], as far as the entry [model]
    is concerned. *)
Lemma visit_model_entry (a a' : Acc.t) (id : string) :
  visit a id = Ok a' ->
  (model_entry a' = model_entry a \/
   exists hv,
     checkpoint_with_hash (Acc.prompt a') (VRef id) hv /\
     JS.to_boolean (default VUndef (model_entry a)) = false /\
     model_entry a' = Some hv) /\
  (forall hv,
     checkpoint_with_hash (Acc.prompt a') (VRef id) hv ->
     JS.to_boolean (default VUndef (model_entry a)) = false ->
     model_entry a' = Some hv).
Proof.
  unfold visit. intros H.
  destruct (Obj.get id (Acc.prompt a)) as [[| | | | | |ps|]|] eqn:Enode;
    try discriminate H.
  apply bind_inv in H as (inputs & Hin & H).
  pose proof (visit_node_model_entry _ _ _ _ _ H) as [P M].
  cbn [Acc.set_prompt Acc.prompt] in P.
  assert (Hget : Obj.get id (Acc.prompt a')
                 = Some (VObj (Obj.replace "inputs" inputs ps))).
  { rewrite P, ObjFacts.get_replace_eq, Enode. reflexivity. }
  split.
  - destruct M as [M|(hv & C & F & M)]; [now left|].
    right. exists hv. repeat split; try assumption.
    apply (checkpoint_with_hash_ref _ _ _ _ Hget). now rewrite P.
  - intros hv C F.
    apply (checkpoint_with_hash_ref _ _ _ _ Hget) in C. rewrite P in C.
    exact (visit_node_populates _ _ _ _ _ _ H C F).
Qed.

Lemma visit_kept (a a' : Acc.t) (id : string) :
  visit a id = Ok a' -> entry_truthy a ->
  entry_truthy a' /\
  (forall v, model_entry a = Some v -> model_entry a' = Some v).
Proof.
  intros H T. apply visit_model_entry in H as [[M|(hv & C & F & M)] _].
  - split; [intros v; rewrite M; apply T | intros v; now rewrite M].
  - split.
    + intros v. rewrite M. intros [= <-].
      destruct C as (ct & _ & _ & _ & Ht). exact Ht.
    + intros v Hv. rewrite Hv in F. simpl in F. rewrite (T v Hv) in F.
      discriminate.
Qed.

Lemma sweep_kept (ids : list string) (a a' : Acc.t) :
  sweep a ids = Ok a' -> entry_truthy a ->
  entry_truthy a' /\
  (forall v, model_entry a = Some v -> model_entry a' = Some v).
Proof.
  revert a; induction ids as [|id ids IH]; intros a H T; simpl in H.
  - injection H as <-. auto.
  - apply bind_inv in H as (a1 & H1 & H).
    destruct (visit_kept _ _ _ H1 T) as [T1 K1].
    destruct (IH _ H T1) as [T' K]. split; auto.
Qed.

(** ** LoRA loaders *)

Lemma sequence_inv {A : Type} (rs : list (Res A)) (l : list A) :
  JS.sequence rs = Ok l -> Forall2 (fun r x => r = Ok x) rs l.
Proof.
  revert l; induction rs as [|r rs IH]; intros l H; simpl in H.
  - injection H as <-. constructor.
  - apply bind_inv in H as (x & -> & H).
    apply bind_inv in H as (l' & Hl & [= <-]).
    constructor; [reflexivity | now apply IH].
Qed.

(** The inputs of a node after the loop over its entries: each input is
    resolved where it stands. *)
Lemma resolve_inputs_obj (h : Heap) (ins : list (string * Value)) (inputs : Value) :
  resolve_inputs h (VObj ins) = Ok inputs ->
  exists ins',
    inputs = VObj ins' /\
    forall k,
      match Obj.get k ins with
      | Some v => exists v', resolve_edge h v = Ok v' /\ Obj.get k ins' = Some v'
      | None => Obj.get k ins' = None
      end.
Proof.
  cbn [resolve_inputs]. intros H.
  apply bind_inv in H as (ins' & H & [= <-]).
  exists ins'. split; [reflexivity|].
  apply sequence_inv in H. intros k.
  remember (List.map (fun kv => let* v := resolve_edge h (snd kv) in Ok (fst kv, v)) ins)
    as rs eqn:Ers.
  revert ins Ers; induction H as [|r [k' v'] rs l Hr _ IH]; intros ins Ers.
  - destruct ins; [reflexivity | discriminate].
  - destruct ins as [|[k0 v0] ins]; [discriminate|].
    cbn [List.map fst snd] in Ers. injection Ers as -> ->.
    apply bind_inv in Hr as (w & Hw & [= <- <-]).
    cbn [Obj.get]. destruct (String.eqb k0 k).
    + eauto.
    + now apply IH.
Qed.

Lemma visit_node_lora (h : Heap) (node inputs : Value) (a : Acc.t) :
  JS.get_prop h node "class_type" = Ok (VStr "LoraLoader") ->
  visit_node h node inputs a =
    let* lora := visit_LoraLoader h node inputs a in
    Ok (match lora with
        | None => a
        | Some a' => a'
        end).
Proof.
  intros H. unfold visit_node. rewrite H.
  cbn [bind JS.loose_eq_string String.eqb Ascii.eqb Bool.eqb].
  destruct (visit_LoraLoader h node inputs a) as [[x|]|e]; reflexivity.
Qed.

Lemma Qltb_lt (p q : Q) : JS.Qltb p q = true <-> (p < q)%Q.
Proof.
  unfold JS.Qltb. rewrite negb_true_iff.
  split.
  - intros H. apply Qnot_le_lt. intros Hle.
    apply Qle_bool_iff in Hle. congruence.
  - intros H. destruct (Qle_bool q p) eqn:E; [|reflexivity].
    apply Qle_bool_iff in E. now apply Qlt_not_le in H.
Qed.

Lemma within_threshold (x : Q) :
  JS.Qltb x (1 # 1000) && JS.Qltb (- (1 # 1000)) x = true
  <-> (Qabs x < 1 # 1000)%Q.
Proof.
  rewrite andb_true_iff, !Qltb_lt, Qabs_Qlt_condition. tauto.
Qed.

Section Lora.

Variables (a a' : Acc.t) (node_id : string).
Variables (ps ins : list (string * Value)).
Variables (strength : Num) (lora_name : string).

(** The node stored under [node_id] is a LoRA loader; [strength_model] is a
    number and [lora_name] a string, as [ComfyNode] has them. *)
Hypothesis node_at_id : Obj.get node_id (Acc.prompt a) = Some (VObj ps).
Hypothesis node_class : Obj.get "class_type" ps = Some (VStr "LoraLoader").
Hypothesis node_inputs : Obj.get "inputs" ps = Some (VObj ins).
Hypothesis input_strength : Obj.get "strength_model" ins = Some (VNum strength).
Hypothesis input_name : Obj.get "lora_name" ins = Some (VStr lora_name).

(** The iteration of the loop for this node. *)
Hypothesis visited : visit a node_id = Ok a'.

(** C5. LoRA strength threshold.  When the magnitude of [strength_model]
    is below 0.001 the visit leaves the resource references and the
    hashes as they are.  Otherwise it appends one resource reference:
    the base file name of [lora_name], type [lora], weight
    [strength_model], clip weight the [strength_clip] input, and as hash
    the [lora_hash] of the node when there is one (a truthy value); and it
    records that hash, when there is one, under the key
    [lora:<basefilename>]. *)
Theorem lora_strength_threshold :
  ((Qabs (Num_to_Q strength) < 1 # 1000)%Q ->
   Acc.additionalResources a' = Acc.additionalResources a /\
   Acc.hashes a' = Acc.hashes a) /\
  (~ (Qabs (Num_to_Q strength) < 1 # 1000)%Q ->
   exists strength_clip,
     resolve_edge (Acc.prompt a) (default VUndef (Obj.get "strength_clip" ins))
       = Ok strength_clip /\
     Acc.additionalResources a' =
       Acc.additionalResources a ++
       [SDResource.mk (modelFileName lora_name) "lora" (VNum strength)
          strength_clip (or_undefined (default VUndef (Obj.get "lora_hash" ps)))] /\
     Acc.hashes a' =
       if JS.to_boolean (default VUndef (Obj.get "lora_hash" ps))
       then <["lora:" +:+ modelFileName lora_name
              := default VUndef (Obj.get "lora_hash" ps)]> (Acc.hashes a)
       else Acc.hashes a).
Proof.
  pose proof visited as H. unfold visit in H.
  rewrite node_at_id, node_inputs in H. cbn [default] in H.
  apply bind_inv in H as (inputs & Hin & H).
  apply resolve_inputs_obj in Hin as (ins' & -> & Hget).
  rewrite visit_node_lora in H
    by (cbn [JS.get_prop JS.deref];
        rewrite ObjFacts.get_replace_ne, node_class by discriminate;
        reflexivity).
  apply bind_inv in H as (lora & Hl & [= <-]).
  unfold visit_LoraLoader in Hl.
  pose proof (Hget "strength_model") as Hs. rewrite input_strength in Hs.
  destruct Hs as (s' & Es & Hs). cbn [resolve_edge] in Es. injection Es as <-.
  pose proof (Hget "lora_name") as Hn. rewrite input_name in Hn.
  destruct Hn as (n' & En & Hn). cbn [resolve_edge] in En. injection En as <-.
  pose proof (Hget "strength_clip") as Hc.
  cbn [JS.get_prop JS.deref bind] in Hl.
  rewrite Hs in Hl.
  cbn [from_option id JS.lt_const JS.gt_const JS.to_number bind] in Hl.
  destruct (JS.Qltb (Num_to_Q strength) (1 # 1000)
            && JS.Qltb (- (1 # 1000)) (Num_to_Q strength)) eqn:Ethr.
  - injection Hl as <-. split.
    + intros _. split; reflexivity.
    + intros Hnot. exfalso. apply Hnot. now apply within_threshold.
  - split.
    + intros Hlt. apply within_threshold in Hlt. congruence.
    + intros _.
      rewrite Hn in Hl. rewrite ObjFacts.get_replace_ne in Hl by discriminate.
      cbn [from_option id modelFileName_of bind] in Hl.
      injection Hl as <-.
      exists (default VUndef (Obj.get "strength_clip" ins')).
      split; [|split].
      * destruct (Obj.get "strength_clip" ins) as [c|].
        -- destruct Hc as (c' & Hc1 & ->). exact Hc1.
        -- rewrite Hc. reflexivity.
      * unfold or_undefined.
        destruct (JS.to_boolean (default VUndef (Obj.get "lora_hash" ps))) eqn:E;
          cbn [JS.to_boolean]; [rewrite E|]; reflexivity.
      * unfold or_undefined.
        destruct (JS.to_boolean (default VUndef (Obj.get "lora_hash" ps))) eqn:E;
          cbn [JS.to_boolean]; [rewrite E|]; reflexivity.
Qed.

End Lora.

Lemma lora_strength_threshold_witness :
  Acc.additionalResources Sample.after_strong =
    [SDResource.mk "ink" "lora" (VNum (mkNum false [d5] 0))
       (VNum (mkNum false [d1] 1)) (VStr "ff")] /\
  Acc.hashes Sample.after_strong !! "lora:ink" = Some (VStr "ff") /\
  Acc.additionalResources Sample.after_faint
    = Acc.additionalResources Sample.after_strong /\
  Acc.hashes Sample.after_faint = Acc.hashes Sample.after_strong.
Proof.
  destruct (lora_strength_threshold (Acc.init Sample.lora_graph)
              Sample.after_strong "10" _ _ (mkNum false [d5] 0)
              "style/ink.safetensors" eq_refl eq_refl eq_refl eq_refl eq_refl
              eq_refl) as [_ Hstrong].
  destruct Hstrong as (clip & Hclip & Hres & Hhash).
  { intros H. vm_compute in H. discriminate H. }
  injection Hclip as <-.
  destruct (lora_strength_threshold Sample.after_strong Sample.after_faint
              "11" _ _ (mkNum false [d5] (-3)) "faint.safetensors"
              eq_refl eq_refl eq_refl eq_refl eq_refl eq_refl) as [Hfaint _].
  destruct Hfaint as [Hres' Hhash']; [reflexivity|].
  split; [exact Hres|]. split; [|split; assumption].
  rewrite Hhash. reflexivity.
Defined.

(** ** [a1111Compatability]: the fields it keeps *)

Section WidthHeight.

Variable samplerMap : list (string * string).

Lemma a1111Compatability_size (h : Heap) (m m' : ImageMetaProps) :
  a1111Compatability samplerMap h m = Ok m' ->
  Meta.width m' = Meta.width m /\ Meta.height m' = Meta.height m /\
  Meta.comfy m' = Meta.comfy m.
Proof.
  unfold a1111Compatability. intros H.
  apply bind_inv in H as (is_karras & _ & H).
  apply bind_inv in H as (found & _ & [= <-]).
  repeat split.
Qed.

End WidthHeight.

Example record_small_size :
  Meta.width Sample.record_small = VNum (mkNum false [d5; d1; d2] 3) /\
  Meta.height Sample.record_small = VNum (mkNum false [d7; d6; d8] 3) /\
  Meta.prompt Sample.record_small = VStr "a cat".
Proof. vm_compute. repeat split. Qed.

(** ** Numbers: [JSON.parse] reads what [Number::toString] writes *)

Module NumFacts.



Lemma chars_app (a b : list digit) :
  Dec.chars (a ++ b) = Dec.chars a +:+ Dec.chars b.
Proof. induction a as [|d a IH]; simpl; [reflexivity | now rewrite IH]. Qed.

Lemma to_uint_of_uint (u : Decimal.uint) : Dec.to_uint (Dec.of_uint u) = u.
Proof. induction u; simpl; congruence. Qed.

Lemma to_N_of_N (n : N) : Dec.to_N (Dec.of_N n) = n.
Proof.
  unfold Dec.to_N, Dec.of_N. rewrite to_uint_of_uint.
  apply DecimalN.Unsigned.of_to.
Qed.

Lemma of_N_not_nil (n : N) : Dec.of_N n <> [].
Proof.
  unfold Dec.of_N. destruct n as [|p]; [discriminate|].
  simpl. pose proof (DecimalPos.Unsigned.to_uint_nonnil p) as H.
  destruct (Pos.to_uint p); [congruence | discriminate..].
Qed.






















(** A literal that is held as written is neither too large nor too small
    for a double: the cases of [literal_value] exclude each other. *)
Lemma held_within (x : Num) :
  exactly_held x = true -> overflows x = false /\ underflows x = false.
Proof.
  unfold exactly_held, overflows, underflows.
  destruct (num_digits x) as [|d ds]; [now split|].
  set (k := Z.of_nat (length (d :: ds))).
  assert (Hk : 1 <= k) by (unfold k; cbn [length]; lia).
  intros H.
  assert (Hp : -306 <= num_point x <= 308).
  { apply orb_prop in H as [H|H].
    - apply andb_prop in H as [H H3]. apply andb_prop in H as [H1 H2].
      apply Z.leb_le in H2, H3. lia.
    - apply andb_prop in H as [H _]. apply andb_prop in H as [H1 H2].
      apply Z.leb_le in H1, H2. lia. }
  destruct (Z.ltb_spec 309 (num_point x)); [lia|].
  destruct (Z.ltb_spec (num_point x) 309); [|lia].
  destruct (Z.ltb_spec (num_point x) (-323)); [lia|].
  destruct (Z.ltb_spec (-323) (num_point x)); [|lia].
  now split.
Qed.

End NumFacts.

(** ** [JSON.parse] reads what [JSON.stringify] writes *)

Module JsonFacts.
Import JSON StrFacts NumFacts.








Lemma delimited_skip_ws (s : string) : delimited s -> skip_ws s = s.
Proof.
  destruct s as [|c r]; [reflexivity|]. now intros [->|[->| ->]].
Qed.







End JsonFacts.

(** ** The order of the properties of an object *)

Module OrderFacts.
Section Props.
Context {A : Type}.
Implicit Types (ps acc : list (string * A)) (k : string) (v : A).
















End Props.
End OrderFacts.

(** ** The documents [JSON.parse] builds *)

Module WfFacts.
Import JSON NumFacts JsonFacts.










End WfFacts.

(** ** The round trip of a document *)

Module RoundTrip.
Import JSON StrFacts NumFacts JsonFacts WfFacts.









End RoundTrip.

(** ** The numbers of the graph *)

Module RangeFacts.
Import JsonFacts WfFacts.














End RangeFacts.

(** ** [encode] after [parse] *)

Section Encode.

Variable samplerMap : list (string * string).




End Encode.



(** * Further properties of the processor *)

(** ** [cleanBadJson]: the text it returns *)

Module SanitizeFacts.
Import Str StrFacts.

(** A character other than the opening bracket at the head of the
    sanitized text was copied from the input. *)
Lemma Sanitized_head (r t : string) (c : ascii) (t' : string) :
  Sanitized r t -> t = String c t' -> c <> "["%char ->
  exists r', r = String c r' /\ Sanitized r' t'.
Proof.
  intros H E Hc. destruct H as [| r r' H | r r' H | x r r' _ _ H].
  - discriminate.
  - simpl in E. congruence.
  - simpl in E. congruence.
  - injection E as -> ->. eauto.
Qed.

Ltac copied_head H :=
  let r := fresh "r" in
  let H' := fresh "H" in
  destruct (Sanitized_head _ _ _ _ H eq_refl ltac:(discriminate))
    as (r & -> & H');
  clear H; rename H' into H.

Lemma Sanitized_no_NaN_head (s t : string) :
  Sanitized s t -> starts_with "[NaN]" t = false.
Proof.
  intros H. destruct (starts_with "[NaN]" t) eqn:E; [|reflexivity].
  exfalso. apply starts_with_spec in E as [u E].
  destruct H as [| r r' H | r r' H | x r r' HN _ H]; try discriminate E.
  simpl in E. injection E as -> ->.
  do 4 copied_head H.
  simpl in HN. discriminate HN.
Qed.

Lemma Sanitized_no_Infinity_head (s t : string) :
  Sanitized s t -> starts_with "[Infinity]" t = false.
Proof.
  intros H. destruct (starts_with "[Infinity]" t) eqn:E; [|reflexivity].
  exfalso. apply starts_with_spec in E as [u E].
  destruct H as [| r r' H | r r' H | x r r' _ HI H]; try discriminate E.
  simpl in E. injection E as -> ->.
  do 9 copied_head H.
  simpl in HI. discriminate HI.
Qed.

(** Neither token occurs in the sanitized text. *)
Lemma Sanitized_token_free (s t : string) :
  Sanitized s t -> ~ occurs "[NaN]" t /\ ~ occurs "[Infinity]" t.
Proof.
  induction 1 as [| r r' H [IHN IHI] | r r' H [IHN IHI] | c r r' HN HI H [IHN IHI]].
  - split; now apply not_occurs_nil.
  - split; (apply not_occurs_cons; [reflexivity|]);
      (apply not_occurs_cons; [reflexivity | assumption]).
  - split; (apply not_occurs_cons; [reflexivity|]);
      (apply not_occurs_cons; [reflexivity | assumption]).
  - assert (Hk : Sanitized (String c r) (String c r')) by now constructor.
    split; (apply not_occurs_cons; [|assumption]).
    + eapply Sanitized_no_NaN_head, Hk.
    + eapply Sanitized_no_Infinity_head, Hk.
Qed.

End SanitizeFacts.

(** X1. The text [cleanBadJson] returns holds neither token, and
    sanitizing it again changes nothing. *)
Theorem cleanBadJson_idempotent (s : string) :
  ~ Str.occurs "[NaN]" (cleanBadJson s) /\
  ~ Str.occurs "[Infinity]" (cleanBadJson s) /\
  cleanBadJson (cleanBadJson s) = cleanBadJson s.
Proof.
  pose proof (Sanitize.sanitized_cleanBadJson_aux (String.length s) s
                (Nat.le_refl _)) as H.
  apply SanitizeFacts.Sanitized_token_free in H as [HN HI].
  repeat split; [exact HN | exact HI |].
  now apply Sanitize.cleanBadJson_token_free.
Qed.

(** ** [modelFileName]: the name it returns *)

Module FileNameFacts.
Import Str StrFacts.

(** Every backslash is part of a match of [sep_expr]. *)
Lemma normalize_no_backslash (s : string) (k : nat) :
  no_backslash (replace_from sep_expr "/" k s) = true.
Proof.
  revert k; induction s as [|c s IH]; intros k; [reflexivity|].
  destruct k as [|k]; cbn [replace_from sep_expr]; [|apply IH].
  destruct (Ascii.eqb c backslash) eqn:E.
  - cbn [String.append no_backslash all_chars]. apply IH.
  - cbn [no_backslash all_chars]. unfold is_backslash. rewrite E.
    apply IH.
Qed.

(** The segments between the slashes hold no slash. *)
Lemma split_on_segments (p : ascii -> bool) (s : string) :
  all_chars p s = true ->
  Forall (fun seg => all_chars (fun c => p c && negb (is_slash c)) seg = true)
    (split_on "/" s).
Proof.
  induction s as [|c s IH]; cbn [split_on all_chars].
  - intros _. now repeat constructor.
  - intros [Hc Hs]%andb_prop. specialize (IH Hs).
    destruct (Ascii.eqb c "/") eqn:E.
    + now constructor.
    + destruct (split_on "/" s) as [|seg segs].
      { constructor; [|constructor]. cbn [all_chars]. unfold is_slash.
        now rewrite Hc, E. }
      inversion IH as [|? ? Hseg Hsegs]; subst.
      constructor; [|exact Hsegs].
      cbn [all_chars]. unfold is_slash at 1. now rewrite Hc, E, Hseg.
Qed.

Lemma last_Forall {A : Type} (P : A -> Prop) (l : list A) (d : A) :
  l <> [] -> Forall P l -> P (List.last l d).
Proof.
  intros Hne Hall. induction Hall as [|x l Hx Hl IH]; [congruence|].
  destruct l as [|y l]; [exact Hx|]. apply IH. discriminate.
Qed.

(** Removing the extension leaves a prefix. *)
Lemma strip_ext_all_chars (p : ascii -> bool) (s : string) :
  all_chars p s = true -> all_chars p (strip_ext s) = true.
Proof.
  induction s as [|c s IH]; [reflexivity|].
  cbn [strip_ext all_chars]. intros [Hc Hs]%andb_prop.
  destruct (ext_expr (String c s)); [reflexivity|].
  cbn [all_chars]. now rewrite Hc, IH.
Qed.

End FileNameFacts.

(** X2. Whatever the name, [modelFileName] returns a text without path
    separator: neither slash nor backslash. *)
Theorem modelFileName_plain (name : string) :
  plain (modelFileName name) = true.
Proof.
  unfold modelFileName, plain.
  apply FileNameFacts.strip_ext_all_chars.
  apply FileNameFacts.last_Forall; [apply FileName.split_on_not_nil|].
  apply (FileNameFacts.split_on_segments (fun c => negb (is_backslash c))).
  apply (FileNameFacts.normalize_no_backslash name O).
Qed.

(** ** The sweep: what a visit does *)

Module VisitFacts.

(** The steps of a visit that ends well. *)
Lemma visit_inv (a a' : Acc.t) (id : string) :
  visit a id = Ok a' ->
  exists ps inputs,
    Obj.get id (Acc.prompt a) = Some (VObj ps) /\
    resolve_inputs (Acc.prompt a) (default VUndef (Obj.get "inputs" ps))
      = Ok inputs /\
    Acc.prompt a'
      = Obj.replace id (VObj (Obj.replace "inputs" inputs ps)) (Acc.prompt a) /\
    visit_node (Acc.prompt a') (VObj (Obj.replace "inputs" inputs ps)) inputs
      (Acc.set_prompt (Acc.prompt a') a) = Ok a'.
Proof.
  unfold visit. intros H.
  destruct (Obj.get id (Acc.prompt a)) as [[| | | | | |ps|]|] eqn:Enode;
    try discriminate H.
  apply bind_inv in H as (inputs & Hin & H).
  pose proof (visit_node_model_entry _ _ _ _ _ H) as [P _].
  cbn [Acc.set_prompt Acc.prompt] in P.
  exists ps, inputs. rewrite P. auto.
Qed.

(** The type tag of the node at the time it is classified. *)
Lemma class_type_kept (h : Heap) (ps : list (string * Value)) (inputs : Value) :
  JS.get_prop h (VObj (Obj.replace "inputs" inputs ps)) "class_type"
  = Ok (default VUndef (Obj.get "class_type" ps)).
Proof.
  cbn [JS.get_prop JS.deref].
  now rewrite ObjFacts.get_replace_ne by discriminate.
Qed.

(** A node whose type tag is a string met by none of the tests. *)
Lemma visit_node_other (h : Heap) (node inputs : Value) (a : Acc.t) (c : string) :
  JS.get_prop h node "class_type" = Ok (VStr c) ->
  ~ In c known_classes ->
  visit_node h node inputs a = Ok a.
Proof.
  intros H Hc. unfold visit_node. rewrite H.
  cbn [bind JS.loose_eq_string].
  assert (E : forall k, In k known_classes -> String.eqb c k = false).
  { intros k Hk. apply String.eqb_neq. intros ->. contradiction. }
  rewrite !E by (simpl; tauto). reflexivity.
Qed.

(** A node of one of the three loaders. *)
Lemma visit_node_loader (h : Heap) (node inputs : Value) (a : Acc.t) (l : Loader) :
  JS.get_prop h node "class_type" = Ok (VStr (loader_class l)) ->
  visit_node h node inputs a =
    let* name := JS.get_prop h inputs (loader_input l) in
    Ok (loader_push l name a).
Proof.
  intros H. unfold visit_node. rewrite H.
  destruct l; cbn [loader_class loader_input loader_push bind
                   JS.loose_eq_string String.eqb Ascii.eqb Bool.eqb];
    destruct (JS.get_prop h inputs _); reflexivity.
Qed.

Lemma visit_node_checkpoint (h : Heap) (node inputs : Value) (a : Acc.t) :
  JS.get_prop h node "class_type" = Ok (VStr "CheckpointLoaderSimple") ->
  visit_node h node inputs a = visit_CheckpointLoaderSimple h node inputs a.
Proof.
  intros H. unfold visit_node. rewrite H.
  cbn [bind JS.loose_eq_string String.eqb Ascii.eqb Bool.eqb].
  destruct (visit_CheckpointLoaderSimple h node inputs a); reflexivity.
Qed.

Lemma visit_node_sampler (h : Heap) (node inputs : Value) (a : Acc.t) :
  JS.get_prop h node "class_type" = Ok (VStr "KSampler") ->
  visit_node h node inputs a = Ok (Acc.push_sampler inputs a).
Proof.
  intros H. unfold visit_node. rewrite H. reflexivity.
Qed.

Lemma visit_node_advanced (h : Heap) (node inputs : Value) (a : Acc.t) :
  JS.get_prop h node "class_type" = Ok (VStr "KSamplerAdvanced") ->
  visit_node h node inputs a = visit_KSamplerAdvanced h inputs a.
Proof.
  intros H. unfold visit_node. rewrite H.
  cbn [bind JS.loose_eq_string String.eqb Ascii.eqb Bool.eqb].
  destruct (visit_KSamplerAdvanced h inputs a); reflexivity.
Qed.

End VisitFacts.

(** ** The sweep: the node types *)

Module ObjSetFacts.

Lemma get_set_ne {A : Type} (k k' : string) (v : A) (ps : list (string * A)) :
  k <> k' -> Obj.get k' (Obj.set k v ps) = Obj.get k' ps.
Proof.
  intros Hne. unfold Obj.set.
  destruct (Obj.get k ps) eqn:E; [now apply ObjFacts.get_replace_ne|].
  destruct (Obj.array_index k) as [n|].
  - clear E. induction ps as [|[k0 v0] ps IH]; cbn [Obj.insert_index Obj.get].
    + destruct (String.eqb_spec k k'); [congruence | reflexivity].
    + destruct (Obj.array_index k0) as [n0|].
      * destruct (n0 <? n)%N; cbn [Obj.get].
        -- now rewrite IH.
        -- destruct (String.eqb_spec k k'); [congruence | reflexivity].
      * cbn [Obj.get]. destruct (String.eqb_spec k k'); [congruence | reflexivity].
  - clear E. induction ps as [|[k0 v0] ps IH]; cbn [app Obj.get].
    + destruct (String.eqb_spec k k'); [congruence | reflexivity].
    + now rewrite IH.
Qed.

End ObjSetFacts.

Section Visit.

Variables (a a' : Acc.t) (node_id : string) (ps : list (string * Value)).

Hypothesis node_at_id : Obj.get node_id (Acc.prompt a) = Some (VObj ps).
Hypothesis visited : visit a node_id = Ok a'.

(** The resolved inputs of the node, as the graph has them after the
    visit. *)
Lemma visited_inputs :
  exists inputs,
    resolve_inputs (Acc.prompt a) (default VUndef (Obj.get "inputs" ps))
      = Ok inputs /\
    JS.get_prop (Acc.prompt a') (VRef node_id) "inputs" = Ok inputs /\
    visit_node (Acc.prompt a') (VObj (Obj.replace "inputs" inputs ps)) inputs
      (Acc.set_prompt (Acc.prompt a') a) = Ok a'.
Proof.
  destruct (VisitFacts.visit_inv _ _ _ visited)
    as (ps' & inputs & Hps & Hin & Hh & Hv).
  rewrite node_at_id in Hps. injection Hps as <-.
  exists inputs. repeat split; [exact Hin | | exact Hv].
  unfold JS.get_prop, JS.deref.
  rewrite Hh, ObjFacts.get_replace_eq, node_at_id.
  cbv [fmap option_fmap option_map default from_option id].
  rewrite ObjFacts.get_replace_eq.
  destruct (Obj.get "inputs" ps) as [w|]; [reflexivity|].
  discriminate Hin.
Qed.

(** X3. A node whose type tag is a string other than the seven the loop
    tests for contributes nothing: the visit resolves its inputs in the
    graph and leaves every list and the hashes as they are. *)
Theorem visit_unclassified (c : string) :
  Obj.get "class_type" ps = Some (VStr c) ->
  ~ In c known_classes ->
  a' = Acc.set_prompt (Acc.prompt a') a.
Proof.
  intros Hc Hno. destruct visited_inputs as (inputs & _ & _ & Hv).
  rewrite (VisitFacts.visit_node_other _ _ _ _ c) in Hv;
    [injection Hv as Hv; now symmetry | | exact Hno].
  now rewrite VisitFacts.class_type_kept, Hc.
Qed.

(** The entries of the resolved inputs. *)
Lemma resolved_entry (ins : list (string * Value)) (inputs : Value) (k : string) :
  resolve_inputs (Acc.prompt a) (VObj ins) = Ok inputs ->
  exists ins' v,
    inputs = VObj ins' /\
    resolve_edge (Acc.prompt a) (default VUndef (Obj.get k ins)) = Ok v /\
    default VUndef (Obj.get k ins') = v.
Proof.
  intros H. apply resolve_inputs_obj in H as (ins' & -> & Hget).
  specialize (Hget k). exists ins'.
  destruct (Obj.get k ins) as [w|].
  - destruct Hget as (v & Hv & ->). exists v. auto.
  - rewrite Hget. exists VUndef. auto.
Qed.

(** X4. A node of type [UpscaleModelLoader], [VAELoader] or
    [ControlNetLoader] appends its resolved name input ([model_name],
    [vae_name], [control_net_name]) as it is written to the list of its
    kind, and contributes nothing else: no resource reference, no hash,
    no model. *)
Theorem visit_loader (l : Loader) (ins : list (string * Value)) :
  Obj.get "class_type" ps = Some (VStr (loader_class l)) ->
  Obj.get "inputs" ps = Some (VObj ins) ->
  exists name,
    resolve_edge (Acc.prompt a) (default VUndef (Obj.get (loader_input l) ins))
      = Ok name /\
    a' = loader_push l name (Acc.set_prompt (Acc.prompt a') a).
Proof.
  intros Hc Hi. destruct visited_inputs as (inputs & Hin & _ & Hv).
  rewrite Hi in Hin. cbn [default from_option id] in Hin.
  apply (resolved_entry ins inputs (loader_input l)) in Hin
    as (ins' & name & -> & Hname & Hget).
  exists name. split; [exact Hname|].
  rewrite (VisitFacts.visit_node_loader _ _ _ _ l) in Hv
    by now rewrite VisitFacts.class_type_kept, Hc.
  cbn [JS.get_prop JS.deref bind] in Hv. rewrite Hget in Hv.
  injection Hv as Hv. now symmetry.
Qed.

(** X5. A node of type [CheckpointLoaderSimple] whose [ckpt_name] is a
    string appends the base file name to [models] and one resource
    reference of type [model] that carries the [ckpt_hash] of the node
    (when it is truthy); the hash becomes the entry [model] of the hashes
    when that entry is not set; nothing else changes. *)
Theorem visit_checkpoint (ins : list (string * Value)) (ckpt_name : string) :
  Obj.get "class_type" ps = Some (VStr "CheckpointLoaderSimple") ->
  Obj.get "inputs" ps = Some (VObj ins) ->
  Obj.get "ckpt_name" ins = Some (VStr ckpt_name) ->
  let name := modelFileName ckpt_name in
  let hash_value := or_undefined (default VUndef (Obj.get "ckpt_hash" ps)) in
  let seen := Acc.push_model name (Acc.set_prompt (Acc.prompt a') a) in
  a' = Acc.push_resource (SDResource.mk name "model" VUndef VUndef hash_value)
         (if negb (JS.to_boolean (default VUndef (Acc.hashes a !! "model")))
             && JS.to_boolean hash_value
          then Acc.set_hash "model" hash_value seen
          else seen).
Proof.
  intros Hc Hi Hn. destruct visited_inputs as (inputs & Hin & _ & Hv).
  rewrite Hi in Hin. cbn [default from_option id] in Hin.
  apply (resolved_entry ins inputs "ckpt_name") in Hin
    as (ins' & v & -> & Hname & Hget).
  rewrite Hn in Hname. cbn [default from_option id resolve_edge] in Hname.
  injection Hname as <-.
  rewrite VisitFacts.visit_node_checkpoint in Hv
    by now rewrite VisitFacts.class_type_kept, Hc.
  unfold visit_CheckpointLoaderSimple in Hv.
  cbn [JS.get_prop JS.deref bind] in Hv. rewrite Hget in Hv.
  cbn [modelFileName_of bind] in Hv.
  rewrite ObjFacts.get_replace_ne in Hv by discriminate.
  injection Hv as Hv. now symmetry.
Qed.

(** X6. A node of type [KSampler] appends its inputs, as the graph has
    them once they are resolved, to the samplers, and contributes nothing
    else. *)
Theorem visit_sampler :
  Obj.get "class_type" ps = Some (VStr "KSampler") ->
  exists inputs,
    JS.get_prop (Acc.prompt a') (VRef node_id) "inputs" = Ok inputs /\
    a' = Acc.push_sampler inputs (Acc.set_prompt (Acc.prompt a') a).
Proof.
  intros Hc. destruct visited_inputs as (inputs & _ & Hget & Hv).
  exists inputs. split; [exact Hget|].
  rewrite VisitFacts.visit_node_sampler in Hv
    by now rewrite VisitFacts.class_type_kept, Hc.
  injection Hv as Hv. now symmetry.
Qed.

(** X7. A node of type [KSamplerAdvanced] appends a copy of its resolved
    inputs in which [steps] and [cfg] are replaced by their number
    values ([getNumberValue]: the number itself, or the [Value] input of
    the node it is wired to); the inputs of the node in the graph keep
    their entries, and nothing else changes. *)
Theorem visit_advanced_sampler (ins : list (string * Value)) :
  Obj.get "class_type" ps = Some (VStr "KSamplerAdvanced") ->
  Obj.get "inputs" ps = Some (VObj ins) ->
  exists ins' steps cfg,
    JS.get_prop (Acc.prompt a') (VRef node_id) "inputs" = Ok (VObj ins') /\
    getNumberValue (Acc.prompt a') (default VUndef (Obj.get "steps" ins'))
      = Ok steps /\
    getNumberValue (Acc.prompt a') (default VUndef (Obj.get "cfg" ins'))
      = Ok cfg /\
    a' = Acc.push_sampler
           (VObj (Obj.set "cfg" cfg (Obj.set "steps" steps ins')))
           (Acc.set_prompt (Acc.prompt a') a).
Proof.
  intros Hc Hi. destruct visited_inputs as (inputs & Hin & Hget & Hv).
  rewrite Hi in Hin. cbn [default from_option id] in Hin.
  pose proof Hin as Hobj.
  apply resolve_inputs_obj in Hobj as (ins' & -> & _).
  rewrite VisitFacts.visit_node_advanced in Hv
    by now rewrite VisitFacts.class_type_kept, Hc.
  unfold visit_KSamplerAdvanced in Hv. cbn [JS.own_entries] in Hv.
  apply bind_inv in Hv as (steps & Hsteps & Hv).
  apply bind_inv in Hv as (cfg & Hcfg & [= Hv]).
  rewrite ObjSetFacts.get_set_ne in Hcfg by discriminate.
  exists ins', steps, cfg. auto.
Qed.

(** X8. A node of type [KSamplerAdvanced] without [steps] or without
    [cfg] input, and a node of type [CheckpointLoaderSimple] without
    [ckpt_name] input, make the visit, and with it [parse], fail. *)
Theorem visit_missing_input (b : Acc.t) (ins : list (string * Value))
    (class key : string) :
  Obj.get node_id (Acc.prompt b) = Some (VObj ps) ->
  Obj.get "class_type" ps = Some (VStr class) ->
  Obj.get "inputs" ps = Some (VObj ins) ->
  In (class, key) mandatory_inputs ->
  Obj.get key ins = None ->
  exists e, visit b node_id = Err e.
Proof.
  intros Hb Hc Hi Hm Hk.
  destruct (visit b node_id) as [b'|e] eqn:E; [|eauto]. exfalso.
  apply VisitFacts.visit_inv in E as (ps' & inputs & Hps & Hin & _ & Hv).
  rewrite Hb in Hps. injection Hps as <-.
  rewrite Hi in Hin. cbn [default from_option id] in Hin.
  apply resolve_inputs_obj in Hin as (ins' & -> & Hget).
  specialize (Hget key). rewrite Hk in Hget.
  destruct Hm as [[= <- <-]|[[= <- <-]|[[= <- <-]|[]]]].
  - rewrite VisitFacts.visit_node_advanced in Hv
      by now rewrite VisitFacts.class_type_kept, Hc.
    unfold visit_KSamplerAdvanced in Hv. cbn [JS.own_entries] in Hv.
    rewrite Hget in Hv. discriminate Hv.
  - rewrite VisitFacts.visit_node_advanced in Hv
      by now rewrite VisitFacts.class_type_kept, Hc.
    unfold visit_KSamplerAdvanced in Hv. cbn [JS.own_entries] in Hv.
    apply bind_inv in Hv as (steps & _ & Hv).
    rewrite ObjSetFacts.get_set_ne, Hget in Hv by discriminate.
    discriminate Hv.
  - rewrite VisitFacts.visit_node_checkpoint in Hv
      by now rewrite VisitFacts.class_type_kept, Hc.
    unfold visit_CheckpointLoaderSimple in Hv.
    cbn [JS.get_prop JS.deref bind] in Hv. rewrite Hget in Hv.
    discriminate Hv.
Qed.

End Visit.

Lemma visit_unclassified_witness :
  Fixture.visited "3"
  = Acc.set_prompt (Acc.prompt (Fixture.visited "3")) (Acc.init Fixture.loaders).
Proof.
  eapply (visit_unclassified (Acc.init Fixture.loaders) (Fixture.visited "3")
            "3" _ eq_refl eq_refl "Note" eq_refl).
  simpl. intuition discriminate.
Defined.

Lemma visit_loader_witness :
  exists name,
    resolve_edge Fixture.loaders (VStr "vae/ft-mse.safetensors") = Ok name /\
    Fixture.visited "1"
    = Acc.push_vae name
        (Acc.set_prompt (Acc.prompt (Fixture.visited "1"))
           (Acc.init Fixture.loaders)).
Proof.
  exact (visit_loader (Acc.init Fixture.loaders) (Fixture.visited "1") "1" _
           eq_refl eq_refl Vae _ eq_refl eq_refl).
Defined.

Lemma visit_checkpoint_witness :
  Fixture.visited "4"
  = Acc.push_resource
      (SDResource.mk "base.v1" "model" VUndef VUndef (VStr "31e35c80fc"))
      (Acc.set_hash "model" (VStr "31e35c80fc")
         (Acc.push_model "base.v1"
            (Acc.set_prompt (Acc.prompt (Fixture.visited "4"))
               (Acc.init Fixture.loaders)))).
Proof.
  exact (visit_checkpoint (Acc.init Fixture.loaders) (Fixture.visited "4") "4" _
           eq_refl eq_refl _ "sdxl\base.v1.safetensors" eq_refl eq_refl eq_refl).
Defined.

Lemma visit_sampler_witness :
  exists inputs,
    JS.get_prop (Acc.prompt (Fixture.visited "5")) (VRef "5") "inputs"
      = Ok inputs /\
    Fixture.visited "5"
    = Acc.push_sampler inputs
        (Acc.set_prompt (Acc.prompt (Fixture.visited "5"))
           (Acc.init Fixture.loaders)).
Proof.
  exact (visit_sampler (Acc.init Fixture.loaders) (Fixture.visited "5") "5" _
           eq_refl eq_refl eq_refl).
Defined.

Lemma visit_advanced_sampler_witness :
  exists ins' steps cfg,
    JS.get_prop (Acc.prompt (Fixture.visited "6")) (VRef "6") "inputs"
      = Ok (VObj ins') /\
    getNumberValue (Acc.prompt (Fixture.visited "6"))
      (default VUndef (Obj.get "steps" ins')) = Ok steps /\
    getNumberValue (Acc.prompt (Fixture.visited "6"))
      (default VUndef (Obj.get "cfg" ins')) = Ok cfg /\
    Fixture.visited "6"
    = Acc.push_sampler
        (VObj (Obj.set "cfg" cfg (Obj.set "steps" steps ins')))
        (Acc.set_prompt (Acc.prompt (Fixture.visited "6"))
           (Acc.init Fixture.loaders)).
Proof.
  exact (visit_advanced_sampler (Acc.init Fixture.loaders) (Fixture.visited "6")
           "6" _ eq_refl eq_refl _ eq_refl eq_refl).
Defined.

Lemma visit_missing_input_witness :
  exists e, visit (Acc.init Fixture.loaders) "8" = Err e.
Proof.
  refine (visit_missing_input "8" _ (Acc.init Fixture.loaders) _
            "CheckpointLoaderSimple" "ckpt_name" eq_refl eq_refl eq_refl _
            eq_refl).
  simpl. tauto.
Defined.

(** The advanced sampler of the graph takes its steps from the node it is
    wired to. *)
Example visited_advanced_steps :
  Acc.samplerNodes (Fixture.visited "6")
  = [VObj [("steps", VNum (mkNum false [d3] 2));
           ("cfg", VNum (mkNum false [d8] 1))]].
Proof. reflexivity. Qed.

(** ** The sweep: the graph *)

Module GraphFacts.

Lemma replace_keys {A : Type} (k : string) (v : A) (ps : list (string * A)) :
  List.map fst (Obj.replace k v ps) = List.map fst ps.
Proof.
  induction ps as [|[k0 v0] ps IH]; [reflexivity|]. cbn [Obj.replace].
  destruct (String.eqb_spec k0 k) as [->|_]; cbn [List.map fst];
    [reflexivity | now rewrite IH].
Qed.

(** A visit changes the inputs of the node it visits, and nothing else
    in the graph. *)
Lemma visit_graph (a a' : Acc.t) (id : string) :
  visit a id = Ok a' ->
  List.map fst (Acc.prompt a') = List.map fst (Acc.prompt a) /\
  (forall id', id' <> id ->
               Obj.get id' (Acc.prompt a') = Obj.get id' (Acc.prompt a)) /\
  exists ps inputs,
    Obj.get id (Acc.prompt a) = Some (VObj ps) /\
    Obj.get id (Acc.prompt a')
      = Some (VObj (Obj.replace "inputs" inputs ps)).
Proof.
  intros H. apply VisitFacts.visit_inv in H as (ps & inputs & Hps & _ & Hh & _).
  rewrite Hh. split; [apply replace_keys|]. split.
  - intros id' Hne. apply ObjFacts.get_replace_ne. congruence.
  - exists ps, inputs. split; [exact Hps|].
    now rewrite ObjFacts.get_replace_eq, Hps.
Qed.

(** A node that is not an object with inputs stops the sweep. *)
Lemma visit_without_inputs (a : Acc.t) (nid : string) (v : Value) :
  Obj.get nid (Acc.prompt a) = Some v ->
  (forall ps, v = VObj ps -> Obj.get "inputs" ps = None) ->
  exists e, visit a nid = Err e.
Proof.
  intros Hv Hno. unfold visit. rewrite Hv.
  destruct v as [| | b | x | s | xs | ps | r]; eauto.
  rewrite (Hno ps eq_refl). cbn [default from_option id resolve_inputs bind]. eauto.
Qed.

Lemma sweep_without_inputs (ids : list string) :
  forall (a : Acc.t) (id : string) (v : Value),
    Obj.get id (Acc.prompt a) = Some v ->
    (forall ps, v = VObj ps -> Obj.get "inputs" ps = None) ->
    In id ids ->
    exists e, sweep a ids = Err e.
Proof.
  induction ids as [|id0 ids IH]; intros a id v Hv Hno Hin; [destruct Hin|].
  cbn [sweep].
  destruct (String.eqb_spec id0 id) as [->|Hne].
  - destruct (visit_without_inputs a id v Hv Hno) as [e ->]. eauto.
  - destruct Hin as [->|Hin]; [congruence|].
    destruct (visit a id0) as [a1|e] eqn:E; [|eauto]. cbn [bind].
    apply visit_graph in E as (_ & Hother & _).
    apply (IH a1 id v); [|exact Hno | exact Hin].
    rewrite Hother by congruence. exact Hv.
Qed.

Lemma get_inject (k : string) (ps : list (string * Json)) :
  Obj.get k (List.map (fun kv => (fst kv, inject (snd kv))) ps)
  = inject <$> Obj.get k ps.
Proof.
  induction ps as [|[k0 v0] ps IH]; [reflexivity|].
  cbn [List.map Obj.get fst snd]. now destruct (String.eqb k0 k).
Qed.

Lemma get_some_key {A : Type} (k : string) (ps : list (string * A)) (v : A) :
  Obj.get k ps = Some v -> In k (List.map fst ps).
Proof.
  induction ps as [|[k0 v0] ps IH]; [discriminate|]. cbn [Obj.get List.map fst].
  destruct (String.eqb_spec k0 k) as [->|_]; [now left | right; auto].
Qed.

End GraphFacts.

(** X9. The sweep keeps the nodes of the graph: it adds and removes none,
    it leaves a node it does not visit as it is, and of a node it visits
    it changes nothing but the [inputs]. *)
Theorem sweep_graph (ids : list string) (a a' : Acc.t) :
  sweep a ids = Ok a' ->
  List.map fst (Acc.prompt a') = List.map fst (Acc.prompt a) /\
  (forall id, ~ In id ids ->
              Obj.get id (Acc.prompt a') = Obj.get id (Acc.prompt a)) /\
  (forall id ps,
     Obj.get id (Acc.prompt a) = Some (VObj ps) ->
     exists ps',
       Obj.get id (Acc.prompt a') = Some (VObj ps') /\
       List.map fst ps' = List.map fst ps /\
       forall k, k <> "inputs" -> Obj.get k ps' = Obj.get k ps).
Proof.
  revert a. induction ids as [|id0 ids IH]; intros a H; cbn [sweep] in H.
  - injection H as <-. repeat split; eauto.
  - apply bind_inv in H as (a1 & H1 & H).
    apply GraphFacts.visit_graph in H1 as (K1 & O1 & ps0 & inputs & G0 & G1).
    apply IH in H as (K & O & N). split; [congruence|]. split.
    + intros id Hid. rewrite O, O1; [reflexivity | |]; intros E; apply Hid;
        [left; congruence | now right].
    + intros id ps Hps.
      destruct (String.eqb_spec id id0) as [->|Hne].
      * rewrite Hps in G0. injection G0 as <-.
        destruct (N _ _ G1) as (ps' & Hps' & Hk & Hsame).
        exists ps'. split; [exact Hps'|]. split.
        -- now rewrite Hk, GraphFacts.replace_keys.
        -- intros k Hk'. rewrite Hsame by exact Hk'.
           apply ObjFacts.get_replace_ne. congruence.
      * apply N. now rewrite O1.
Qed.

Lemma sweep_graph_witness :
  List.map fst (Acc.prompt Sample.after_second) = ["1"; "2"].
Proof.
  exact (proj1 (sweep_graph ["2"] Sample.after_first Sample.after_second eq_refl)).
Defined.

Section NodeWithoutInputs.

Variable samplerMap : list (string * string).

(** X10. A prompt that holds a node without [inputs] (a node that is not
    an object, or an object without that entry) makes [parse] fail: the
    loop throws when it reaches the node, if not before. *)
Theorem parse_node_without_inputs (exif : Exif.t) (text : string)
    (nodes : list (string * Json)) (id : string) (node : Json) :
  cleanBadJson_of (Exif.prompt exif) = Ok text ->
  JSON.parse text = Ok (JObj nodes) ->
  Obj.get id nodes = Some node ->
  json_prop node "inputs" = None ->
  exists e, parse samplerMap exif = Err e.
Proof.
  intros Ht Hd Hn Hi. unfold parse, classify. rewrite Ht. cbn [bind].
  rewrite Hd. cbn [bind graph_of].
  set (h := List.map (fun kv => (fst kv, inject (snd kv))) nodes).
  destruct (GraphFacts.sweep_without_inputs (List.map fst h) (Acc.init h) id
              (inject node)) as [e ->]; [| | |cbn [bind]; eauto].
  - cbn [Acc.init Acc.prompt]. unfold h.
    now rewrite GraphFacts.get_inject, Hn.
  - intros ps E. destruct node as [| | | | |ms]; try discriminate E.
    cbn [inject] in E. injection E as <-.
    cbn [json_prop] in Hi. now rewrite GraphFacts.get_inject, Hi.
  - apply (GraphFacts.get_some_key id h (inject node)). unfold h.
    now rewrite GraphFacts.get_inject, Hn.
Qed.

End NodeWithoutInputs.

Lemma parse_node_without_inputs_witness :
  exists e,
    parse Sample.samplerMap
      (Exif.mk (VStr (Sample.text "{'1': {'class_type': 'Note'}}")) (VStr "{}"))
    = Err e.
Proof.
  apply (parse_node_without_inputs Sample.samplerMap _
           (Sample.text "{'1': {'class_type': 'Note'}}")
           [("1", JObj [("class_type", JStr "Note")])] "1"
           (JObj [("class_type", JStr "Note")]));
    vm_compute; reflexivity.
Defined.

(** ** The sweep: the edges *)

Module EdgeFacts.

Lemma sequence_keys (h : Heap) (ins ins' : list (string * Value)) :
  JS.sequence (List.map (fun kv =>
      let* v := resolve_edge h (snd kv) in Ok (fst kv, v)) ins) = Ok ins' ->
  List.map fst ins' = List.map fst ins.
Proof.
  revert ins'. induction ins as [|[k v] ins IH]; intros ins' H.
  - now injection H as <-.
  - cbn [List.map JS.sequence fst snd] in H.
    apply bind_inv in H as ([k' v'] & Hv & H).
    apply bind_inv in Hv as (w & _ & [= <- <-]).
    apply bind_inv in H as (rest & Hrest & [= <-]).
    cbn [List.map fst]. f_equal. now apply IH.
Qed.

Lemma resolve_inputs_keys (h : Heap) (ins : list (string * Value))
    (inputs : Value) :
  resolve_inputs h (VObj ins) = Ok inputs ->
  exists ins', inputs = VObj ins' /\ List.map fst ins' = List.map fst ins.
Proof.
  cbn [resolve_inputs]. intros H.
  apply bind_inv in H as (ins' & H & [= <-]).
  exists ins'. split; [reflexivity|]. now apply sequence_keys in H.
Qed.

(** An edge to a node of the graph that is an object, and an edge to a
    node that does not exist. *)
Lemma resolve_edge_node (h : Heap) (key : string) (rest : list Value)
    (node : list (string * Value)) :
  Obj.get key h = Some (VObj node) ->
  resolve_edge h (VArr (VStr key :: rest)) = Ok (VRef key).
Proof.
  intros H. cbn [resolve_edge hd JS.to_string bind]. unfold prompt_get.
  now rewrite H.
Qed.

Lemma resolve_edge_dangling (h : Heap) (key : string) (rest : list Value) :
  Obj.get key h = None -> key ∉ JS.object_prototype_keys ->
  resolve_edge h (VArr (VStr key :: rest)) = Ok VUndef.
Proof.
  intros H Hproto. cbn [resolve_edge hd JS.to_string bind]. unfold prompt_get.
  rewrite H. now rewrite bool_decide_eq_false_2.
Qed.

End EdgeFacts.

Section Edges.

Variables (a a' : Acc.t) (node_id : string).
Variables (ps ins : list (string * Value)).

Hypothesis node_at_id : Obj.get node_id (Acc.prompt a) = Some (VObj ps).
Hypothesis node_inputs : Obj.get "inputs" ps = Some (VObj ins).
Hypothesis visited : visit a node_id = Ok a'.

(** X11. The edges of a node.  The visit keeps the names and the order of
    the inputs of the node; an input that is not an array is kept as it
    is; an input that is an array whose first element is the id of a
    node of the graph becomes a reference to that node (the node itself,
    not a copy), and it becomes [undefined] when the graph has no node
    of that id and the id is not the name of a member of
    [Object.prototype]. *)
Theorem visit_edges :
  exists ins',
    JS.get_prop (Acc.prompt a') (VRef node_id) "inputs" = Ok (VObj ins') /\
    List.map fst ins' = List.map fst ins /\
    forall k v,
      Obj.get k ins = Some v ->
      (match v with VArr _ => False | _ => True end ->
       Obj.get k ins' = Some v) /\
      (forall key rest node,
         v = VArr (VStr key :: rest) ->
         Obj.get key (Acc.prompt a) = Some (VObj node) ->
         Obj.get k ins' = Some (VRef key)) /\
      (forall key rest,
         v = VArr (VStr key :: rest) ->
         Obj.get key (Acc.prompt a) = None ->
         key ∉ JS.object_prototype_keys ->
         Obj.get k ins' = Some VUndef).
Proof.
  destruct (visited_inputs a a' node_id ps node_at_id visited)
    as (inputs & Hin & Hget & _).
  rewrite node_inputs in Hin. cbn [default from_option id] in Hin.
  destruct (EdgeFacts.resolve_inputs_keys _ _ _ Hin) as (ins' & -> & Hkeys).
  apply resolve_inputs_obj in Hin as (ins2 & [= <-] & Hres).
  exists ins'. split; [exact Hget|]. split; [exact Hkeys|].
  intros k v Hk. specialize (Hres k). rewrite Hk in Hres.
  destruct Hres as (v' & Hv' & ->). repeat split.
  - intros Hplain. destruct v; try contradiction; now injection Hv' as <-.
  - intros key rest node -> Hnode.
    rewrite (EdgeFacts.resolve_edge_node _ _ _ _ Hnode) in Hv'.
    now injection Hv' as <-.
  - intros key rest -> Hnone Hproto.
    rewrite (EdgeFacts.resolve_edge_dangling _ _ _ Hnone Hproto) in Hv'.
    now injection Hv' as <-.
Qed.

End Edges.

Lemma visit_edges_witness :
  exists ins',
    JS.get_prop (Acc.prompt (Fixture.visited "5")) (VRef "5") "inputs"
      = Ok (VObj ins') /\
    List.map fst ins' = ["seed"; "model"] /\
    forall k v,
      Obj.get k [("seed", VNum (mkNum false [d7] 1));
                 ("model", VArr [VStr "4"; VNum zero])] = Some v ->
      (match v with VArr _ => False | _ => True end ->
       Obj.get k ins' = Some v) /\
      (forall key rest node,
         v = VArr (VStr key :: rest) ->
         Obj.get key Fixture.loaders = Some (VObj node) ->
         Obj.get k ins' = Some (VRef key)) /\
      (forall key rest,
         v = VArr (VStr key :: rest) ->
         Obj.get key Fixture.loaders = None ->
         key ∉ JS.object_prototype_keys ->
         Obj.get k ins' = Some VUndef).
Proof.
  exact (visit_edges (Acc.init Fixture.loaders) (Fixture.visited "5") "5" _ _
           eq_refl eq_refl eq_refl).
Defined.

(** ** The sweep: the lists and the hashes *)

Module SoundFacts.

Lemma sound_init (h : Heap) : acc_sound (Acc.init h).
Proof.
  split; [split; [reflexivity | constructor]|].
  intros k v H. cbn [Acc.init Acc.hashes] in H.
  rewrite lookup_empty in H. discriminate.
Qed.

Lemma hashes_sound_insert (hs : gmap string Value) (k : string) (v : Value) :
  hashes_sound hs ->
  k = "model" \/ Str.starts_with "lora:" k = true ->
  JS.to_boolean v = true ->
  hashes_sound (<[k:=v]> hs).
Proof.
  intros Hs Hk Hv k' v' H.
  apply lookup_insert_Some in H as [[<- <-]|[_ H]]; [auto | now apply Hs].
Qed.

Lemma resources_sound_lora (models : list string) (rs : list SDResource.t)
    (name : string) (w c hv : Value) :
  resources_sound models rs ->
  resources_sound models (rs ++ [SDResource.mk name "lora" w c hv]).
Proof.
  intros [Hm Ht]. split.
  - rewrite List.filter_app. cbn [List.filter is_model_resource SDResource.type
      String.eqb Ascii.eqb Bool.eqb]. now rewrite app_nil_r.
  - apply Forall_app. split; [exact Ht|]. constructor; [now right | constructor].
Qed.

Lemma resources_sound_model (models : list string) (rs : list SDResource.t)
    (name : string) (w c hv : Value) :
  resources_sound models rs ->
  resources_sound (models ++ [name])
    (rs ++ [SDResource.mk name "model" w c hv]).
Proof.
  intros [Hm Ht]. split.
  - rewrite List.filter_app, List.map_app, <- Hm. reflexivity.
  - apply Forall_app. split; [exact Ht|]. constructor; [now left | constructor].
Qed.

(** The stages of the classification of a node. *)
Lemma stage_sound_lora (b : bool) (h : Heap) (node inputs : Value)
    (x y : Acc.t) :
  (if b then visit_LoraLoader h node inputs x else Ok (Some x)) = Ok (Some y) ->
  acc_sound x -> acc_sound y.
Proof.
  destruct b; [|now intros [= <-]].
  intros H [Hr Hh]. apply visit_LoraLoader_fields in H
    as (strength & clip & lora_hash & name & _ & ->).
  destruct (JS.to_boolean (or_undefined lora_hash)) eqn:E;
    cbn [Acc.push_resource Acc.set_hash acc_sound Acc.models
         Acc.additionalResources Acc.hashes];
    (split; [now apply resources_sound_lora|]); [|exact Hh].
  apply hashes_sound_insert; [exact Hh | now right | exact E].
Qed.

Lemma stage_sound_checkpoint (b : bool) (h : Heap) (node inputs : Value)
    (x y : Acc.t) :
  (if b then visit_CheckpointLoaderSimple h node inputs x else Ok x) = Ok y ->
  acc_sound x -> acc_sound y.
Proof.
  destruct b; [|now intros [= <-]].
  intros H [Hr Hh]. apply visit_CheckpointLoaderSimple_fields in H
    as (name & ckpt_hash & _ & ->).
  destruct (negb (JS.to_boolean (default VUndef (Acc.hashes x !! "model")))
            && JS.to_boolean (or_undefined ckpt_hash)) eqn:E;
    cbn [Acc.push_resource Acc.set_hash Acc.push_model acc_sound Acc.models
         Acc.additionalResources Acc.hashes];
    (split; [now apply resources_sound_model|]); [|exact Hh].
  apply andb_prop in E as [_ E].
  apply hashes_sound_insert; [exact Hh | now left | exact E].
Qed.

Lemma stage_sound_push (b : bool) (h : Heap) (v : Value) (name : string)
    (push : Value -> Acc.t -> Acc.t) (x y : Acc.t) :
  (forall w, acc_sound x -> acc_sound (push w x)) ->
  (if b then let* w := JS.get_prop h v name in Ok (push w x) else Ok x) = Ok y ->
  acc_sound x -> acc_sound y.
Proof.
  intros Hpush. destruct b; [|now intros [= <-]].
  intros H. apply bind_inv in H as (w & _ & [= <-]). apply Hpush.
Qed.

Lemma visit_node_sound (h : Heap) (node inputs : Value) (a a' : Acc.t) :
  visit_node h node inputs a = Ok a' -> acc_sound a -> acc_sound a'.
Proof.
  unfold visit_node. intros H Ha.
  apply bind_inv in H as (class_type & _ & H).
  apply bind_inv in H as (is_advanced & _ & H).
  apply bind_inv in H as (x1 & S1 & H).
  assert (H1 : acc_sound x1).
  { destruct is_advanced; [|now injection S1 as <-].
    apply visit_KSamplerAdvanced_fields in S1 as [s ->]. exact Ha. }
  apply bind_inv in H as (is_sampler & _ & H).
  assert (H2 : acc_sound (if is_sampler then Acc.push_sampler inputs x1 else x1))
    by now destruct is_sampler.
  apply bind_inv in H as (is_lora & _ & H).
  apply bind_inv in H as (lora & S3 & H).
  destruct lora as [x3|]; [|now injection H as <-].
  apply stage_sound_lora in S3; [|exact H2].
  apply bind_inv in H as (is_checkpoint & _ & H).
  apply bind_inv in H as (x4 & S4 & H).
  apply stage_sound_checkpoint in S4; [|exact S3].
  apply bind_inv in H as (is_upscaler & _ & H).
  apply bind_inv in H as (x5 & S5 & H).
  apply stage_sound_push in S5; [|now intros w|exact S4].
  apply bind_inv in H as (is_vae & _ & H).
  apply bind_inv in H as (x6 & S6 & H).
  apply stage_sound_push in S6; [|now intros w|exact S5].
  apply bind_inv in H as (is_controlnet & _ & H).
  apply stage_sound_push in H; [exact H | now intros w | exact S6].
Qed.

Lemma visit_sound (a a' : Acc.t) (id : string) :
  visit a id = Ok a' -> acc_sound a -> acc_sound a'.
Proof.
  intros H Ha. apply VisitFacts.visit_inv in H as (ps & inputs & _ & _ & _ & Hv).
  now apply visit_node_sound in Hv.
Qed.

Lemma sweep_sound (ids : list string) :
  forall a a', sweep a ids = Ok a' -> acc_sound a -> acc_sound a'.
Proof.
  induction ids as [|id ids IH]; intros a a' H Ha; cbn [sweep] in H.
  - now injection H as <-.
  - apply bind_inv in H as (a1 & H1 & H).
    eapply IH; [exact H | eapply visit_sound; eassumption].
Qed.

End SoundFacts.

(** ** The record [parse] returns *)

Section Record.

Variable samplerMap : list (string * string).

(** [a1111Compatability] rewrites the sampler name and the field
    [Model], and nothing else. *)
Lemma a1111Compatability_fields (h : Heap) (m m' : ImageMetaProps) :
  a1111Compatability samplerMap h m = Ok m' ->
  exists sampler,
    m' = Meta.mk (Meta.prompt m) (Meta.negativePrompt m) (Meta.cfgScale m)
           (Meta.steps m) (Meta.seed m) sampler (Meta.scheduler m)
           (Meta.denoise m) (Meta.width m) (Meta.height m) (Meta.hashes m)
           (Meta.models m) (Meta.upscalers m) (Meta.vaes m)
           (Meta.additionalResources m) (Meta.controlNets m)
           (Meta.versionIds m) (Meta.modelIds m) (Meta.comfy m)
           (match Meta.models m with
            | x :: _ => VStr (strip_ext x)
            | [] => Meta.Model m
            end)
           (Meta.Model_hash m).
Proof.
  unfold a1111Compatability. intros H.
  apply bind_inv in H as (is_karras & _ & H).
  apply bind_inv in H as (found & _ & [= <-]).
  eexists. reflexivity.
Qed.

(** The steps of a call of [parse] that returns a record. *)
Lemma parse_steps (exif : Exif.t) (r : ImageMetaProps) :
  parse samplerMap exif = Ok r ->
  exists text doc h a sampler workflow ids,
    cleanBadJson_of (Exif.prompt exif) = Ok text /\
    JSON.parse text = Ok doc /\
    graph_of doc = Ok h /\
    sweep (Acc.init h) (List.map fst h) = Ok a /\
    initialSamplerNode (Acc.prompt a) (Acc.samplerNodes a) = Ok sampler /\
    decode_workflow exif = Ok workflow /\
    scan_extras workflow = Ok ids /\
    build samplerMap doc a sampler workflow ids = Ok r.
Proof.
  unfold parse, classify. intros H.
  apply bind_inv in H as ([doc a] & Hcl & H).
  apply bind_inv in Hcl as (text & Ht & Hcl).
  apply bind_inv in Hcl as (doc' & Hd & Hcl).
  apply bind_inv in Hcl as (h & Hh & Hcl).
  apply bind_inv in Hcl as (a' & Ha & [= <- <-]).
  apply bind_inv in H as (sampler & Hs & H).
  apply bind_inv in H as (workflow & Hw & H).
  apply bind_inv in H as (ids & Hi & H).
  exists text, doc', h, a', sampler, workflow, ids. auto 10.
Qed.

(** The fields of the record, read off the state of the sweep and the
    canonical sampler. *)
Lemma build_fields (doc : Json) (a : Acc.t) (sampler : Value)
    (workflow : Json) (ids : list JsInt * list JsInt) (r : ImageMetaProps) :
  build samplerMap doc a sampler workflow ids = Ok r ->
  let h := Acc.prompt a in
  let depth := S (heap_size h) in
  let model_resource :=
    List.find is_model_resource (Acc.additionalResources a) in
  exists positive prompt negative positive_class,
    JS.get_prop h sampler "positive" = Ok positive /\
    getPromptText depth h positive = Ok prompt /\
    JS.get_prop h sampler "negative" = Ok negative /\
    getPromptText depth h negative = Ok (Meta.negativePrompt r) /\
    JS.get_prop h sampler "cfg" = Ok (Meta.cfgScale r) /\
    JS.get_prop h sampler "steps" = Ok (Meta.steps r) /\
    JS.get_prop h sampler "seed" = Ok (Meta.seed r) /\
    JS.get_prop h sampler "scheduler" = Ok (Meta.scheduler r) /\
    JS.get_prop h sampler "denoise" = Ok (Meta.denoise r) /\
    JS.get_prop h positive "class_type" = Ok positive_class /\
    (if JS.strict_eq positive_class (VStr "ControlNetApply") then
       let* positive_inputs := JS.get_prop h positive "inputs" in
       let* conditioningNode := JS.get_prop h positive_inputs "conditioning" in
       let* conditioning_inputs := JS.get_prop h conditioningNode "inputs" in
       JS.get_prop h conditioning_inputs "text"
     else Ok prompt) = Ok (Meta.prompt r) /\
    Meta.hashes r = Acc.hashes a /\
    Meta.models r = Acc.models a /\
    Meta.upscalers r = Acc.upscalers a /\
    Meta.vaes r = Acc.vaes a /\
    Meta.additionalResources r = Acc.additionalResources a /\
    Meta.controlNets r = Acc.controlNets a /\
    Meta.versionIds r = fst ids /\
    Meta.modelIds r = snd ids /\
    Meta.Model r =
      match Acc.models a with
      | x :: _ => VStr (strip_ext x)
      | [] => match model_resource with
              | Some res => VStr (SDResource.name res)
              | None => VUndef
              end
      end /\
    Meta.Model_hash r =
      match model_resource with
      | Some res => SDResource.hash res
      | None => VUndef
      end.
Proof.
  unfold build. intros H.
  apply bind_inv in H as (positive & Hpos & H).
  apply bind_inv in H as (prompt & Hprompt & H).
  apply bind_inv in H as (negative & Hneg & H).
  apply bind_inv in H as (negativePrompt & Hnegp & H).
  apply bind_inv in H as (cfg & Hcfg & H).
  apply bind_inv in H as (steps & Hsteps & H).
  apply bind_inv in H as (seed & Hseed & H).
  apply bind_inv in H as (sampler_name & _ & H).
  apply bind_inv in H as (scheduler & Hsched & H).
  apply bind_inv in H as (denoise & Hden & H).
  apply bind_inv in H as (latent_image & _ & H).
  apply bind_inv in H as (latent_inputs & _ & H).
  apply bind_inv in H as (width & _ & H).
  apply bind_inv in H as (latent_image' & _ & H).
  apply bind_inv in H as (latent_inputs' & _ & H).
  apply bind_inv in H as (height & _ & H).
  apply bind_inv in H as (comfy & _ & H).
  apply bind_inv in H as (positive_class & Hclass & H).
  apply bind_inv in H as (prompt' & Hprompt' & H).
  apply a1111Compatability_fields in H as (s & ->).
  cbn [Meta.prompt Meta.negativePrompt Meta.cfgScale Meta.steps Meta.seed
       Meta.scheduler Meta.denoise Meta.hashes Meta.models Meta.upscalers
       Meta.vaes Meta.additionalResources Meta.controlNets Meta.versionIds
       Meta.modelIds Meta.Model Meta.Model_hash].
  exists positive, prompt, negative, positive_class.
  repeat (split; [first [assumption | reflexivity]|]).
  reflexivity.
Qed.

End Record.

Module RecordFacts.

Lemma find_filter {A : Type} (p : A -> bool) (l : list A) :
  List.find p l = hd_error (List.filter p l).
Proof.
  induction l as [|x l IH]; [reflexivity|]. cbn [List.find List.filter].
  now destruct (p x).
Qed.

End RecordFacts.

(** Rewriting with the equations that give the fields of the record. *)
Ltac record_fields r :=
  repeat match goal with
         | E : Meta.models r = _ |- _ => rewrite E; clear E
         | E : Meta.additionalResources r = _ |- _ => rewrite E; clear E
         | E : Meta.hashes r = _ |- _ => rewrite E; clear E
         | E : Meta.Model r = _ |- _ => rewrite E; clear E
         | E : Meta.Model_hash r = _ |- _ => rewrite E; clear E
         end.

Section RecordProperties.

Variable samplerMap : list (string * string).
Variables (exif : Exif.t) (r : ImageMetaProps).

Hypothesis parsed : parse samplerMap exif = Ok r.

(** The state of the sweep behind the record. *)
Lemma parsed_sweep :
  exists doc a sampler workflow ids,
    acc_sound a /\
    initialSamplerNode (Acc.prompt a) (Acc.samplerNodes a) = Ok sampler /\
    decode_workflow exif = Ok workflow /\
    scan_extras workflow = Ok ids /\
    build samplerMap doc a sampler workflow ids = Ok r.
Proof.
  destruct (parse_steps samplerMap exif r parsed)
    as (text & doc & h & a & sampler & workflow & ids
        & _ & _ & _ & Hsweep & Hs & Hw & Hi & Hb).
  exists doc, a, sampler, workflow, ids.
  split; [|now repeat split].
  eapply SoundFacts.sweep_sound; [exact Hsweep | apply SoundFacts.sound_init].
Qed.

(** X12. In a record [parse] returns, [models] lists the names of the
    resource references of type [model], in their order, and every
    resource reference is of type [model] or [lora]. *)
Theorem parse_resources :
  resources_sound (Meta.models r) (Meta.additionalResources r).
Proof.
  destruct parsed_sweep as (doc & a & sampler & workflow & ids
                            & [Hr _] & _ & _ & _ & Hb).
  apply build_fields in Hb
    as (positive & prompt & negative & positive_class & Hb).
  decompose [and] Hb. clear Hb. record_fields r. assumption.
Qed.

(** X13. In a record [parse] returns, every entry of [hashes] is stored
    under the key [model] or under a key that begins with [lora:], and
    holds a truthy value. *)
Theorem parse_hashes : hashes_sound (Meta.hashes r).
Proof.
  destruct parsed_sweep as (doc & a & sampler & workflow & ids
                            & [_ Hh] & _ & _ & _ & Hb).
  apply build_fields in Hb
    as (positive & prompt & negative & positive_class & Hb).
  decompose [and] Hb. clear Hb. record_fields r. assumption.
Qed.

(** X14. In a record [parse] returns, [Model] and [Model hash] describe
    the first resource reference of type [model]: [Model] is its name,
    which is the first of [models], with one more extension removed, and
    [Model hash] is its hash.  Both are [undefined] when there is no such
    resource reference. *)
Theorem parse_model_fields :
  match List.filter is_model_resource (Meta.additionalResources r) with
  | res :: _ =>
      hd_error (Meta.models r) = Some (SDResource.name res) /\
      Meta.Model r = VStr (strip_ext (SDResource.name res)) /\
      Meta.Model_hash r = SDResource.hash res
  | [] =>
      Meta.models r = [] /\ Meta.Model r = VUndef /\ Meta.Model_hash r = VUndef
  end.
Proof.
  destruct parsed_sweep as (doc & a & sampler & workflow & ids
                            & [[Hm _] _] & _ & _ & _ & Hb).
  apply build_fields in Hb
    as (positive & prompt & negative & positive_class & Hb).
  decompose [and] Hb. clear Hb.
  record_fields r.
  rewrite RecordFacts.find_filter, Hm.
  destruct (List.filter is_model_resource (Acc.additionalResources a))
    as [|res rest]; cbn [List.map hd_error]; auto.
Qed.

(** X15. In a record [parse] returns, [cfgScale], [steps], [seed],
    [scheduler] and [denoise] are the entries [cfg], [steps], [seed],
    [scheduler] and [denoise] of the canonical sampler. *)
Theorem parse_sampler_fields :
  exists doc a sampler,
    classify exif = Ok (doc, a) /\
    initialSamplerNode (Acc.prompt a) (Acc.samplerNodes a) = Ok sampler /\
    JS.get_prop (Acc.prompt a) sampler "cfg" = Ok (Meta.cfgScale r) /\
    JS.get_prop (Acc.prompt a) sampler "steps" = Ok (Meta.steps r) /\
    JS.get_prop (Acc.prompt a) sampler "seed" = Ok (Meta.seed r) /\
    JS.get_prop (Acc.prompt a) sampler "scheduler" = Ok (Meta.scheduler r) /\
    JS.get_prop (Acc.prompt a) sampler "denoise" = Ok (Meta.denoise r).
Proof.
  destruct (parse_steps samplerMap exif r parsed)
    as (text & doc & h & a & sampler & workflow & ids
        & Ht & Hd & Hh & Hsweep & Hs & _ & _ & Hb).
  apply build_fields in Hb
    as (positive & prompt & negative & positive_class & Hb).
  decompose [and] Hb. clear Hb.
  exists doc, a, sampler. repeat split; try assumption.
  unfold classify. rewrite Ht. cbn [bind]. rewrite Hd. cbn [bind].
  rewrite Hh. cbn [bind]. now rewrite Hsweep.
Qed.

(** X16. In a record [parse] returns, [negativePrompt] is the prompt text
    of the [negative] node of the canonical sampler.  [prompt] is the
    prompt text of its [positive] node, unless the type tag of that node
    is the string [ControlNetApply]: then [prompt] is the [text] input of
    the node wired to its [conditioning] input, as it is. *)
Theorem parse_prompt_source :
  exists doc a sampler positive negative positive_class,
    classify exif = Ok (doc, a) /\
    initialSamplerNode (Acc.prompt a) (Acc.samplerNodes a) = Ok sampler /\
    let h := Acc.prompt a in
    let depth := S (heap_size h) in
    JS.get_prop h sampler "negative" = Ok negative /\
    getPromptText depth h negative = Ok (Meta.negativePrompt r) /\
    JS.get_prop h sampler "positive" = Ok positive /\
    JS.get_prop h positive "class_type" = Ok positive_class /\
    if JS.strict_eq positive_class (VStr "ControlNetApply") then
      exists inputs conditioning conditioning_inputs,
        JS.get_prop h positive "inputs" = Ok inputs /\
        JS.get_prop h inputs "conditioning" = Ok conditioning /\
        JS.get_prop h conditioning "inputs" = Ok conditioning_inputs /\
        JS.get_prop h conditioning_inputs "text" = Ok (Meta.prompt r)
    else getPromptText depth h positive = Ok (Meta.prompt r).
Proof.
  destruct (parse_steps samplerMap exif r parsed)
    as (text & doc & h & a & sampler & workflow & ids
        & Ht & Hd & Hh & Hsweep & Hs & _ & _ & Hb).
  apply build_fields in Hb
    as (positive & prompt & negative & positive_class & Hb).
  destruct Hb as (Hpos & Hprompt & Hneg & Hnegp & _ & _ & _ & _ & _
                  & Hclass & Hover & _).
  exists doc, a, sampler, positive, negative, positive_class.
  split.
  { unfold classify. rewrite Ht. cbn [bind]. rewrite Hd. cbn [bind].
    rewrite Hh. cbn [bind]. now rewrite Hsweep. }
  split; [exact Hs|]. cbv zeta.
  repeat (split; [assumption|]).
  destruct (JS.strict_eq positive_class (VStr "ControlNetApply")).
  - apply bind_inv in Hover as (inputs & Hi & Hover).
    apply bind_inv in Hover as (conditioning & Hc & Hover).
    apply bind_inv in Hover as (conditioning_inputs & Hci & Hover).
    eauto 10.
  - now injection Hover as <-.
Qed.

(** X17. In a record [parse] returns, [versionIds] and [modelIds] are
    what the scan of the [extra] block of the decoded workflow yields;
    they are empty when the workflow has no truthy [extra]. *)
Theorem parse_ids :
  exists workflow,
    decode_workflow exif = Ok workflow /\
    scan_extras workflow = Ok (Meta.versionIds r, Meta.modelIds r) /\
    (match json_prop workflow "extra" with
     | Some extra => json_truthy extra = false
     | None => True
     end ->
     Meta.versionIds r = [] /\ Meta.modelIds r = []).
Proof.
  destruct (parse_steps samplerMap exif r parsed)
    as (text & doc & h & a & sampler & workflow & ids
        & _ & _ & _ & _ & _ & Hw & Hi & Hb).
  apply build_fields in Hb
    as (positive & prompt & negative & positive_class & Hb).
  decompose [and] Hb. clear Hb.
  exists workflow. split; [exact Hw|].
  assert (E : scan_extras workflow = Ok (Meta.versionIds r, Meta.modelIds r)).
  { rewrite Hi. destruct ids. cbn [fst snd] in *. congruence. }
  split; [exact E|].
  intros Hno. unfold scan_extras in E.
  destruct (json_prop workflow "extra") as [extra|].
  - rewrite Hno in E. now injection E as <- <-.
  - now injection E as <- <-.
Qed.

End RecordProperties.

Lemma parse_resources_witness :
  resources_sound (Meta.models Fixture.record_full)
    (Meta.additionalResources Fixture.record_full).
Proof.
  apply (parse_resources Sample.samplerMap Fixture.exif_full).
  vm_compute. reflexivity.
Defined.

Lemma parse_hashes_witness : hashes_sound (Meta.hashes Fixture.record_full).
Proof.
  apply (parse_hashes Sample.samplerMap Fixture.exif_full).
  vm_compute. reflexivity.
Defined.

Lemma parse_model_fields_witness :
  match List.filter is_model_resource
          (Meta.additionalResources Fixture.record_full) with
  | res :: _ =>
      hd_error (Meta.models Fixture.record_full) = Some (SDResource.name res) /\
      Meta.Model Fixture.record_full = VStr (strip_ext (SDResource.name res)) /\
      Meta.Model_hash Fixture.record_full = SDResource.hash res
  | [] =>
      Meta.models Fixture.record_full = [] /\
      Meta.Model Fixture.record_full = VUndef /\
      Meta.Model_hash Fixture.record_full = VUndef
  end.
Proof.
  apply (parse_model_fields Sample.samplerMap Fixture.exif_full).
  vm_compute. reflexivity.
Defined.

Lemma parse_sampler_fields_witness :
  exists doc a sampler,
    classify Fixture.exif_full = Ok (doc, a) /\
    initialSamplerNode (Acc.prompt a) (Acc.samplerNodes a) = Ok sampler /\
    JS.get_prop (Acc.prompt a) sampler "cfg"
      = Ok (Meta.cfgScale Fixture.record_full) /\
    JS.get_prop (Acc.prompt a) sampler "steps"
      = Ok (Meta.steps Fixture.record_full) /\
    JS.get_prop (Acc.prompt a) sampler "seed"
      = Ok (Meta.seed Fixture.record_full) /\
    JS.get_prop (Acc.prompt a) sampler "scheduler"
      = Ok (Meta.scheduler Fixture.record_full) /\
    JS.get_prop (Acc.prompt a) sampler "denoise"
      = Ok (Meta.denoise Fixture.record_full).
Proof.
  apply (parse_sampler_fields Sample.samplerMap Fixture.exif_full).
  vm_compute. reflexivity.
Defined.

Lemma parse_prompt_source_witness :
  exists doc a sampler positive negative positive_class,
    classify Fixture.exif_full = Ok (doc, a) /\
    initialSamplerNode (Acc.prompt a) (Acc.samplerNodes a) = Ok sampler /\
    let h := Acc.prompt a in
    let depth := S (heap_size h) in
    JS.get_prop h sampler "negative" = Ok negative /\
    getPromptText depth h negative
      = Ok (Meta.negativePrompt Fixture.record_full) /\
    JS.get_prop h sampler "positive" = Ok positive /\
    JS.get_prop h positive "class_type" = Ok positive_class /\
    if JS.strict_eq positive_class (VStr "ControlNetApply") then
      exists inputs conditioning conditioning_inputs,
        JS.get_prop h positive "inputs" = Ok inputs /\
        JS.get_prop h inputs "conditioning" = Ok conditioning /\
        JS.get_prop h conditioning "inputs" = Ok conditioning_inputs /\
        JS.get_prop h conditioning_inputs "text"
          = Ok (Meta.prompt Fixture.record_full)
    else getPromptText depth h positive = Ok (Meta.prompt Fixture.record_full).
Proof.
  apply (parse_prompt_source Sample.samplerMap Fixture.exif_full).
  vm_compute. reflexivity.
Defined.

Lemma parse_ids_witness :
  exists workflow,
    decode_workflow Sample.exif_zero = Ok workflow /\
    scan_extras workflow
      = Ok (Meta.versionIds Sample.record_zero, Meta.modelIds Sample.record_zero) /\
    (match json_prop workflow "extra" with
     | Some extra => json_truthy extra = false
     | None => True
     end ->
     Meta.versionIds Sample.record_zero = [] /\
     Meta.modelIds Sample.record_zero = []).
Proof.
  apply (parse_ids Sample.samplerMap Sample.exif_zero).
  vm_compute. reflexivity.
Defined.

(** The record of the graph with a checkpoint loader in a directory: the
    name of the model loses the directory and one extension, and [Model]
    one more. *)
Example record_full_model :
  Meta.models Fixture.record_full = ["base.v1"] /\
  Meta.Model Fixture.record_full = VStr "base" /\
  Meta.Model_hash Fixture.record_full = VStr "31e35c80fc" /\
  Meta.prompt Fixture.record_full = VStr "a cat" /\
  Meta.versionIds Fixture.record_full = [Some 202] /\
  Meta.modelIds Fixture.record_full = [Some 303].
Proof. vm_compute. repeat split. Qed.

(** ** The ids of the workflow *)

Module AirFacts.
Import Str.

(** The digits after a digit other than a leading zero. *)
Lemma digits_value_acc (ds : list digit) (acc : positive) :
  digits_value 10 (Some (Z.pos acc)) (Dec.chars ds)
  = Some (Z.pos (Pos.of_uint_acc (Dec.to_uint ds) acc)).
Proof.
  revert acc. induction ds as [|d ds IH]; intros acc; [reflexivity|].
  destruct d; cbn [Dec.chars Dec.to_ascii Dec.to_uint Pos.of_uint_acc];
    unfold digits_value; fold digits_value;
    match goal with
    | |- context [JSON.hex_value ?c] =>
        let v := eval vm_compute in (JSON.hex_value c) in
        change (JSON.hex_value c) with v
    end;
    cbv beta iota;
    match goal with
    | |- context [(Z.of_N ?k <? 10)] =>
        change (Z.of_N k <? 10) with true
    end;
    cbv iota; cbn [default from_option id];
    rewrite <- IH; do 2 f_equal; lia.
Qed.

Lemma digits_value_zero (ds : list digit) :
  digits_value 10 (Some 0) (Dec.chars ds) = Some (Z.of_N (Dec.to_N ds)).
Proof.
  unfold Dec.to_N, N.of_uint.
  induction ds as [|d ds IH]; [reflexivity|].
  destruct d; cbn [Dec.chars Dec.to_ascii Dec.to_uint Pos.of_uint];
    unfold digits_value; fold digits_value;
    match goal with
    | |- context [JSON.hex_value ?c] =>
        let v := eval vm_compute in (JSON.hex_value c) in
        change (JSON.hex_value c) with v
    end;
    cbv beta iota;
    match goal with
    | |- context [(Z.of_N ?k <? 10)] =>
        change (Z.of_N k <? 10) with true
    end;
    cbv iota; cbn [default from_option id];
    first [exact IH | apply digits_value_acc].
Qed.

Lemma digits_value_digits (ds : list digit) :
  ds <> [] -> digits_value 10 None (Dec.chars ds) = Some (Z.of_N (Dec.to_N ds)).
Proof.
  destruct ds as [|d ds]; [congruence|]. intros _.
  rewrite <- (digits_value_zero (d :: ds)).
  destruct d; reflexivity.
Qed.

Lemma no_white_space (d : digit) (r : string) :
  first_prefix white_space (String (Dec.to_ascii d) r) = None.
Proof. destruct d; reflexivity. Qed.

Lemma trim_start_digits (d : digit) (r : string) (fuel : nat) :
  trim_start fuel (String (Dec.to_ascii d) r) = String (Dec.to_ascii d) r.
Proof. destruct fuel; cbn [trim_start]; [|rewrite no_white_space]; reflexivity. Qed.

(** [parseInt] reads a decimal text. *)
Lemma parseInt_digits (ds : list digit) :
  ds <> [] -> (Dec.to_N ds <= 2 ^ 53)%N ->
  parseInt (Dec.chars ds) = Ok (Some (Z.of_N (Dec.to_N ds))).
Proof.
  intros Hne Hle. pose proof (digits_value_digits ds Hne) as Hv.
  assert (Hb : (Z.of_N (Dec.to_N ds) <=? 2 ^ 53) = true)
    by (apply Z.leb_le; lia).
  destruct ds as [|d ds]; [congruence|]. unfold parseInt.
  cbn [Dec.chars] in *. rewrite trim_start_digits.
  destruct d;
    try (cbn [Dec.to_ascii] in *; cbv beta iota zeta; rewrite Hv;
         cbv beta iota; now rewrite Hb).
  destruct ds as [|d' ds];
    [cbn [Dec.to_ascii Dec.chars] in *; cbv beta iota zeta; rewrite Hv;
     cbv beta iota; now rewrite Hb|].
  cbn [Dec.to_ascii Dec.chars] in *.
  destruct d'; cbn [Dec.to_ascii] in *; cbv beta iota zeta;
    cbn [Ascii.eqb Bool.eqb orb]; cbv beta iota zeta; rewrite Hv;
    cbv beta iota; now rewrite Hb.
Qed.

Lemma parseInt_decimal (n : N) :
  (n < 2 ^ 53)%N -> parseInt (decimal n) = Ok (Some (Z.of_N n)).
Proof.
  intros Hn. unfold decimal. rewrite parseInt_digits.
  - now rewrite NumFacts.to_N_of_N.
  - apply NumFacts.of_N_not_nil.
  - rewrite NumFacts.to_N_of_N. lia.
Qed.

Lemma split_on_digits (ds : list digit) :
  split_on "@" (Dec.chars ds) = [Dec.chars ds].
Proof.
  induction ds as [|d ds IH]; [reflexivity|]. cbn [Dec.chars split_on].
  rewrite IH. now destruct d.
Qed.

Lemma split_on_pair (a b : list digit) :
  split_on "@" (Dec.chars a +:+ String "@" (Dec.chars b))
  = [Dec.chars a; Dec.chars b].
Proof.
  induction a as [|d a IH].
  - cbn [Dec.chars String.append split_on Ascii.eqb Bool.eqb].
    now rewrite split_on_digits.
  - cbn [Dec.chars String.append split_on]. rewrite IH. now destruct d.
Qed.

Lemma decimal_not_empty (n : N) : String.eqb (decimal n) "" = false.
Proof.
  unfold decimal. pose proof (NumFacts.of_N_not_nil n) as H.
  now destruct (Dec.of_N n).
Qed.

End AirFacts.

(** X18. An entry [<model id>@<version id>] of the resource lists of the
    workflow, with ids in decimal that a double holds exactly (below
    [2^53]), yields the version id and no model id; an entry that is a
    model id alone yields that model id. *)
Theorem scan_air_decimal (ids : list JsInt * list JsInt) (m v : N) :
  (m < 2 ^ 53)%N -> (v < 2 ^ 53)%N ->
  scan_air ids (JStr (decimal m +:+ "@" +:+ decimal v))
    = Ok (fst ids ++ [Some (Z.of_N v)], snd ids) /\
  scan_air ids (JStr (decimal m))
    = Ok (fst ids, snd ids ++ [Some (Z.of_N m)]).
Proof.
  intros Hm Hv.
  assert (E2 : Str.split_on "@" (decimal m +:+ "@" +:+ decimal v)
               = [decimal m; decimal v])
    by exact (AirFacts.split_on_pair (Dec.of_N m) (Dec.of_N v)).
  assert (E1 : Str.split_on "@" (decimal m) = [decimal m])
    by exact (AirFacts.split_on_digits (Dec.of_N m)).
  unfold scan_air. rewrite E1, E2. cbn [hd tl String.eqb negb].
  rewrite !AirFacts.decimal_not_empty. cbn [negb].
  now rewrite (AirFacts.parseInt_decimal m Hm), (AirFacts.parseInt_decimal v Hv).
Qed.

Lemma scan_air_decimal_witness :
  scan_air ([], []) (JStr "101@202") = Ok ([Some 202], []) /\
  scan_air ([], []) (JStr "101") = Ok ([], [Some 101]).
Proof.
  apply (scan_air_decimal ([], []) 101 202); reflexivity.
Defined.

(** ** [encode] on a decoded payload *)

Module EncodeFacts.


End EncodeFacts.



(** ** The sweep: a LoRA loader without strength *)

Section LoraWithoutStrength.

Variables (a a' : Acc.t) (node_id : string).
Variables (ps ins : list (string * Value)) (lora_name : string).

Hypothesis node_at_id : Obj.get node_id (Acc.prompt a) = Some (VObj ps).
Hypothesis node_class : Obj.get "class_type" ps = Some (VStr "LoraLoader").
Hypothesis node_inputs : Obj.get "inputs" ps = Some (VObj ins).
Hypothesis no_strength : Obj.get "strength_model" ins = None.
Hypothesis input_name : Obj.get "lora_name" ins = Some (VStr lora_name).
Hypothesis visited : visit a node_id = Ok a'.

(** X20. A LoRA loader without [strength_model] input is not skipped:
    the comparisons of [undefined] with the thresholds are false, and the
    node contributes a resource reference whose weight is [undefined]. *)
Theorem visit_lora_without_strength :
  let name := modelFileName lora_name in
  let hash_value := or_undefined (default VUndef (Obj.get "lora_hash" ps)) in
  let seen := Acc.set_prompt (Acc.prompt a') a in
  exists strength_clip,
    resolve_edge (Acc.prompt a) (default VUndef (Obj.get "strength_clip" ins))
      = Ok strength_clip /\
    a' = Acc.push_resource
           (SDResource.mk name "lora" VUndef strength_clip hash_value)
           (if JS.to_boolean hash_value
            then Acc.set_hash ("lora:" +:+ name) hash_value seen
            else seen).
Proof.
  destruct (visited_inputs a a' node_id ps node_at_id visited)
    as (inputs & Hin & _ & Hv).
  rewrite node_inputs in Hin. cbn [default from_option id] in Hin.
  apply resolve_inputs_obj in Hin as (ins' & -> & Hget).
  rewrite visit_node_lora in Hv
    by now rewrite VisitFacts.class_type_kept, node_class.
  apply bind_inv in Hv as (lora & Hl & [= Hv]).
  unfold visit_LoraLoader in Hl.
  pose proof (Hget "strength_model") as Hs. rewrite no_strength in Hs.
  pose proof (Hget "lora_name") as Hn. rewrite input_name in Hn.
  destruct Hn as (n' & En & Hn). cbn [resolve_edge] in En. injection En as <-.
  pose proof (Hget "strength_clip") as Hc.
  cbn [JS.get_prop JS.deref bind] in Hl.
  rewrite Hs in Hl.
  cbn [from_option id JS.lt_const JS.gt_const JS.to_number bind andb] in Hl.
  rewrite Hn in Hl. rewrite ObjFacts.get_replace_ne in Hl by discriminate.
  cbn [from_option id modelFileName_of bind] in Hl.
  injection Hl as <-. cbv zeta.
  exists (default VUndef (Obj.get "strength_clip" ins')). split.
  - destruct (Obj.get "strength_clip" ins) as [c|].
    + destruct Hc as (c' & Hc1 & ->). exact Hc1.
    + rewrite Hc. reflexivity.
  - now symmetry.
Qed.

End LoraWithoutStrength.

Lemma visit_lora_without_strength_witness :
  exists strength_clip,
    resolve_edge Fixture.loaders VUndef = Ok strength_clip /\
    Fixture.visited "12"
    = Acc.push_resource
        (SDResource.mk "ink" "lora" VUndef strength_clip (VStr "ff"))
        (Acc.set_hash "lora:ink" (VStr "ff")
           (Acc.set_prompt (Acc.prompt (Fixture.visited "12"))
              (Acc.init Fixture.loaders))).
Proof.
  exact (visit_lora_without_strength (Acc.init Fixture.loaders)
           (Fixture.visited "12") "12" _ _ "loras/ink.safetensors"
           eq_refl eq_refl eq_refl eq_refl eq_refl eq_refl).
Defined.

(** ** The payload of the record *)

Section Payload.

Variable samplerMap : list (string * string).


End Payload.


(** ** The sweep: the order of the lists *)

Module GrowFacts.

Lemma grows_refl (a : Acc.t) : acc_grows a a.
Proof. now repeat split. Qed.

Lemma grows_trans (a b c : Acc.t) : acc_grows a b -> acc_grows b c -> acc_grows a c.
Proof.
  intros (S1 & M1 & U1 & V1 & C1 & R1) (S2 & M2 & U2 & V2 & C2 & R2).
  repeat split; etransitivity; eassumption.
Qed.

Ltac grows_step :=
  repeat split;
  cbn [Acc.push_sampler Acc.push_model Acc.push_upscaler Acc.push_vae
       Acc.push_controlNet Acc.push_resource Acc.set_hash Acc.set_prompt
       Acc.samplerNodes Acc.models Acc.upscalers Acc.vaes Acc.controlNets
       Acc.additionalResources];
  first [reflexivity | apply prefix_app_r; reflexivity].

Lemma grows_push_sampler (x : Value) (a : Acc.t) : acc_grows a (Acc.push_sampler x a).
Proof. grows_step. Qed.

Lemma grows_push_model (x : string) (a : Acc.t) : acc_grows a (Acc.push_model x a).
Proof. grows_step. Qed.

Lemma grows_push_upscaler (x : Value) (a : Acc.t) :
  acc_grows a (Acc.push_upscaler x a).
Proof. grows_step. Qed.

Lemma grows_push_vae (x : Value) (a : Acc.t) : acc_grows a (Acc.push_vae x a).
Proof. grows_step. Qed.

Lemma grows_push_controlNet (x : Value) (a : Acc.t) :
  acc_grows a (Acc.push_controlNet x a).
Proof. grows_step. Qed.

Lemma grows_push_resource (x : SDResource.t) (a : Acc.t) :
  acc_grows a (Acc.push_resource x a).
Proof. grows_step. Qed.

Lemma grows_set_hash (k : string) (v : Value) (a : Acc.t) :
  acc_grows a (Acc.set_hash k v a).
Proof. grows_step. Qed.

Lemma grows_set_prompt (h : Heap) (a : Acc.t) : acc_grows a (Acc.set_prompt h a).
Proof. grows_step. Qed.

Lemma stage_grows_push (b : bool) (h : Heap) (v : Value) (name : string)
    (push : Value -> Acc.t -> Acc.t) (x y : Acc.t) :
  (forall w, acc_grows x (push w x)) ->
  (if b then let* w := JS.get_prop h v name in Ok (push w x) else Ok x) = Ok y ->
  acc_grows x y.
Proof.
  intros Hpush. destruct b; [|intros [= <-]; apply grows_refl].
  intros H. apply bind_inv in H as (w & _ & [= <-]). apply Hpush.
Qed.

Lemma visit_node_grows (h : Heap) (node inputs : Value) (a a' : Acc.t) :
  visit_node h node inputs a = Ok a' -> acc_grows a a'.
Proof.
  unfold visit_node. intros H.
  apply bind_inv in H as (class_type & _ & H).
  apply bind_inv in H as (is_advanced & _ & H).
  apply bind_inv in H as (x1 & S1 & H).
  assert (G1 : acc_grows a x1).
  { destruct is_advanced; [|injection S1 as <-; apply grows_refl].
    apply visit_KSamplerAdvanced_fields in S1 as [s ->].
    apply grows_push_sampler. }
  apply bind_inv in H as (is_sampler & _ & H).
  assert (G2 : acc_grows a (if is_sampler then Acc.push_sampler inputs x1 else x1)).
  { destruct is_sampler; [|exact G1].
    eapply grows_trans; [exact G1 | apply grows_push_sampler]. }
  apply bind_inv in H as (is_lora & _ & H).
  apply bind_inv in H as (lora & S3 & H).
  destruct lora as [x3|]; [|now injection H as <-].
  assert (G3 : acc_grows a x3).
  { destruct is_lora; [|now injection S3 as <-].
    apply visit_LoraLoader_fields in S3
      as (strength & clip & lora_hash & name & _ & ->).
    eapply grows_trans; [exact G2|].
    eapply grows_trans; [|apply grows_push_resource].
    destruct (JS.to_boolean (or_undefined lora_hash));
      [apply grows_set_hash | apply grows_refl]. }
  apply bind_inv in H as (is_checkpoint & _ & H).
  apply bind_inv in H as (x4 & S4 & H).
  assert (G4 : acc_grows a x4).
  { destruct is_checkpoint; [|now injection S4 as <-].
    apply visit_CheckpointLoaderSimple_fields in S4
      as (name & ckpt_hash & _ & ->).
    eapply grows_trans; [exact G3|].
    eapply grows_trans; [|apply grows_push_resource].
    eapply grows_trans; [apply (grows_push_model name)|].
    destruct (negb _ && _); [apply grows_set_hash | apply grows_refl]. }
  apply bind_inv in H as (is_upscaler & _ & H).
  apply bind_inv in H as (x5 & S5 & H).
  apply stage_grows_push in S5; [|intros w; apply grows_push_upscaler].
  apply bind_inv in H as (is_vae & _ & H).
  apply bind_inv in H as (x6 & S6 & H).
  apply stage_grows_push in S6; [|intros w; apply grows_push_vae].
  apply bind_inv in H as (is_controlnet & _ & H).
  apply stage_grows_push in H; [|intros w; apply grows_push_controlNet].
  eauto using grows_trans.
Qed.

Lemma visit_grows (a a' : Acc.t) (id : string) :
  visit a id = Ok a' -> acc_grows a a'.
Proof.
  intros H. apply VisitFacts.visit_inv in H as (ps & inputs & _ & _ & _ & Hv).
  apply visit_node_grows in Hv.
  eapply grows_trans; [apply grows_set_prompt | exact Hv].
Qed.

End GrowFacts.

(** X22. The loop of [parse] only appends: the samplers, models,
    upscalers, VAEs, ControlNets and resource references gathered before
    a run of the loop are, in their order, the beginning of the lists
    after it. *)
Theorem sweep_grows (ids : list string) (a a' : Acc.t) :
  sweep a ids = Ok a' -> acc_grows a a'.
Proof.
  revert a. induction ids as [|id ids IH]; intros a H; cbn [sweep] in H.
  - injection H as <-. apply GrowFacts.grows_refl.
  - apply bind_inv in H as (a1 & H1 & H).
    eapply GrowFacts.grows_trans; [eapply GrowFacts.visit_grows, H1 | now apply IH].
Qed.

Lemma sweep_grows_witness : acc_grows Sample.after_first Sample.after_second.
Proof.
  exact (sweep_grows ["2"] Sample.after_first Sample.after_second eq_refl).
Defined.

(** * The sweep as a whole *)

Module SweepFacts.

Lemma Value_ind (P : Value -> Prop) :
  P VUndef -> P VNull -> (forall b, P (VBool b)) -> (forall x, P (VNum x)) ->
  (forall s, P (VStr s)) ->
  (forall xs, Forall P xs -> P (VArr xs)) ->
  (forall ps, Forall (fun kv => P (snd kv)) ps -> P (VObj ps)) ->
  (forall id, P (VRef id)) ->
  forall v, P v.
Proof.
  intros Hu Hn Hb Hx Hs Ha Ho Hr.
  fix IH 1. intros [| | b | x | s | xs | ps | id].
  - exact Hu.
  - exact Hn.
  - apply Hb.
  - apply Hx.
  - apply Hs.
  - apply Ha. induction xs as [|x xs IHxs]; constructor; [apply IH | exact IHxs].
  - apply Ho. induction ps as [|[k v] ps IHps]; constructor;
      [apply IH | exact IHps].
  - apply Hr.
Qed.

Lemma sweep_app (l1 l2 : list string) (a : Acc.t) :
  sweep a (l1 ++ l2) = let* a1 := sweep a l1 in sweep a1 l2.
Proof.
  revert a; induction l1 as [|id l1 IH]; intros a; [reflexivity|].
  cbn [app sweep]. destruct (visit a id) as [a1|e]; [|reflexivity].
  cbn [bind]. apply IH.
Qed.

Lemma same_nodes_refl (h : Heap) : same_nodes h h.
Proof.
  intros id. destruct (Obj.get id h) as [[| | | | | |ps|]|]; eauto.
Qed.

Lemma same_nodes_trans (h1 h2 h3 : Heap) :
  same_nodes h1 h2 -> same_nodes h2 h3 -> same_nodes h1 h3.
Proof.
  intros H12 H23 id. specialize (H12 id). specialize (H23 id).
  destruct (Obj.get id h1) as [[| | | | | |ps|]|];
    try (rewrite H12 in H23; exact H23).
  destruct H12 as (ps2 & E2 & K2). rewrite E2 in H23.
  destruct H23 as (ps3 & E3 & K3). exists ps3. split; [exact E3|].
  intros k Hk. now rewrite K3, K2.
Qed.

(** A visit keeps the nodes of the graph. *)
Lemma visit_same_nodes (a a' : Acc.t) (id : string) :
  visit a id = Ok a' -> same_nodes (Acc.prompt a) (Acc.prompt a').
Proof.
  intros H. apply VisitFacts.visit_inv in H as (ps & inputs & Hps & _ & Hh & _).
  intros id'. rewrite Hh.
  destruct (String.eqb_spec id id') as [<-|Hne].
  - rewrite Hps, ObjFacts.get_replace_eq, Hps.
    eexists. split; [reflexivity|].
    intros k Hk. apply ObjFacts.get_replace_ne. congruence.
  - rewrite ObjFacts.get_replace_ne by exact Hne.
    apply same_nodes_refl.
Qed.

Lemma sweep_same_nodes (ids : list string) (a a' : Acc.t) :
  sweep a ids = Ok a' -> same_nodes (Acc.prompt a) (Acc.prompt a').
Proof.
  revert a; induction ids as [|id ids IH]; intros a H; cbn [sweep] in H.
  - injection H as <-. apply same_nodes_refl.
  - apply bind_inv in H as (a1 & H1 & H).
    eapply same_nodes_trans; [eapply visit_same_nodes, H1 | apply IH, H].
Qed.

(** A node that the sweep does not visit is as it was. *)
Lemma sweep_other (ids : list string) (a a' : Acc.t) (id : string) :
  sweep a ids = Ok a' -> ~ In id ids ->
  Obj.get id (Acc.prompt a') = Obj.get id (Acc.prompt a).
Proof.
  revert a; induction ids as [|id0 ids IH]; intros a H Hid; cbn [sweep] in H.
  - now injection H as <-.
  - apply bind_inv in H as (a1 & H1 & H).
    apply GraphFacts.visit_graph in H1 as (_ & O1 & _).
    rewrite (IH _ H) by (intros E; apply Hid; now right).
    apply O1. intros ->. apply Hid. now left.
Qed.

(** The text of a value does not depend on the inputs of the nodes. *)
Lemma to_string_same (h h' : Heap) (v : Value) :
  same_nodes h h' -> JS.to_string h v = JS.to_string h' v.
Proof.
  intros Hs. induction v as [| | b | x | s | xs IH | ps IH | id] using Value_ind;
    cbn [JS.to_string]; try reflexivity.
  - assert (E : List.map (fun x => match x with
                                   | VUndef | VNull => Ok ""
                                   | _ => JS.to_string h x
                                   end) xs
                = List.map (fun x => match x with
                                     | VUndef | VNull => Ok ""
                                     | _ => JS.to_string h' x
                                     end) xs).
    { apply map_ext_in. intros x Hx. rewrite Forall_forall in IH.
      apply list_elem_of_In in Hx. specialize (IH x Hx). now destruct x. }
    now rewrite E.
  - specialize (Hs id).
    destruct (Obj.get id h) as [[| | | | | |ps|]|]; try (now rewrite Hs).
    destruct Hs as (ps' & -> & _). reflexivity.
Qed.

Lemma loose_eq_string_same (h h' : Heap) (v : Value) (c : string) :
  same_nodes h h' -> JS.loose_eq_string h v c = JS.loose_eq_string h' v c.
Proof.
  intros Hs. destruct v; cbn [JS.loose_eq_string]; try reflexivity;
    now rewrite (to_string_same h h' _ Hs).
Qed.

Lemma get_prop_same (h h' : Heap) (nid name : string) :
  same_nodes h h' -> name <> "inputs" ->
  JS.get_prop h (VRef nid) name = JS.get_prop h' (VRef nid) name.
Proof.
  intros Hs Hname. specialize (Hs nid). unfold JS.get_prop, JS.deref.
  destruct (Obj.get nid h) as [[| | | | | |ps|]|]; try (now rewrite Hs).
  destruct Hs as (ps' & -> & K). cbn [default from_option id].
  now rewrite K.
Qed.

Lemma checkpoint_same (h h' : Heap) (id : string) (hv : Value) :
  same_nodes h h' ->
  checkpoint_with_hash h (VRef id) hv <-> checkpoint_with_hash h' (VRef id) hv.
Proof.
  intros Hs. unfold checkpoint_with_hash.
  rewrite (get_prop_same h h' id "class_type" Hs) by discriminate.
  rewrite (get_prop_same h h' id "ckpt_hash" Hs) by discriminate.
  split; intros (ct & H1 & H2 & H3 & H4); exists ct; repeat split; try assumption.
  - now rewrite <- (loose_eq_string_same h h' ct _ Hs).
  - now rewrite (loose_eq_string_same h h' ct _ Hs).
Qed.

(** As long as no checkpoint loader with a hash is visited, the entry
    [model] is not set. *)
Lemma sweep_not_set (h : Heap) (ids : list string) :
  forall a a',
    same_nodes h (Acc.prompt a) -> model_entry a = None ->
    (forall i v, In i ids -> ~ checkpoint_with_hash h (VRef i) v) ->
    sweep a ids = Ok a' ->
    model_entry a' = None /\ same_nodes h (Acc.prompt a').
Proof.
  induction ids as [|id ids IH]; intros a a' Hs Hnone Hno H; cbn [sweep] in H.
  - injection H as <-. now split.
  - apply bind_inv in H as (a1 & H1 & H).
    assert (Hs1 : same_nodes h (Acc.prompt a1))
      by (eapply same_nodes_trans; [exact Hs | eapply visit_same_nodes, H1]).
    apply (IH a1 a' Hs1); [| |exact H].
    + destruct (visit_model_entry _ _ _ H1) as [[M|(hv & C & _ & _)] _];
        [congruence|].
      apply (checkpoint_same h _ id hv Hs1) in C.
      destruct (Hno id hv (or_introl eq_refl) C).
    + intros i v Hi. apply Hno. now right.
Qed.

(** The first checkpoint loader with a hash sets the entry [model], and
    the entry is the same at the end of the sweep. *)
Lemma first_loader_wins (h : Heap) (before after : list string) (id : string)
    (hv : Value) (a : Acc.t) :
  sweep (Acc.init h) (before ++ id :: after) = Ok a ->
  (forall i v, In i before -> ~ checkpoint_with_hash h (VRef i) v) ->
  checkpoint_with_hash h (VRef id) hv ->
  model_entry a = Some hv.
Proof.
  intros H Hno C. rewrite sweep_app in H.
  apply bind_inv in H as (a1 & H1 & H). cbn [sweep] in H.
  apply bind_inv in H as (a2 & H2 & H3).
  destruct (sweep_not_set h before (Acc.init h) a1 (same_nodes_refl h)
              (lookup_empty _) Hno H1) as [Hnone Hs1].
  assert (Hs2 : same_nodes h (Acc.prompt a2))
    by (eapply same_nodes_trans; [exact Hs1 | eapply visit_same_nodes, H2]).
  assert (E2 : model_entry a2 = Some hv).
  { apply (proj2 (visit_model_entry _ _ _ H2)).
    - now apply (checkpoint_same h _ id hv Hs2).
    - now rewrite Hnone. }
  assert (T2 : entry_truthy a2).
  { intros v. rewrite E2. intros [= <-]. now destruct C as (ct & _ & _ & _ & Ht). }
  now apply (sweep_kept _ _ _ H3 T2).
Qed.

End SweepFacts.

Section Precedence.

Variable samplerMap : list (string * string).

(** C4. Model-hash precedence.  Take a call of [parse] that returns a
    record, and let [id] be the first node of the decoded graph, in
    traversal order, that is a checkpoint loader carrying a hash.  The
    entry [model] of the hashes is written once: it is not set as long as
    the nodes before [id] are visited, the visit of [id] sets it to the
    hash of that node, and it holds that hash after every later visit,
    whatever the later nodes carry, and in the record. *)
Theorem model_hash_precedence (exif : Exif.t) (r : ImageMetaProps) :
  parse samplerMap exif = Ok r ->
  exists doc h a,
    graph_of doc = Ok h /\
    classify exif = Ok (doc, a) /\
    sweep (Acc.init h) (List.map fst h) = Ok a /\
    Meta.hashes r = Acc.hashes a /\
    forall before id after hv,
      List.map fst h = before ++ id :: after ->
      (forall i v, In i before -> ~ checkpoint_with_hash h (VRef i) v) ->
      checkpoint_with_hash h (VRef id) hv ->
      Meta.hashes r !! "model" = Some hv /\
      forall k, exists ak,
        sweep (Acc.init h) (take k (List.map fst h)) = Ok ak /\
        model_entry ak = if (k <=? length before)%nat then None else Some hv.
Proof.
  intros H.
  destruct (parse_steps samplerMap exif r H)
    as (text & doc & h & a & sampler & workflow & ids
        & Ht & Hd & Hh & Hsweep & _ & _ & _ & Hb).
  assert (Hr : Meta.hashes r = Acc.hashes a).
  { destruct (build_fields samplerMap _ _ _ _ _ _ Hb)
      as (positive & prompt & negative & positive_class & F).
    apply F. }
  exists doc, h, a. split; [exact Hh|]. split.
  { unfold classify. rewrite Ht. cbn [bind]. rewrite Hd. cbn [bind].
    rewrite Hh. cbn [bind]. now rewrite Hsweep. }
  split; [exact Hsweep|]. split; [exact Hr|].
  intros before id after hv Hids Hno C. rewrite Hids in *. split.
  { rewrite Hr.
    exact (SweepFacts.first_loader_wins _ _ _ _ _ _ Hsweep Hno C). }
  intros k.
  assert (Hk : exists ak,
            sweep (Acc.init h) (take k (before ++ id :: after)) = Ok ak).
  { rewrite <- (take_drop k (before ++ id :: after)) in Hsweep.
    rewrite SweepFacts.sweep_app in Hsweep.
    apply bind_inv in Hsweep as (ak & Hak & _). eauto. }
  destruct Hk as [ak Hak]. exists ak. split; [exact Hak|].
  destruct (Nat.leb_spec k (length before)) as [Hle|Hgt].
  - rewrite take_app_le in Hak by exact Hle.
    apply (SweepFacts.sweep_not_set h (take k before) (Acc.init h) ak
             (SweepFacts.same_nodes_refl h) (lookup_empty _)); [|exact Hak].
    intros i v Hi. apply Hno.
    apply list_elem_of_In. apply list_elem_of_In in Hi.
    exact (subseteq_take _ _ _ Hi).
  - rewrite take_app_ge in Hak by lia.
    destruct (k - length before)%nat as [|n] eqn:En; [lia|].
    cbn [take] in Hak.
    exact (SweepFacts.first_loader_wins _ _ _ _ _ _ Hak Hno C).
Qed.

End Precedence.

Lemma model_hash_precedence_witness :
  Meta.hashes Sample.record_two_loaders !! "model" = Some (VStr "aaa").
Proof.
  destruct (model_hash_precedence Sample.samplerMap Sample.exif_two_loaders
              Sample.record_two_loaders)
    as (doc & h & a & Hh & Hc & _ & _ & Hfirst);
    [vm_compute; reflexivity|].
  vm_compute in Hc. injection Hc as <- <-.
  vm_compute in Hh. injection Hh as <-.
  apply (Hfirst ["1"] "2" ["3"; "4"; "5"; "6"; "7"] (VStr "aaa")).
  - reflexivity.
  - intros i v [<-|[]] (ct & H1 & H2 & _).
    vm_compute in H1. injection H1 as <-. discriminate H2.
  - exists (VStr "CheckpointLoaderSimple"). repeat split.
Defined.

Module SourceFacts.
Import SweepFacts.

Lemma resolve_edge_plain (h : Heap) (v : Value) :
  (forall xs, v <> VArr xs) -> resolve_edge h v = Ok v.
Proof. intros H. destruct v; try reflexivity. now destruct (H xs). Qed.

(** An input that is not an array is the same after a visit. *)
Lemma visit_has_input (a a' : Acc.t) (nid lid k : string) (v : Value) :
  visit a nid = Ok a' -> (forall xs, v <> VArr xs) ->
  has_input (Acc.prompt a) lid k v -> has_input (Acc.prompt a') lid k v.
Proof.
  intros H Hv (node & ins & Hnode & Hins & Hk).
  apply VisitFacts.visit_inv in H as (ps & inputs & Hps & Hin & Hh & _).
  rewrite Hh. destruct (String.eqb_spec nid lid) as [->|Hne].
  - rewrite Hnode in Hps. injection Hps as <-.
    rewrite Hins in Hin. cbn [default from_option] in Hin.
    apply resolve_inputs_obj in Hin as (ins' & -> & Hres).
    specialize (Hres k). rewrite Hk in Hres.
    destruct Hres as (v' & Hv' & Hk').
    rewrite (resolve_edge_plain _ _ Hv) in Hv'. injection Hv' as <-.
    exists (Obj.replace "inputs" (VObj ins') node), ins'.
    rewrite !ObjFacts.get_replace_eq, Hnode, Hins. auto.
  - exists node, ins. rewrite ObjFacts.get_replace_ne by exact Hne. auto.
Qed.

Lemma sweep_has_input (ids : list string) (lid k : string) (v : Value) :
  (forall xs, v <> VArr xs) ->
  forall a a',
    sweep a ids = Ok a' ->
    has_input (Acc.prompt a) lid k v -> has_input (Acc.prompt a') lid k v.
Proof.
  intros Hv. induction ids as [|nid ids IH]; intros a a' H Hi; cbn [sweep] in H.
  - now injection H as <-.
  - apply bind_inv in H as (a1 & H1 & H).
    apply (IH a1 a' H). now apply (visit_has_input a a1 nid).
Qed.

(** An edge to a node of the graph is that node, once the node that has
    the edge among its inputs is visited. *)
Lemma sweep_resolves (h : Heap) (lid k key : string) (rest : list Value)
    (w : list (string * Value)) (ids : list string) :
  Obj.get key h = Some (VObj w) ->
  forall a a' node ins,
    sweep a ids = Ok a' -> In lid ids -> same_nodes h (Acc.prompt a) ->
    Obj.get lid (Acc.prompt a) = Some (VObj node) ->
    Obj.get "inputs" node = Some (VObj ins) ->
    Obj.get k ins = Some (VArr (VStr key :: rest)) ->
    has_input (Acc.prompt a') lid k (VRef key).
Proof.
  intros Hkey. induction ids as [|nid ids IH];
    intros a a' node ins H Hin Hs Hnode Hins Hk; [destruct Hin|].
  cbn [sweep] in H. apply bind_inv in H as (a1 & H1 & H).
  assert (Hs1 : same_nodes h (Acc.prompt a1))
    by (eapply same_nodes_trans; [exact Hs | eapply visit_same_nodes, H1]).
  destruct (String.eqb_spec nid lid) as [->|Hne].
  - apply (sweep_has_input ids lid k (VRef key) ltac:(discriminate) a1 a' H).
    apply VisitFacts.visit_inv in H1 as (ps & inputs & Hps & Hres & Hh & _).
    rewrite Hnode in Hps. injection Hps as <-.
    rewrite Hins in Hres. cbn [default from_option] in Hres.
    apply resolve_inputs_obj in Hres as (ins' & -> & Hres).
    specialize (Hres k). rewrite Hk in Hres.
    destruct Hres as (v' & Hv' & Hk').
    specialize (Hs key). rewrite Hkey in Hs. destruct Hs as (w' & Hw' & _).
    rewrite (EdgeFacts.resolve_edge_node _ _ _ _ Hw') in Hv'.
    injection Hv' as <-.
    exists (Obj.replace "inputs" (VObj ins') node), ins'.
    rewrite Hh, !ObjFacts.get_replace_eq, Hnode, Hins. auto.
  - destruct Hin as [->|Hin]; [congruence|].
    apply (IH a1 a' node ins H Hin Hs1); [|exact Hins | exact Hk].
    apply GraphFacts.visit_graph in H1 as (_ & O1 & _).
    rewrite O1 by congruence. exact Hnode.
Qed.

(** The value that is read from an input of a node. *)
Lemma read_input (h : Heap) (lid k : string) (v inputs w : Value) :
  has_input h lid k v ->
  JS.get_prop h (VRef lid) "inputs" = Ok inputs ->
  JS.get_prop h inputs k = Ok w ->
  w = v.
Proof.
  intros (node & ins & Hnode & Hins & Hk). unfold JS.get_prop at 1, JS.deref.
  rewrite Hnode. cbv [default from_option id]. rewrite Hins.
  intros [= <-]. cbn [JS.get_prop JS.deref].
  rewrite Hk. now intros [= <-].
Qed.

(** What the graph has after the sweep for an input of one of its
    nodes. *)
Lemma sweep_input_source (h : Heap) (a : Acc.t) (lid k : string)
    (node ins : list (string * Value)) (inputs w : Value) :
  sweep (Acc.init h) (List.map fst h) = Ok a ->
  Obj.get lid h = Some (VObj node) ->
  Obj.get "inputs" node = Some (VObj ins) ->
  JS.get_prop (Acc.prompt a) (VRef lid) "inputs" = Ok inputs ->
  JS.get_prop (Acc.prompt a) inputs k = Ok w ->
  input_source h (Obj.get k ins) w.
Proof.
  intros Hsweep Hnode Hins Hi Hw. split.
  - intros v Hk Hv.
    apply (read_input (Acc.prompt a) lid k v inputs w); [|exact Hi | exact Hw].
    apply (sweep_has_input (List.map fst h) lid k v Hv (Acc.init h) a Hsweep).
    now exists node, ins.
  - intros key rest target Hk Hkey.
    apply (read_input (Acc.prompt a) lid k (VRef key) inputs w);
      [|exact Hi | exact Hw].
    apply (sweep_resolves h lid k key rest target (List.map fst h) Hkey
             (Acc.init h) a node ins Hsweep); try assumption.
    + eapply GraphFacts.get_some_key, Hnode.
    + apply same_nodes_refl.
Qed.

End SourceFacts.

Section Source.

Variable samplerMap : list (string * string).

(** C10 (amended). The source of width and height: in a record that
    [parse] returns, [width] and [height] are the entries [width] and
    [height] of the inputs of the node that the canonical sampler has as
    [latent_image], as the graph stands after the sweep.  An entry that
    is written as a value that is not an array is taken as written; an
    entry that is written as an edge to a node of the graph is that
    node. *)
Theorem width_height_source (exif : Exif.t) (r : ImageMetaProps) :
  parse samplerMap exif = Ok r ->
  exists doc a sampler latent_image latent_inputs,
    classify exif = Ok (doc, a) /\
    initialSamplerNode (Acc.prompt a) (Acc.samplerNodes a) = Ok sampler /\
    JS.get_prop (Acc.prompt a) sampler "latent_image" = Ok latent_image /\
    JS.get_prop (Acc.prompt a) latent_image "inputs" = Ok latent_inputs /\
    JS.get_prop (Acc.prompt a) latent_inputs "width" = Ok (Meta.width r) /\
    JS.get_prop (Acc.prompt a) latent_inputs "height" = Ok (Meta.height r) /\
    forall h lid node ins,
      graph_of doc = Ok h ->
      latent_image = VRef lid ->
      Obj.get lid h = Some (VObj node) ->
      Obj.get "inputs" node = Some (VObj ins) ->
      input_source h (Obj.get "width" ins) (Meta.width r) /\
      input_source h (Obj.get "height" ins) (Meta.height r).
Proof.
  unfold parse. intros H.
  apply bind_inv in H as ([doc a] & Hc & H).
  apply bind_inv in H as (sampler & Hs & H).
  apply bind_inv in H as (workflow & _ & H).
  apply bind_inv in H as (ids & _ & H).
  unfold build in H.
  apply bind_inv in H as (positive & _ & H).
  apply bind_inv in H as (prompt & _ & H).
  apply bind_inv in H as (negative & _ & H).
  apply bind_inv in H as (negativePrompt & _ & H).
  apply bind_inv in H as (cfg & _ & H).
  apply bind_inv in H as (steps & _ & H).
  apply bind_inv in H as (seed & _ & H).
  apply bind_inv in H as (sampler_name & _ & H).
  apply bind_inv in H as (scheduler & _ & H).
  apply bind_inv in H as (denoise & _ & H).
  apply bind_inv in H as (latent_image & Hl & H).
  apply bind_inv in H as (latent_inputs & Hi & H).
  apply bind_inv in H as (width & Hw & H).
  apply bind_inv in H as (latent_image' & Hl' & H).
  apply bind_inv in H as (latent_inputs' & Hi' & H).
  apply bind_inv in H as (height & Hh & H).
  apply bind_inv in H as (comfy & _ & H).
  apply bind_inv in H as (positive_class & _ & H).
  apply bind_inv in H as (prompt' & _ & H).
  apply a1111Compatability_size in H as (Ew & Eh & _).
  cbn [Meta.width Meta.height] in Ew, Eh.
  assert (latent_image' = latent_image) as -> by congruence.
  assert (latent_inputs' = latent_inputs) as -> by congruence.
  exists doc, a, sampler, latent_image, latent_inputs.
  rewrite Ew, Eh. repeat (split; [assumption|]).
  intros h lid node ins Hg -> Hnode Hins.
  pose proof Hc as Hsweep. unfold classify in Hsweep.
  apply bind_inv in Hsweep as (text & _ & Hsweep).
  apply bind_inv in Hsweep as (doc' & _ & Hsweep).
  apply bind_inv in Hsweep as (h' & Hg' & Hsweep).
  apply bind_inv in Hsweep as (a' & Hsweep & [= -> ->]).
  assert (h' = h) as -> by congruence.
  split.
  - exact (SourceFacts.sweep_input_source h a lid "width" node ins _ _
             Hsweep Hnode Hins Hi Hw).
  - exact (SourceFacts.sweep_input_source h a lid "height" node ins _ _
             Hsweep Hnode Hins Hi Hh).
Qed.

End Source.

Lemma width_height_source_witness :
  Meta.width Sample.record_small = VNum (mkNum false [d5; d1; d2] 3) /\
  Meta.height Sample.record_small = VNum (mkNum false [d7; d6; d8] 3).
Proof.
  destruct (width_height_source Sample.samplerMap Sample.exif_small
              Sample.record_small)
    as (doc & a & sampler & latent_image & latent_inputs
        & Hc & Hs & Hl & _ & _ & _ & Hsrc);
    [vm_compute; reflexivity|].
  vm_compute in Hc. injection Hc as <- <-.
  vm_compute in Hs. injection Hs as <-.
  vm_compute in Hl. injection Hl as <-.
  destruct (Hsrc _ "5" _ _ eq_refl eq_refl eq_refl eq_refl) as [[Hw _] [Hh _]].
  split; [apply Hw | apply Hh]; (reflexivity || discriminate).
Defined.

(** C10 as stated fails when the width is wired: the latent image of
    [Sample.exif_wired] has the edge to the node [12] as its width,
    whatever that node holds, and the width of the record is the node
    [12] itself, which holds [512] in one graph and [640] in the other. *)
Lemma width_of_another_node :
  parse Sample.samplerMap (Sample.exif_wired "512")
  = Ok (Sample.record_wired "512") /\
  parse Sample.samplerMap (Sample.exif_wired "640")
  = Ok (Sample.record_wired "640") /\
  Obj.get "5" (Sample.written_wired "512")
  = Some (VObj [("inputs",
                 VObj [("width", VArr [VStr "12"; VNum zero]);
                       ("height", VNum (mkNum false [d7; d6; d8] 3));
                       ("batch_size", VNum (mkNum false [d1] 1))]);
                ("class_type", VStr "EmptyLatentImage")]) /\
  Obj.get "5" (Sample.written_wired "640")
  = Obj.get "5" (Sample.written_wired "512") /\
  Meta.width (Sample.record_wired "512") = VRef "12" /\
  Meta.width (Sample.record_wired "640") = VRef "12" /\
  Obj.get "12" (Sample.graph_wired "512")
  = Some (VObj [("inputs", VObj [("Value", VNum (mkNum false [d5; d1; d2] 3))]);
                ("class_type", VStr "PrimitiveNode")]) /\
  Obj.get "12" (Sample.graph_wired "640")
  = Some (VObj [("inputs", VObj [("Value", VNum (mkNum false [d6; d4] 3))]);
                ("class_type", VStr "PrimitiveNode")]).
Proof. vm_compute. repeat split. Qed.
